(** * GATT client (attrib/client.c): a shallow embedding and its properties

    The development follows attrib/client.c.  Integers of the C code are
    modelled as [Z] with the wrap-around of their C type written out where a
    value is stored; byte strings are lists of [Z] in [0, 255]; C strings are
    [string] (object paths, names, messages) or [list ascii] (the cache
    payload that is printed and scanned).  The heap objects of the program
    (one [gatt_service], its primaries and their characteristics) are kept in
    one [world] value together with the observable effects of the code: the
    messages put on the bus, the requests handed to the transport, the
    storage calls and the timers.  Where the C code leaves defined
    behaviour (a stored type that does not fit chr->type) the functions
    answer [None]; where the outcome depends on the C library (a bare 0x
    prefix under "%X") the functions take the library's choice as an
    argument. *)

From Stdlib Require Import ZArith List Bool Ascii String Lia.
Import ListNotations.
Local Open Scope Z_scope.

(** ** Machine integers *)

Definition u8 (n : Z) : Z := n mod 256.
Definition u16 (n : Z) : Z := n mod 65536.

Definition bytes := list Z.

(** att_get_u16: a little-endian load of the first two bytes; the result
    is a uint16_t. *)
Definition att_get_u16 (p : bytes) : Z :=
  u16 (Z.lor (nth 0 p 0) (Z.shiftl (nth 1 p 0) 8)).

(** ** Constants of the headers the file includes *)

(** Modelled from the spec: att.h is not part of the sources; the opcodes
    and error codes are the ones the specification lists. *)
Definition ATT_OP_HANDLE_NOTIFY : Z := 0x1B.
Definition ATT_OP_HANDLE_IND : Z := 0x1D.
Definition ATT_OP_HANDLE_CNF : Z := 0x1E.
Definition ATT_ECODE_AUTHENTICATION : Z := 0x05.
Definition ATT_ECODE_INSUFF_ENC : Z := 0x0F.

(** Modelled from the spec: bluetooth/uuid.h is not part of the sources;
    a UUID string has at most 36 characters and MAX_LEN_UUID_STR is 37. *)
Definition MAX_LEN_UUID_STR : nat := 37.

(** ** Characters and the C library's formatted I/O *)

Definition code (c : ascii) : Z := Z.of_N (N_of_ascii c).

(** isspace in the C locale. *)
Definition isspace (c : ascii) : bool :=
  (code c =? 32) || ((9 <=? code c) && (code c <=? 13)).

(** The value of a hexadecimal digit, as strtoul reads it. *)
Definition hexval (c : ascii) : option Z :=
  let n := code c in
  if (48 <=? n) && (n <=? 57) then Some (n - 48)
  else if (65 <=? n) && (n <=? 70) then Some (n - 55)
  else if (97 <=? n) && (n <=? 102) then Some (n - 87)
  else None.

Definition upper_digits : list ascii :=
  list_ascii_of_string "0123456789ABCDEF".
Definition lower_digits : list ascii :=
  list_ascii_of_string "0123456789abcdef".

Definition hexdigit (d : Z) : ascii := nth (Z.to_nat d) upper_digits "0"%char.
Definition hexdigit_lower (d : Z) : ascii :=
  nth (Z.to_nat d) lower_digits "0"%char.

(** The digits printf produces for an unsigned value, most significant
    first; eight digits cover an unsigned int. *)
Fixpoint hex_digits (digit : Z -> ascii) (fuel : nat) (n : Z) : list ascii :=
  match fuel with
  | O => []
  | S f =>
      if n <? 16 then [digit n]
      else hex_digits digit f (n / 16) ++ [digit (n mod 16)]
  end.

(** printf's "%0<width>X" and "%0<width>x" on an unsigned int. *)
Definition fmt_hex (digit : Z -> ascii) (width : nat) (n : Z) : list ascii :=
  let ds := hex_digits digit 8 n in
  repeat "0"%char (width - List.length ds) ++ ds.

Definition fmt_X := fmt_hex hexdigit.
Definition fmt_x := fmt_hex hexdigit_lower.

Fixpoint skip_ws (s : list ascii) : list ascii :=
  match s with
  | c :: r => if isspace c then skip_ws r else s
  | [] => []
  end.

(** At most [w] hexadecimal digits from the front of [s]. *)
Fixpoint take_hex (w : nat) (s : list ascii) : list Z * list ascii :=
  match w, s with
  | S w', c :: r =>
      match hexval c with
      | Some d => let '(ds, rest) := take_hex w' r in (d :: ds, rest)
      | None => ([], s)
      end
  | _, _ => ([], s)
  end.

Definition hex_value (ds : list Z) : Z :=
  fold_left (fun a d => a * 16 + d) ds 0.

Definition is_sign (c : ascii) : bool := (code c =? 43) || (code c =? 45).
Definition is_x (c : ascii) : bool := (code c =? 120) || (code c =? 88).

(** sscanf is the C library's.  In one case of "%X" the libraries are
    known to differ: a 0x prefix that no hexadecimal digit follows (within
    the field width).  The C standard makes it a matching failure
    (7.21.6.2: the input item "0x" is not a matching sequence),
    [Prefix_fails]; other libraries, version 2.36 of the GNU C library
    among them, read the prefix as the number 0 and go on after it,
    [Prefix_is_zero].  The library is assumed to do one or the other, and
    every statement about scanning is made for both. *)
Inductive bare_prefix :=
| Prefix_fails
| Prefix_is_zero.

(** scanf's "%<width>X": white space is skipped, then an optional sign, an
    optional 0x prefix and hexadecimal digits, all within the field width.
    No digit is a matching failure, except after a prefix where [lib]
    decides.  The result is the value read, before it is stored in the C
    object (the caller narrows it). *)
Definition scan_hex (lib : bare_prefix) (width : nat) (s : list ascii)
  : option (Z * list ascii) :=
  let s0 := skip_ws s in
  let '(neg, w1, s1) :=
    match s0 with
    | c :: r =>
        if is_sign c && (1 <=? width)%nat
        then (code c =? 45, (width - 1)%nat, r)
        else (false, width, s0)
    | [] => (false, width, s0)
    end in
  let '(prefix, w2, s2) :=
    match s1 with
    | z :: x :: r =>
        if (code z =? 48) && is_x x && (2 <=? w1)%nat
        then (true, (w1 - 2)%nat, r)
        else (false, w1, s1)
    | _ => (false, w1, s1)
    end in
  match take_hex w2 s2 with
  | ([], _) =>
      match prefix, lib with
      | true, Prefix_is_zero => Some (0, s2)
      | _, _ => None
      end
  | (ds, rest) =>
      Some (if neg then - hex_value ds else hex_value ds, rest)
  end.

(** A literal character of a scanf format. *)
Definition scan_lit (c : ascii) (s : list ascii) : option (list ascii) :=
  match s with
  | c' :: r => if Ascii.eqb c c' then Some r else None
  | [] => None
  end.

Fixpoint take_nonspace (s : list ascii) : list ascii * list ascii :=
  match s with
  | c :: r =>
      if isspace c then ([], s)
      else let '(t, rest) := take_nonspace r in (c :: t, rest)
  | [] => ([], [])
  end.

(** scanf's "%s": white space is skipped, then the characters up to the
    next white space; an empty word is a matching failure. *)
Definition scan_word (s : list ascii) : option (list ascii * list ascii) :=
  match take_nonspace (skip_ws s) with
  | ([], _) => None
  | r => Some r
  end.

(** g_strsplit (str, " ", 0): the pieces between the spaces; the empty
    string has no piece at all. *)
Fixpoint split_space (s : list ascii) : list (list ascii) :=
  match s with
  | [] => [[]]
  | c :: r =>
      if Ascii.eqb c " "%char then [] :: split_space r
      else match split_space r with
           | t :: ts => (c :: t) :: ts
           | [] => [[c]]
           end
  end.

Definition g_strsplit_space (s : list ascii) : list (list ascii) :=
  match s with
  | [] => []
  | _ => split_space s
  end.

(** ** The objects of the client *)

Inductive dbus_arg :=
| Arg_string (s : string)
| Arg_object_path (s : string)
| Arg_variant_bytes (v : bytes)
| Arg_variant_other.

(** A method call received from the bus. *)
Record DBusMessage := {
  msg_sender : string;
  msg_member : string;
  msg_args : list dbus_arg
}.

(** Texts that come from outside the file are kept symbolic. *)
Inductive err_text :=
| Text (s : string)
| Att_ecode_str (status : Z)
| Gerr_message.

(** What the client puts on the bus: replies to method calls and the
    ValueChanged calls to watchers. *)
Inductive dbus_out :=
| Method_return (to : DBusMessage) (paths : list string)
| Error_failed (to : DBusMessage) (text : err_text)
| Error_invalid_args (to : DBusMessage)
| Error_not_authorized (to : DBusMessage)
| Value_changed (dest path chr_path : string) (value : option bytes)
    (vlen : Z).

Record descriptor := {
  desc_name : option string;
  desc_desc : option bytes;
  cli_conf_hndl : Z;
  cli_conf : Z;
  desc_format : option bytes
}.

(** struct characteristic; the pointer to its primary is its position in
    that primary's list. *)
Record characteristic := {
  chr_path : string;
  chr_handle : Z;
  chr_end : Z;
  chr_perm : Z;
  chr_type : string;
  chr_desc : descriptor;
  chr_msg : option DBusMessage;
  chr_value : option bytes;
  chr_vlen : Z
}.

(** Modelled from the spec: struct att_primary and struct att_char are
    declared in headers that are not part of the sources; a primary is
    (start, end, uuid) and a discovered characteristic is
    (declaration handle, value handle, properties, uuid). *)
Record att_primary := {
  att_uuid : string;
  att_start : Z;
  att_end : Z
}.

Record att_char := {
  ac_uuid : string;
  ac_handle : Z;
  ac_properties : Z;
  ac_value_handle : Z
}.

Record watcher := {
  watcher_id : Z;
  watcher_name : string;
  watcher_path : string
}.

Record primary := {
  prim_att : att_primary;
  discovery_msg : option DBusMessage;
  discovery_timer : Z;
  prim_path : string;
  chars : list characteristic;
  watchers : list watcher
}.

(** Modelled from the spec: GAttrib (gattrib.c) is not part of the
    sources.  The transport is a reference-counted handle; the opcodes for
    which events_handler is registered are kept with it. *)
Record GAttrib := {
  attrib_refs : nat;
  attrib_events : list Z
}.

Record gatt_service := {
  gatt_sba : string;
  gatt_dba : string;
  gatt_path : string;
  gatt_primary : list primary;
  gatt_attrib : option GAttrib;
  gatt_msg : option DBusMessage;
  gatt_psm : Z;
  gatt_listen : bool
}.

(** struct query_data; [q_prim] and [q_chr] are the positions of the
    primary and of the characteristic the C pointers refer to. *)
Record query_data := {
  q_prim : nat;
  q_chr : nat;
  q_handle : Z;
  q_last : bool;
  q_len : Z;
  q_value : bytes
}.

Inductive callback :=
| CB_char_discovered
| CB_descriptor
| CB_update_char_value
| CB_update_char_cli_conf
| CB_update_char_desc
| CB_update_char_format
| CB_gatt_write_char_resp
| CB_gatt_write_cli_conf_resp.

(** The requests of gatt.h the file issues. *)
Inductive att_request :=
| Req_read_char (handle : Z)
| Req_write_char (handle : Z) (value : bytes)
| Req_find_info (start end_ : Z)
| Req_discover_char (start end_ : Z).

(** The observable effects, in the order the code performs them. *)
Inductive event :=
| Ev_dbus_send (m : dbus_out)
| Ev_att_request (r : att_request) (cb : callback) (q : query_data)
| Ev_att_send (pdu : bytes)
| Ev_register_interface (path : string)
| Ev_read_device_characteristics (sba dba : string) (start : Z)
| Ev_write_device_characteristics (sba dba : string) (start : Z)
    (payload : list ascii)
| Ev_store_attribute (sba dba : string) (handle type : Z) (value : bytes)
| Ev_bt_io_connect
| Ev_bt_io_set_sec_high
| Ev_timeout_add (id : Z) (prim : nat)
| Ev_source_remove (id : Z)
| Ev_add_disconnect_watch (id : Z) (sender : string)
| Ev_remove_watch (id : Z).

(** The program state and its surroundings: the single [gatt_service],
    the answers of the collaborators (whether the channel accepts a
    security change, whether a connection can be opened, what the storage
    holds), the next identifier glib hands out, and the effects so far. *)
Record world := {
  gatt : gatt_service;
  sec_high : bool;
  io_set_ok : bool;
  connect_ok : bool;
  stored : string -> string -> Z -> option (list ascii);
  next_id : Z;
  trace : list event
}.

(** ** Field updates *)

Fixpoint list_set {A : Type} (l : list A) (i : nat) (x : A) : list A :=
  match l, i with
  | [], _ => []
  | _ :: t, O => x :: t
  | h :: t, S j => h :: list_set t j x
  end.

Definition set_chr_end (e : Z) (c : characteristic) : characteristic :=
  {| chr_path := chr_path c; chr_handle := chr_handle c; chr_end := e;
     chr_perm := chr_perm c; chr_type := chr_type c; chr_desc := chr_desc c;
     chr_msg := chr_msg c; chr_value := chr_value c; chr_vlen := chr_vlen c |}.

Definition set_chr_msg (m : option DBusMessage) (c : characteristic)
  : characteristic :=
  {| chr_path := chr_path c; chr_handle := chr_handle c; chr_end := chr_end c;
     chr_perm := chr_perm c; chr_type := chr_type c; chr_desc := chr_desc c;
     chr_msg := m; chr_value := chr_value c; chr_vlen := chr_vlen c |}.

Definition set_chr_value (v : option bytes) (n : Z) (c : characteristic)
  : characteristic :=
  {| chr_path := chr_path c; chr_handle := chr_handle c; chr_end := chr_end c;
     chr_perm := chr_perm c; chr_type := chr_type c; chr_desc := chr_desc c;
     chr_msg := chr_msg c; chr_value := v; chr_vlen := n |}.

Definition set_chr_desc (d : descriptor) (c : characteristic)
  : characteristic :=
  {| chr_path := chr_path c; chr_handle := chr_handle c; chr_end := chr_end c;
     chr_perm := chr_perm c; chr_type := chr_type c; chr_desc := d;
     chr_msg := chr_msg c; chr_value := chr_value c; chr_vlen := chr_vlen c |}.

Definition set_chars (cs : list characteristic) (p : primary) : primary :=
  {| prim_att := prim_att p; discovery_msg := discovery_msg p;
     discovery_timer := discovery_timer p; prim_path := prim_path p;
     chars := cs; watchers := watchers p |}.

Definition set_watchers (ws : list watcher) (p : primary) : primary :=
  {| prim_att := prim_att p; discovery_msg := discovery_msg p;
     discovery_timer := discovery_timer p; prim_path := prim_path p;
     chars := chars p; watchers := ws |}.

Definition set_discovery_msg (m : option DBusMessage) (p : primary)
  : primary :=
  {| prim_att := prim_att p; discovery_msg := m;
     discovery_timer := discovery_timer p; prim_path := prim_path p;
     chars := chars p; watchers := watchers p |}.

Definition set_discovery_timer (t : Z) (p : primary) : primary :=
  {| prim_att := prim_att p; discovery_msg := discovery_msg p;
     discovery_timer := t; prim_path := prim_path p;
     chars := chars p; watchers := watchers p |}.

Definition set_primary (ps : list primary) (g : gatt_service)
  : gatt_service :=
  {| gatt_sba := gatt_sba g; gatt_dba := gatt_dba g; gatt_path := gatt_path g;
     gatt_primary := ps; gatt_attrib := gatt_attrib g;
     gatt_msg := gatt_msg g; gatt_psm := gatt_psm g;
     gatt_listen := gatt_listen g |}.

Definition set_attrib (a : option GAttrib) (g : gatt_service)
  : gatt_service :=
  {| gatt_sba := gatt_sba g; gatt_dba := gatt_dba g; gatt_path := gatt_path g;
     gatt_primary := gatt_primary g; gatt_attrib := a;
     gatt_msg := gatt_msg g; gatt_psm := gatt_psm g;
     gatt_listen := gatt_listen g |}.

Definition set_listen (b : bool) (g : gatt_service) : gatt_service :=
  {| gatt_sba := gatt_sba g; gatt_dba := gatt_dba g; gatt_path := gatt_path g;
     gatt_primary := gatt_primary g; gatt_attrib := gatt_attrib g;
     gatt_msg := gatt_msg g; gatt_psm := gatt_psm g;
     gatt_listen := b |}.

Definition set_gatt (g : gatt_service) (w : world) : world :=
  {| gatt := g; sec_high := sec_high w; io_set_ok := io_set_ok w;
     connect_ok := connect_ok w; stored := stored w; next_id := next_id w;
     trace := trace w |}.

Definition set_sec_high (b : bool) (w : world) : world :=
  {| gatt := gatt w; sec_high := b; io_set_ok := io_set_ok w;
     connect_ok := connect_ok w; stored := stored w; next_id := next_id w;
     trace := trace w |}.

Definition set_next_id (n : Z) (w : world) : world :=
  {| gatt := gatt w; sec_high := sec_high w; io_set_ok := io_set_ok w;
     connect_ok := connect_ok w; stored := stored w; next_id := n;
     trace := trace w |}.

(** One more effect at the end of the trace. *)
Definition emit (e : event) (w : world) : world :=
  {| gatt := gatt w; sec_high := sec_high w; io_set_ok := io_set_ok w;
     connect_ok := connect_ok w; stored := stored w; next_id := next_id w;
     trace := trace w ++ [e] |}.

Definition get_prim (w : world) (pi : nat) : option primary :=
  nth_error (gatt_primary (gatt w)) pi.

Definition put_prim (pi : nat) (p : primary) (w : world) : world :=
  set_gatt (set_primary (list_set (gatt_primary (gatt w)) pi p) (gatt w)) w.

Definition get_chr (w : world) (pi ci : nat) : option characteristic :=
  match get_prim w pi with
  | Some p => nth_error (chars p) ci
  | None => None
  end.

Definition put_chr (pi ci : nat) (c : characteristic) (w : world) : world :=
  match get_prim w pi with
  | Some p => put_prim pi (set_chars (list_set (chars p) ci c) p) w
  | None => w
  end.

(** ** The transport handle *)

(** Modelled from the spec: g_attrib_ref of gattrib.c; a NULL handle
    stays NULL. *)
Definition g_attrib_ref (w : world) : world :=
  match gatt_attrib (gatt w) with
  | Some a =>
      set_gatt (set_attrib (Some {| attrib_refs := S (attrib_refs a);
                                    attrib_events := attrib_events a |})
                  (gatt w)) w
  | None => w
  end.

(** Modelled from the spec: g_attrib_unref of gattrib.c.  When the count
    reaches zero the channel is closed and the destroy hook runs, which is
    [attrib_destroy] of client.c: it clears the slot of the service. *)
Definition g_attrib_unref (w : world) : world :=
  match gatt_attrib (gatt w) with
  | Some a =>
      match attrib_refs a with
      | S (S n) =>
          set_gatt (set_attrib (Some {| attrib_refs := S n;
                                        attrib_events := attrib_events a |})
                      (gatt w)) w
      | _ => set_gatt (set_attrib None (gatt w)) w
      end
  | None => w
  end.

(** Modelled from the spec: g_attrib_register for events_handler. *)
Definition g_attrib_register (opcode : Z) (w : world) : world :=
  match gatt_attrib (gatt w) with
  | Some a =>
      set_gatt (set_attrib (Some {| attrib_refs := attrib_refs a;
                                    attrib_events :=
                                      attrib_events a ++ [opcode] |})
                  (gatt w)) w
  | None => w
  end.

(** The number of references held on the transport; none when the slot
    is empty. *)
Definition transport_refs (w : world) : nat :=
  match gatt_attrib (gatt w) with
  | Some a => attrib_refs a
  | None => O
  end.

(** bt_io_set (io, ..., BT_IO_OPT_SEC_LEVEL, BT_IO_SEC_HIGH): the channel
    answers whether it took the new level. *)
Definition bt_io_set_sec_high (w : world) : bool * world :=
  let w1 := emit Ev_bt_io_set_sec_high w in
  if io_set_ok w then (true, set_sec_high true w1) else (false, w1).

(** g_timeout_add_seconds (GATT_TIMEOUT, stop_discovery_timeout, prim):
    a fresh, positive source identifier. *)
Definition g_timeout_add_seconds (pi : nat) (w : world) : Z * world :=
  let id := Z.max 1 (next_id w) in
  (id, set_next_id (id + 1) (emit (Ev_timeout_add id pi) w)).

(** ** Lookup *)

Definition characteristic_handle_cmp (chr : characteristic) (b : Z) : Z :=
  chr_handle chr - u16 b.

(** watcher_cmp: only whether the answer is 0 is used by the callers, so
    a non-zero answer of g_strcmp0 is modelled as 1. *)
Definition watcher_cmp (a b : watcher) : Z :=
  if String.eqb (watcher_name a) (watcher_name b)
  then (if String.eqb (watcher_path a) (watcher_path b) then 0 else 1)
  else 1.

(** g_slist_find_custom: the position of the first element the comparison
    function answers 0 for. *)
Fixpoint g_slist_find_custom {A B : Type} (l : list A) (data : B)
  (cmp : A -> B -> Z) : option nat :=
  match l with
  | [] => None
  | a :: t =>
      if cmp a data =? 0 then Some O
      else option_map S (g_slist_find_custom t data cmp)
  end.

Definition ENOMEM : Z := 12.

(** characteristic_set_value.  g_try_realloc answers NULL for a size of
    zero (glib frees the block), and the function takes every NULL as a
    failure: the pointer is then NULL and [vlen] keeps its old content.
    The buffer and its length are one list here. *)
Definition characteristic_set_value (chr : characteristic) (value : bytes)
  : characteristic * Z :=
  match value with
  | [] => (set_chr_value None (chr_vlen chr) chr, - ENOMEM)
  | _ => (set_chr_value (Some value) (Z.of_nat (List.length value)) chr, 0)
  end.

(** update_watchers: one ValueChanged call, no reply expected. *)
Definition update_watchers (wt : watcher) (chr : characteristic) (w : world)
  : world :=
  emit (Ev_dbus_send (Value_changed (watcher_name wt) (watcher_path wt)
                        (chr_path chr) (chr_value chr) (chr_vlen chr))) w.

(** The loop of events_handler over the primaries: the first primary that
    has a characteristic with the handle, and that characteristic. *)
Fixpoint find_characteristic (ps : list primary) (handle : Z) (pi : nat)
  : option (nat * nat) :=
  match ps with
  | [] => None
  | p :: t =>
      match g_slist_find_custom (chars p) handle characteristic_handle_cmp with
      | Some ci => Some (pi, ci)
      | None => find_characteristic t handle (S pi)
      end
  end.

(** Modelled from the spec: enc_confirmation of att.c writes the one-byte
    Handle Value Confirmation. *)
Definition enc_confirmation : bytes := [ATT_OP_HANDLE_CNF].

(** The two cases of the switch of events_handler that share their body. *)
Definition events_handler_notify (pi ci : nat) (p : primary)
  (chr : characteristic) (pdu : bytes) (w : world) : world :=
  let '(chr', _) := characteristic_set_value chr (skipn 3 pdu) in
  let w1 := put_chr pi ci chr' w in
  fold_left (fun acc wt => update_watchers wt chr' acc) (watchers p) w1.

(** events_handler; [pdu] is the buffer of [len] bytes. *)
Definition events_handler (pdu : bytes) (w : world) : world :=
  if Z.of_nat (List.length pdu) <? 3 then w
  else
    let handle := att_get_u16 (skipn 1 pdu) in
    match find_characteristic (gatt_primary (gatt w)) handle O with
    | None => w
    | Some (pi, ci) =>
        match get_prim w pi, get_chr w pi ci with
        | Some p, Some chr =>
            if nth 0 pdu 0 =? ATT_OP_HANDLE_IND then
              events_handler_notify pi ci p chr pdu
                (emit (Ev_att_send enc_confirmation) w)
            else if nth 0 pdu 0 =? ATT_OP_HANDLE_NOTIFY then
              events_handler_notify pi ci p chr pdu w
            else w
        | _, _ => w
        end
    end.

(** stop_discovery *)
Definition stop_discovery (pi : nat) (w : world) : world :=
  match get_prim w pi with
  | None => w
  | Some p =>
      let p1 := set_discovery_timer 0 p in
      match discovery_msg p1 with
      | None => put_prim pi p1 w
      | Some m =>
          let w1 :=
            emit (Ev_dbus_send
                    (Error_failed m
                       (Text "Discover characteristic values timed out")))
              (put_prim pi p1 w) in
          g_attrib_unref (put_prim pi (set_discovery_msg None p1) w1)
      end
  end.

(** stop_discovery_timeout: the watchdog; FALSE removes the source. *)
Definition stop_discovery_timeout (pi : nat) (w : world) : bool * world :=
  (false, stop_discovery pi w).

(** attrib_disconnect *)
Definition attrib_disconnect (w : world) : world :=
  g_attrib_unref
    (fold_left (fun acc pi => stop_discovery pi acc)
       (seq 0 (List.length (gatt_primary (gatt w)))) w).

(** l2cap_connect; the answer is whether it returned 0. *)
Definition l2cap_connect (listen : bool) (w : world) : bool * world :=
  match gatt_attrib (gatt w) with
  | Some _ =>
      let w1 := g_attrib_ref w in
      (true, set_gatt (set_listen listen (gatt w1)) w1)
  | None =>
      let w1 := emit Ev_bt_io_connect w in
      if connect_ok w then
        (true,
         set_gatt
           (set_listen listen
              (set_attrib (Some {| attrib_refs := 1; attrib_events := [] |})
                 (gatt w1))) w1)
      else (false, w1)
  end.

Definition create_discovery_reply (m : DBusMessage) (p : primary)
  : dbus_out :=
  Method_return m (map chr_path (chars p)).

Definition is_security_error (status : Z) : bool :=
  (status =? ATT_ECODE_INSUFF_ENC) || (status =? ATT_ECODE_AUTHENTICATION).

(** The part of update_char_value after the status has been looked at. *)
Definition update_char_value_done (status : Z) (current : query_data)
  (w : world) : world :=
  let pi := q_prim current in
  let ci := q_chr current in
  match get_prim w pi, get_chr w pi ci with
  | Some p, Some chr =>
      let w1 :=
        match discovery_msg p with
        | Some m =>
            let w2 :=
              if 0 <? discovery_timer p
              then emit (Ev_source_remove (discovery_timer p)) w
              else w in
            let p1 := set_discovery_timer 0 p in
            if q_last current then
              put_prim pi (set_discovery_msg None p1)
                (emit (Ev_dbus_send (create_discovery_reply m p1)) w2)
            else
              let '(id, w3) := g_timeout_add_seconds pi w2 in
              put_prim pi (set_discovery_timer id p1) w3
        | None =>
            match chr_msg chr with
            | Some m =>
                let reply :=
                  if status =? 0 then Method_return m []
                  else Error_failed m
                         (Text "Update characteristic value failed") in
                put_chr pi ci (set_chr_msg None chr)
                  (emit (Ev_dbus_send reply) w)
            | None => w
            end
        end in
      g_attrib_unref w1
  | _, _ => w
  end.

(** update_char_value; [pdu] is the buffer of [len] bytes. *)
Definition update_char_value (status : Z) (pdu : bytes)
  (current : query_data) (w : world) : world :=
  let pi := q_prim current in
  let ci := q_chr current in
  match get_chr w pi ci with
  | None => w
  | Some chr =>
      if status =? 0 then
        update_char_value_done status current
          (put_chr pi ci (fst (characteristic_set_value chr (tl pdu))) w)
      else if is_security_error status then
        let '(ok, w1) := bt_io_set_sec_high w in
        if ok then
          emit (Ev_att_request (Req_read_char (chr_handle chr))
                  CB_update_char_value current) w1
        else update_char_value_done status current w1
      else update_char_value_done status current w
  end.

(** g_new0 (struct query_data, 1) with the two pointers filled in. *)
Definition new_query (pi ci : nat) : query_data :=
  {| q_prim := pi; q_chr := ci; q_handle := 0; q_last := false;
     q_len := 0; q_value := [] |}.

(** register_watcher; the reply is returned to the bus library. *)
Definition register_watcher (msg : DBusMessage) (pi : nat) (w : world)
  : option dbus_out * world :=
  match msg_args msg with
  | Arg_object_path path :: _ =>
      let '(ok, w1) := l2cap_connect true w in
      if ok then
        let w2 :=
          g_attrib_register ATT_OP_HANDLE_IND
            (g_attrib_register ATT_OP_HANDLE_NOTIFY w1) in
        let id := Z.max 1 (next_id w2) in
        let wt := {| watcher_id := id; watcher_name := msg_sender msg;
                     watcher_path := path |} in
        let w3 :=
          set_next_id (id + 1)
            (emit (Ev_add_disconnect_watch id (msg_sender msg)) w2) in
        let w4 :=
          match get_prim w3 pi with
          | Some p => put_prim pi (set_watchers (watchers p ++ [wt]) p) w3
          | None => w3
          end in
        (Some (Method_return msg []), g_attrib_unref w4)
      else (Some (Error_failed msg Gerr_message), w1)
  | _ => (Some (Error_invalid_args msg), w)
  end.

(** g_slist_remove on the watcher list: watchers are told apart by the
    identifier of their disconnect watch, which stands for the pointer. *)
Fixpoint remove_watcher (ws : list watcher) (id : Z) : list watcher :=
  match ws with
  | [] => []
  | x :: t => if watcher_id x =? id then t else x :: remove_watcher t id
  end.

(** watcher_exit: the subscriber left the bus. *)
Definition watcher_exit (pi : nat) (wt : watcher) (w : world) : world :=
  match get_prim w pi with
  | Some p =>
      g_attrib_unref
        (put_prim pi (set_watchers (remove_watcher (watchers p)
                                      (watcher_id wt)) p) w)
  | None => w
  end.

(** unregister_watcher *)
Definition unregister_watcher (msg : DBusMessage) (pi : nat) (w : world)
  : option dbus_out * world :=
  match msg_args msg, get_prim w pi with
  | Arg_object_path path :: _, Some p =>
      let mtch := {| watcher_id := 0; watcher_name := msg_sender msg;
                     watcher_path := path |} in
      match g_slist_find_custom (watchers p) mtch watcher_cmp with
      | None => (Some (Error_not_authorized msg), w)
      | Some i =>
          match nth_error (watchers p) i with
          | Some wt =>
              (Some (Method_return msg []),
               put_prim pi
                 (set_watchers (remove_watcher (watchers p) (watcher_id wt))
                    p)
                 (emit (Ev_remove_watch (watcher_id wt)) w))
          | None => (Some (Error_not_authorized msg), w)
          end
      end
  | _, _ => (Some (Error_invalid_args msg), w)
  end.

(** The byte array inside the variant that follows the property name, as
    the response callbacks read it back from the stored message. *)
Definition msg_value (m : DBusMessage) : bytes :=
  match msg_args m with
  | _ :: Arg_variant_bytes v :: _ => v
  | _ => []
  end.

(** The request a write callback reissues: the handle of the
    characteristic and the [q_len] bytes kept in the query data. *)
Definition reissued_write (chr : characteristic) (current : query_data)
  : att_request :=
  Req_write_char (chr_handle chr)
    (firstn (Z.to_nat (q_len current)) (q_value current)).

(** gatt_write_char_resp.  With no stored message there is no reply to
    build: the success branch returns early, the last branch sends
    nothing. *)
Definition gatt_write_char_resp (status : Z) (current : query_data)
  (w : world) : world :=
  let pi := q_prim current in
  let ci := q_chr current in
  match get_chr w pi ci with
  | None => w
  | Some chr =>
      if status =? 0 then
        match chr_msg chr with
        | Some m =>
            let chr1 := fst (characteristic_set_value chr (msg_value m)) in
            g_attrib_unref
              (put_chr pi ci (set_chr_msg None chr1)
                 (emit (Ev_dbus_send (Method_return m [])) w))
        | None => w
        end
      else if is_security_error status then
        let '(ok, w1) := bt_io_set_sec_high w in
        if ok then
          emit (Ev_att_request (reissued_write chr current)
                  CB_gatt_write_char_resp current) w1
        else g_attrib_unref w1
      else
        match chr_msg chr with
        | Some m =>
            g_attrib_unref
              (put_chr pi ci (set_chr_msg None chr)
                 (emit (Ev_dbus_send (Error_invalid_args m)) w))
        | None => g_attrib_unref w
        end
  end.

Definition set_cli_conf_value (v : Z) (d : descriptor) : descriptor :=
  {| desc_name := desc_name d; desc_desc := desc_desc d;
     cli_conf_hndl := cli_conf_hndl d; cli_conf := v;
     desc_format := desc_format d |}.

Definition set_cli_conf_hndl (h : Z) (d : descriptor) : descriptor :=
  {| desc_name := desc_name d; desc_desc := desc_desc d;
     cli_conf_hndl := h; cli_conf := cli_conf d;
     desc_format := desc_format d |}.



(** characteristic_set_cli_conf: two bytes copied into the 16-bit field. *)
Definition characteristic_set_cli_conf (chr : characteristic)
  (value : bytes) : characteristic :=
  set_chr_desc (set_cli_conf_value (att_get_u16 value) (chr_desc chr)) chr.

(** gatt_write_cli_conf_resp *)
Definition gatt_write_cli_conf_resp (status : Z) (current : query_data)
  (w : world) : world :=
  let pi := q_prim current in
  let ci := q_chr current in
  match get_chr w pi ci with
  | None => w
  | Some chr =>
      if status =? 0 then
        match chr_msg chr with
        | Some m =>
            let chr1 := characteristic_set_cli_conf chr (msg_value m) in
            g_attrib_unref
              (put_chr pi ci (set_chr_msg None chr1)
                 (emit (Ev_dbus_send (Method_return m [])) w))
        | None => w
        end
      else if is_security_error status then
        let '(ok, w1) := bt_io_set_sec_high w in
        if ok then
          emit (Ev_att_request (reissued_write chr current)
                  CB_gatt_write_cli_conf_resp current) w1
        else g_attrib_unref w1
      else
        match chr_msg chr with
        | Some m =>
            g_attrib_unref
              (put_chr pi ci (set_chr_msg None chr)
                 (emit (Ev_dbus_send (Error_invalid_args m)) w))
        | None => g_attrib_unref w
        end
  end.

(** The common body of set_value and set_cli_conf: [target] picks the
    handle written to and [cb] the callback. *)
Definition set_bytes (target : characteristic -> Z) (cb : callback)
  (msg : DBusMessage) (sub : dbus_arg) (pi ci : nat) (w : world)
  : option dbus_out * world :=
  match sub, get_chr w pi ci with
  | Arg_variant_bytes value, Some chr =>
      let '(ok, w1) := l2cap_connect false w in
      if ok then
        let qvalue :=
          {| q_prim := pi; q_chr := ci; q_handle := 0; q_last := false;
             q_len := u16 (Z.of_nat (List.length value));
             q_value := value |} in
        (None,
         emit (Ev_att_request (Req_write_char (target chr) value) cb qvalue)
           (put_chr pi ci (set_chr_msg (Some msg) chr) w1))
      else (Some (Error_failed msg Gerr_message), w1)
  | _, _ => (Some (Error_invalid_args msg), w)
  end.

Definition set_value := set_bytes chr_handle CB_gatt_write_char_resp.

Definition set_cli_conf :=
  set_bytes (fun chr => cli_conf_hndl (chr_desc chr))
    CB_gatt_write_cli_conf_resp.

(** set_property *)
Definition set_property (msg : DBusMessage) (pi ci : nat) (w : world)
  : option dbus_out * world :=
  match msg_args msg with
  | Arg_string property :: sub :: _ =>
      match sub with
      | Arg_variant_bytes _ | Arg_variant_other =>
          if String.eqb "Value" property then set_value msg sub pi ci w
          else if String.eqb "ClientConfiguration" property
               then set_cli_conf msg sub pi ci w
               else (Some (Error_invalid_args msg), w)
      | _ => (Some (Error_invalid_args msg), w)
      end
  | _ => (Some (Error_invalid_args msg), w)
  end.

(** fetch_value (the UpdateValue method) *)
Definition fetch_value (msg : DBusMessage) (pi ci : nat) (w : world)
  : option dbus_out * world :=
  let '(ok, w1) := l2cap_connect false w in
  if ok then
    match get_chr w1 pi ci with
    | Some chr =>
        (None,
         emit (Ev_att_request (Req_read_char (chr_handle chr))
                 CB_update_char_value (new_query pi ci))
           (put_chr pi ci (set_chr_msg (Some msg) chr) w1))
    | None => (None, w1)
    end
  else (Some (Error_failed msg Gerr_message), w1).

(** ** The characteristic cache *)

Definition hash : ascii := "#"%char.
Definition space : ascii := " "%char.

(** snprintf (chr_str, 64, "%04X#%02X#%04X#%s ", ...): at most 63
    characters are kept. *)
Definition chr_str (chr : characteristic) : list ascii :=
  firstn 63
    (fmt_X 4 (chr_handle chr) ++ hash ::
     fmt_X 2 (chr_perm chr) ++ hash ::
     fmt_X 4 (chr_end chr) ++ hash ::
     list_ascii_of_string (chr_type chr) ++ [space]).

Definition characteristic_list_to_string (chars : list characteristic)
  : list ascii :=
  fold_left (fun characteristics chr => characteristics ++ chr_str chr)
    chars [].

(** What sscanf (s, "%04hX#%02hhX#%04hX#%s", &chr->handle, &chr->perm,
    &chr->end, chr->type) does with one piece.  [Matched] is the answer 4
    with the values stored; [Unmatched] stands for every smaller answer.
    "%s" has no width and chr->type has MAX_LEN_UUID_STR + 1 characters: a
    word of more than MAX_LEN_UUID_STR characters is written beyond the
    array, into chr->desc and what follows it.  The behaviour of the
    program is then undefined, which is [Overrun]. *)
Inductive scanned :=
| Matched (handle perm end_ : Z) (type : list ascii)
| Unmatched
| Overrun.

Definition sscanf_chr (lib : bare_prefix) (s : list ascii) : scanned :=
  match scan_hex lib 4 s with
  | None => Unmatched
  | Some (handle, s1) =>
  match scan_lit hash s1 with
  | None => Unmatched
  | Some s2 =>
  match scan_hex lib 2 s2 with
  | None => Unmatched
  | Some (perm, s3) =>
  match scan_lit hash s3 with
  | None => Unmatched
  | Some s4 =>
  match scan_hex lib 4 s4 with
  | None => Unmatched
  | Some (end_, s5) =>
  match scan_lit hash s5 with
  | None => Unmatched
  | Some s6 =>
  match scan_word s6 with
  | None => Unmatched
  | Some (type, _) =>
      if (List.length type <=? MAX_LEN_UUID_STR)%nat
      then Matched (u16 handle) (u8 perm) (u16 end_) type
      else Overrun
  end end end end end end end.

(** g_strdup_printf ("%s/characteristic%04x", prim->path, chr->handle) *)
Definition characteristic_path (prim_path : string) (handle : Z) : string :=
  prim_path ++ "/characteristic" ++ string_of_list_ascii (fmt_x 4 handle).

Definition empty_descriptor : descriptor :=
  {| desc_name := None; desc_desc := None; cli_conf_hndl := 0;
     cli_conf := 0; desc_format := None |}.

(** The characteristic string_to_characteristic_list allocates (g_new0)
    and fills from the fields sscanf stored. *)
Definition scanned_characteristic (prim_path : string)
  (r : Z * Z * Z * list ascii) : characteristic :=
  let '(handle, perm, end_, type) := r in
  {| chr_path := characteristic_path prim_path handle;
     chr_handle := handle; chr_end := end_; chr_perm := perm;
     chr_type := string_of_list_ascii type;
     chr_desc := empty_descriptor; chr_msg := None;
     chr_value := None; chr_vlen := 0 |}.

(** One turn of the loop of string_to_characteristic_list; [None] is
    the undefined behaviour after an overrun. *)
Definition scan_step (lib : bare_prefix) (prim_path : string)
  (l : option (list characteristic)) (tok : list ascii)
  : option (list characteristic) :=
  match l with
  | None => None
  | Some l =>
      match sscanf_chr lib tok with
      | Matched handle perm end_ type =>
          Some (l ++ [scanned_characteristic prim_path
                        (handle, perm, end_, type)])
      | Unmatched => Some l
      | Overrun => None
      end
  end.

(** string_to_characteristic_list; a NULL string is [None].  The answer
    [None] says that a piece overran chr->type: nothing is known of the
    program from there on. *)
Definition string_to_characteristic_list (lib : bare_prefix)
  (prim_path : string) (str : option (list ascii))
  : option (list characteristic) :=
  match str with
  | None => Some []
  | Some s =>
      fold_left (scan_step lib prim_path) (g_strsplit_space s) (Some [])
  end.

(** store_characteristics *)
Definition store_characteristics (p : primary) (w : world) : world :=
  emit (Ev_write_device_characteristics (gatt_sba (gatt w))
          (gatt_dba (gatt w)) (att_start (prim_att p))
          (characteristic_list_to_string (chars p))) w.

(** register_characteristics *)
Definition register_characteristics (p : primary) (w : world) : world :=
  fold_left (fun acc chr => emit (Ev_register_interface (chr_path chr)) acc)
    (chars p) w.

(** load_characteristics; [None] when string_to_characteristic_list
    overran. *)
Definition load_characteristics (lib : bare_prefix) (pi : nat) (w : world)
  : option world :=
  match get_prim w pi with
  | None => Some w
  | Some p =>
      match chars p with
      | _ :: _ => Some w
      | [] =>
          let start := att_start (prim_att p) in
          let w1 :=
            emit (Ev_read_device_characteristics (gatt_sba (gatt w))
                    (gatt_dba (gatt w)) start) w in
          match stored w (gatt_sba (gatt w)) (gatt_dba (gatt w)) start with
          | None => Some w1
          | Some str =>
              match string_to_characteristic_list lib (prim_path p)
                      (Some str) with
              | None => None
              | Some [] => Some w1
              | Some chrs_list =>
                  let p1 := set_chars chrs_list p in
                  Some (register_characteristics p1 (put_prim pi p1 w1))
              end
          end
      end
  end.

(** ** Discovery *)

(** update_all_chars: for every characteristic a Find Information request
    and a read of the value, each with a reference of its own; the read of
    the last characteristic is marked.  Then the watchdog is armed. *)
Fixpoint update_all_chars_loop (pi ci : nat) (l : list characteristic)
  (w : world) : world :=
  match l with
  | [] => w
  | chr :: t =>
      let w1 :=
        emit (Ev_att_request
                (Req_find_info (u16 (chr_handle chr + 1)) (chr_end chr))
                CB_descriptor (new_query pi ci))
          (g_attrib_ref w) in
      let qvalue :=
        {| q_prim := pi; q_chr := ci; q_handle := 0;
           q_last := match t with [] => true | _ => false end;
           q_len := 0; q_value := [] |} in
      let w2 :=
        emit (Ev_att_request (Req_read_char (chr_handle chr))
                CB_update_char_value qvalue)
          (g_attrib_ref w1) in
      update_all_chars_loop pi (S ci) t w2
  end.

Definition update_all_chars (pi : nat) (w : world) : world :=
  match get_prim w pi with
  | None => w
  | Some p =>
      let w1 := update_all_chars_loop pi O (chars p) w in
      let '(id, w2) := g_timeout_add_seconds pi w1 in
      match get_prim w2 pi with
      | Some p2 => put_prim pi (set_discovery_timer id p2) w2
      | None => w2
      end
  end.

(** strncpy (chr->type, current_chr->uuid, sizeof (chr->type)) *)
Definition strncpy_type (uuid : string) : string :=
  substring 0 (S MAX_LEN_UUID_STR) uuid.

(** The characteristic char_discovered_cb creates for a discovered entry;
    [end] is still zero. *)
Definition new_characteristic (prim_path : string) (current_chr : att_char)
  : characteristic :=
  {| chr_path :=
       characteristic_path prim_path (u16 (ac_value_handle current_chr));
     chr_handle := u16 (ac_value_handle current_chr);
     chr_end := 0;
     chr_perm := u8 (ac_properties current_chr);
     chr_type := strncpy_type (ac_uuid current_chr);
     chr_desc := empty_descriptor; chr_msg := None;
     chr_value := None; chr_vlen := 0 |}.

(** The store through previous_end of the value [v]; the pointer is the
    position [i] of the characteristic it points into, and nothing is
    stored when it is NULL. *)
Definition patch_end (previous_end : option nat) (v : Z)
  (cs : list characteristic) : list characteristic :=
  match previous_end with
  | None => cs
  | Some i =>
      match nth_error cs i with
      | Some c => list_set cs i (set_chr_end (u16 v) c)
      | None => cs
      end
  end.

(** One turn of the loop of char_discovered_cb over the discovered
    entries; the state is the list of the primary and previous_end. *)
Definition char_discovered_step (prim_path : string)
  (st : list characteristic * option nat) (current_chr : att_char)
  : list characteristic * option nat :=
  let '(cs, previous_end) := st in
  match g_slist_find_custom cs (ac_value_handle current_chr)
          characteristic_handle_cmp with
  | Some _ => st
  | None =>
      let cs1 := patch_end previous_end (ac_handle current_chr) cs in
      (cs1 ++ [new_characteristic prim_path current_chr],
       Some (List.length cs1))
  end.

(** The characteristic list of the primary after the loop and the final
    store through previous_end. *)
Definition discovered_chars (p : primary) (characteristics : list att_char)
  : list characteristic :=
  let '(cs, previous_end) :=
    fold_left (char_discovered_step (prim_path p)) characteristics
      (chars p, None) in
  patch_end previous_end (att_end (prim_att p)) cs.

(** char_discovered_cb *)
Definition char_discovered_cb (characteristics : list att_char)
  (status : Z) (current : query_data) (w : world) : world :=
  let pi := q_prim current in
  match get_prim w pi with
  | None => w
  | Some p =>
      if negb (status =? 0) then
        g_attrib_unref
          (match discovery_msg p with
           | Some m =>
               emit (Ev_dbus_send (Error_failed m (Att_ecode_str status))) w
           | None => w
           end)
      else
        let p1 := set_chars (discovered_chars p characteristics) p in
        update_all_chars pi
          (register_characteristics p1
             (store_characteristics p1 (put_prim pi p1 w)))
  end.

(** discover_char (the DiscoverCharacteristics method) *)
Definition discover_char (msg : DBusMessage) (pi : nat) (w : world)
  : option dbus_out * world :=
  match get_prim w pi with
  | None => (None, w)
  | Some p =>
      match discovery_msg p with
      | Some _ =>
          (Some (Error_failed msg (Text "Discovery already in progress")), w)
      | None =>
          let '(ok, w1) := l2cap_connect true w in
          if ok then
            (None,
             emit (Ev_att_request
                     (Req_discover_char (att_start (prim_att p))
                        (att_end (prim_att p)))
                     CB_char_discovered (new_query pi O))
               (put_prim pi (set_discovery_msg (Some msg) p) w1))
          else (Some (Error_failed msg Gerr_message), w1)
      end
  end.

(** Modelled from the spec: the descriptor UUIDs of gatt.h. *)
Definition GATT_CHARAC_USER_DESC_UUID : Z := 0x2901.
Definition GATT_CLIENT_CHARAC_CFG_UUID : Z := 0x2902.
Definition GATT_CHARAC_FMT_UUID : Z := 0x2904.





(** Pieces of [n] bytes, as many as are complete. *)
Fixpoint chunks (fuel n : nat) (l : bytes) : list bytes :=
  match fuel with
  | O => []
  | S f =>
      if (n <=? List.length l)%nat
      then firstn n l :: chunks f n (skipn n l)
      else []
  end.

(** Modelled from the spec: dec_find_info_resp of att.c.  A Find
    Information Response (0x05) carries a format byte and then entries of
    a 16-bit handle and a UUID of 2 bytes (format 0x01) or 16 bytes
    (format 0x02). *)
Definition dec_find_info_resp (pdu : bytes) : option (Z * list bytes) :=
  match pdu with
  | op :: format :: rest =>
      if op =? 0x05 then
        let elen := if format =? 1 then 4%nat
                    else if format =? 2 then 18%nat else 2%nat in
        Some (format, chunks (List.length rest) elen rest)
      else None
  | _ => None
  end.

(** One turn of the loop of descriptor_cb over the entries. *)
Definition descriptor_step (format : Z) (current : query_data) (w : world)
  (info : bytes) : world :=
  let handle := att_get_u16 info in
  if format =? 1 then
    let uuid := att_get_u16 (skipn 2 info) in
    let qfmt :=
      {| q_prim := q_prim current; q_chr := q_chr current;
         q_handle := handle; q_last := false; q_len := 0; q_value := [] |} in
    if uuid =? GATT_CLIENT_CHARAC_CFG_UUID then
      let w1 := g_attrib_ref w in
      let w2 :=
        match get_chr w1 (q_prim current) (q_chr current) with
        | Some chr =>
            put_chr (q_prim current) (q_chr current)
              (set_chr_desc (set_cli_conf_hndl handle (chr_desc chr)) chr) w1
        | None => w1
        end in
      emit (Ev_att_request (Req_read_char handle) CB_update_char_cli_conf
              qfmt) w2
    else if uuid =? GATT_CHARAC_USER_DESC_UUID then
      emit (Ev_att_request (Req_read_char handle) CB_update_char_desc qfmt)
        (g_attrib_ref w)
    else if uuid =? GATT_CHARAC_FMT_UUID then
      emit (Ev_att_request (Req_read_char handle) CB_update_char_format qfmt)
        (g_attrib_ref w)
    else w
  else w.

(** descriptor_cb *)
Definition descriptor_cb (status : Z) (pdu : bytes) (current : query_data)
  (w : world) : world :=
  if negb (status =? 0) then g_attrib_unref w
  else
    match dec_find_info_resp pdu with
    | None => g_attrib_unref w
    | Some (format, list) =>
        g_attrib_unref (fold_left (descriptor_step format current) list w)
    end.

(** disconnect_service (the Disconnect method) *)
Definition disconnect_service (msg : DBusMessage) (pi : nat) (w : world)
  : option dbus_out * world :=
  (Some (Method_return msg []), g_attrib_unref (stop_discovery pi w)).

(** ** Notions used in the statements *)

Definition no_space (s : list ascii) : bool :=
  forallb (fun c => negb (isspace c)) s.

(** The fields of a characteristic the cache keeps. *)
Definition cache_fields (c : characteristic) : Z * Z * Z * string :=
  (chr_handle c, chr_perm c, chr_end c, chr_type c).

(** The fields fit their C types and the type is a UUID string: not empty,
    no white space, at most MAX_LEN_UUID_STR characters. *)
Definition well_formed (c : characteristic) : bool :=
  (0 <=? chr_handle c) && (chr_handle c <? 65536) &&
  (0 <=? chr_perm c) && (chr_perm c <? 256) &&
  (0 <=? chr_end c) && (chr_end c <? 65536) &&
  (1 <=? String.length (chr_type c))%nat &&
  (String.length (chr_type c) <=? MAX_LEN_UUID_STR)%nat &&
  no_space (list_ascii_of_string (chr_type c)).

(** What snprintf prints before the final space. *)
Definition chr_token (chr : characteristic) : list ascii :=
  fmt_X 4 (chr_handle chr) ++ hash ::
  fmt_X 2 (chr_perm chr) ++ hash ::
  fmt_X 4 (chr_end chr) ++ hash :: list_ascii_of_string (chr_type chr).

(** The characteristics one piece of the stored string gives. *)
Definition scan_piece (lib : bare_prefix) (prim_path : string)
  (tok : list ascii) : list characteristic :=
  match sscanf_chr lib tok with
  | Matched handle perm end_ type =>
      [scanned_characteristic prim_path (handle, perm, end_, type)]
  | _ => []
  end.

Definition no_hash (s : list ascii) : bool :=
  forallb (fun c => negb (Ascii.eqb c hash)) s.

(** The text after the [n]-th '#' of a piece, if it has that many. *)
Fixpoint after_hashes (n : nat) (s : list ascii) : option (list ascii) :=
  match n with
  | O => Some s
  | S m =>
      match s with
      | [] => None
      | c :: r => if Ascii.eqb c hash then after_hashes m r
                  else after_hashes n r
      end
  end.

(** A piece whose text after the third '#', if there is one, has room in
    chr->type. *)
Definition type_fits (tok : list ascii) : bool :=
  match after_hashes 3 tok with
  | Some t => (List.length t <=? MAX_LEN_UUID_STR)%nat
  | None => true
  end.


(** The discovered entries for which char_discovered_cb creates a
    characteristic: those whose value handle is not among the handles
    [seen] so far (the handles of the primary and of the entries created
    before). *)
Fixpoint created_entries (seen : list Z) (l : list att_char)
  : list att_char :=
  match l with
  | [] => []
  | e :: t =>
      if existsb (fun h => h =? u16 (ac_value_handle e)) seen
      then created_entries seen t
      else e :: created_entries (seen ++ [u16 (ac_value_handle e)]) t
  end.

(** The characteristics created for the entries [es], with the end handles
    the code leaves in them. *)
Fixpoint created_chars (p : primary) (es : list att_char)
  : list characteristic :=
  match es with
  | [] => []
  | e :: t =>
      set_chr_end
        (match t with
         | [] => u16 (att_end (prim_att p))
         | e' :: _ => u16 (ac_handle e')
         end) (new_characteristic (prim_path p) e)
      :: created_chars p t
  end.

(** The characteristics char_discovered_cb added to the primary. *)
Definition newly_created (p : primary) (l : list att_char)
  : list characteristic :=
  skipn (List.length (chars p)) (discovered_chars p l).

(** The rule for the end handles of the newly created characteristics:
    each one but the last ends [delta] below the declaration handle of the
    entry that created the next one, and the last ends at the end of the
    primary. *)
Definition end_handle_rule (delta : Z) (p : primary) (l : list att_char)
  : Prop :=
  let es := created_entries (map chr_handle (chars p)) l in
  List.length (newly_created p l) = List.length es /\
  forall i e,
    nth_error es i = Some e ->
    exists c,
      nth_error (newly_created p l) i = Some c /\
      chr_handle c = u16 (ac_value_handle e) /\
      chr_end c =
        match nth_error es (S i) with
        | Some e' => u16 (ac_handle e' - delta)
        | None => u16 (att_end (prim_att p))
        end.

(** A value handle is known when some characteristic of some primary of
    the service has it. *)
Definition handle_known (w : world) (h : Z) : Prop :=
  exists p c,
    In p (gatt_primary (gatt w)) /\ In c (chars p) /\ chr_handle c = h.

(** The handle a notification or indication PDU carries. *)
Definition pdu_handle (pdu : bytes) : Z := att_get_u16 (skipn 1 pdu).

(** The ValueChanged call a watcher gets for a characteristic. *)
Definition value_changed (chr : characteristic) (wt : watcher) : event :=
  Ev_dbus_send (Value_changed (watcher_name wt) (watcher_path wt)
                  (chr_path chr) (chr_value chr) (chr_vlen chr)).


Definition is_reply (e : event) : bool :=
  match e with
  | Ev_dbus_send _ => true
  | _ => false
  end.

Definition is_read_request (handle : Z) (e : event) : bool :=
  match e with
  | Ev_att_request (Req_read_char h) _ _ => h =? handle
  | _ => false
  end.

(** All watchers of the service. *)
Definition live_watchers (w : world) : nat :=
  list_sum (map (fun p => List.length (watchers p)) (gatt_primary (gatt w))).

Definition entry_handle (e : att_char) : Z := u16 (ac_value_handle e).

(** ** Sample objects and runs *)

Definition sample_att : att_primary :=
  {| att_uuid := "1800"; att_start := 0x10; att_end := 0x15 |}.

Definition sample_primary : primary :=
  {| prim_att := sample_att; discovery_msg := None; discovery_timer := 0;
     prim_path := "/dev/service0010"; chars := []; watchers := [] |}.

Definition sample_gatt : gatt_service :=
  {| gatt_sba := "00:11:22:33:44:55"; gatt_dba := "66:77:88:99:AA:BB";
     gatt_path := "/dev"; gatt_primary := [sample_primary];
     gatt_attrib := None; gatt_msg := None; gatt_psm := -1;
     gatt_listen := false |}.

(** A service with one primary and no transport yet; the channel accepts
    connections and security changes, the storage is empty. *)
Definition sample_world : world :=
  {| gatt := sample_gatt; sec_high := false; io_set_ok := true;
     connect_ok := true; stored := fun _ _ _ => None; next_id := 1;
     trace := [] |}.

Definition entry_2A00 : att_char :=
  {| ac_uuid := "2A00"; ac_handle := 0x11; ac_properties := 0x0A;
     ac_value_handle := 0x12 |}.

Definition entry_2A01 : att_char :=
  {| ac_uuid := "2A01"; ac_handle := 0x13; ac_properties := 0x02;
     ac_value_handle := 0x14 |}.

Definition sample_chr : characteristic :=
  {| chr_path := "/dev/service0010/characteristic0012";
     chr_handle := 0x12; chr_end := 0x15; chr_perm := 0x0A;
     chr_type := "2A00"; chr_desc := empty_descriptor; chr_msg := None;
     chr_value := Some [0x41; 0x42]; chr_vlen := 2 |}.

Definition sample_watcher : watcher :=
  {| watcher_id := 1; watcher_name := ":1.7"; watcher_path := "/watcher" |}.

(** The sample service after discovery, with one watcher and a live
    transport that delivers notifications and indications. *)
Definition sample_listening : world :=
  {| gatt :=
       {| gatt_sba := "00:11:22:33:44:55"; gatt_dba := "66:77:88:99:AA:BB";
          gatt_path := "/dev";
          gatt_primary :=
            [ {| prim_att := sample_att; discovery_msg := None;
                 discovery_timer := 0; prim_path := "/dev/service0010";
                 chars := [sample_chr]; watchers := [sample_watcher] |} ];
          gatt_attrib :=
            Some {| attrib_refs := 1;
                    attrib_events :=
                      [ATT_OP_HANDLE_NOTIFY; ATT_OP_HANDLE_IND] |};
          gatt_msg := None; gatt_psm := -1; gatt_listen := true |};
     sec_high := false; io_set_ok := true; connect_ok := true;
     stored := fun _ _ _ => None; next_id := 2; trace := [] |}.

Definition update_value_msg : DBusMessage :=
  {| msg_sender := ":1.5"; msg_member := "UpdateValue"; msg_args := [] |}.

Definition discover_msg : DBusMessage :=
  {| msg_sender := ":1.5"; msg_member := "DiscoverCharacteristics";
     msg_args := [] |}.

Definition register_msg : DBusMessage :=
  {| msg_sender := ":1.7"; msg_member := "RegisterCharacteristicsWatcher";
     msg_args := [Arg_object_path "/watcher"] |}.

(** The sample service when the storage holds [s] under every key. *)
Definition sample_storing (s : string) : world :=
  {| gatt := sample_gatt; sec_high := false; io_set_ok := true;
     connect_ok := true;
     stored := fun _ _ _ => Some (list_ascii_of_string s);
     next_id := 1; trace := [] |}.

(** The fields of the characteristics of primary [pi], if the world is
    there. *)
Definition cached_fields (w : option world) (pi : nat)
  : option (option (list (Z * Z * Z * string))) :=
  option_map
    (fun w' =>
       option_map (fun p => map cache_fields (chars p)) (get_prim w' pi)) w.

(** UpdateValue on the sample characteristic, then the answer
    "insufficient authentication" twice. *)
Definition read_issued : world :=
  snd (fetch_value update_value_msg 0 0 sample_listening).
Definition read_failed_once : world :=
  update_char_value ATT_ECODE_AUTHENTICATION [] (new_query 0 0) read_issued.

(** RegisterCharacteristicsWatcher on the service that has no transport
    yet. *)
Definition watcher_registered : world :=
  snd (register_watcher register_msg 0 sample_world).

(** A discovery that runs to its end: the request, one discovered
    characteristic, the Find Information request answered "attribute not
    found" (0x0A), and the value read answered 0B 41 42. *)
Definition discovery_started : world :=
  snd (discover_char discover_msg 0 sample_world).
Definition discovery_listed : world :=
  char_discovered_cb [entry_2A00] 0 (new_query 0 0) discovery_started.
Definition discovery_described : world :=
  descriptor_cb 0x0A [] (new_query 0 0) discovery_listed.
Definition discovery_finished : world :=
  update_char_value 0 [0x0B; 0x41; 0x42]
    {| q_prim := 0; q_chr := 0; q_handle := 0; q_last := true; q_len := 0;
       q_value := [] |} discovery_described.

(** A discovery whose list of characteristics is empty. *)
Definition discovery_empty : world :=
  char_discovered_cb [] 0 (new_query 0 0) discovery_started.


(** ** Registration of a service *)

(** g_strdup_printf ("%s/service%04x", gatt->path, att->start) *)
Definition service_path (gatt_path : string) (start : Z) : string :=
  gatt_path ++ "/service" ++ string_of_list_ascii (fmt_x 4 (u16 start)).

(** g_new0 (struct primary, 1) with att, gatt and path filled in. *)
Definition new_primary (gatt_path : string) (att : att_primary) : primary :=
  {| prim_att := att; discovery_msg := None; discovery_timer := 0;
     prim_path := service_path gatt_path (att_start att);
     chars := []; watchers := [] |}.

(** One turn of the loop of register_primaries: the state is the list of
    paths and the world; [None] when load_characteristics overran. *)
Definition register_primaries_step (lib : bare_prefix)
  (st : option (list string * world)) (att : att_primary)
  : option (list string * world) :=
  match st with
  | None => None
  | Some (paths, w) =>
      let prim := new_primary (gatt_path (gatt w)) att in
      let w1 := emit (Ev_register_interface (prim_path prim)) w in
      let pi := List.length (gatt_primary (gatt w1)) in
      let w2 :=
        set_gatt (set_primary (gatt_primary (gatt w1) ++ [prim]) (gatt w1))
          w1 in
      match load_characteristics lib pi w2 with
      | Some w3 => Some (paths ++ [prim_path prim], w3)
      | None => None
      end
  end.

(** register_primaries *)
Definition register_primaries (lib : bare_prefix)
  (primaries : list att_primary) (w : world)
  : option (list string * world) :=
  fold_left (register_primaries_step lib) primaries (Some ([], w)).

(** attrib_client_register for the one service of the model: the
    service is allocated with the addresses, the path and the PSM of the
    device, holds a reference on the transport it was given, if any, and
    its primaries are registered.  [env] gives the surroundings. *)
Definition attrib_client_register (lib : bare_prefix)
  (sba dba path : string) (psm : Z) (attrib : option GAttrib)
  (primaries : list att_primary) (env : world)
  : option (list string * world) :=
  let g :=
    {| gatt_sba := sba; gatt_dba := dba; gatt_path := path;
       gatt_primary := []; gatt_attrib := attrib; gatt_msg := None;
       gatt_psm := psm; gatt_listen := false |} in
  register_primaries lib primaries (g_attrib_ref (set_gatt g env)).

(** attrib_client_disconnect when the device has its service registered. *)
Definition attrib_client_disconnect (w : world) : world :=
  attrib_disconnect w.

(** ** More notions used in the statements *)

Definition is_confirmation (e : event) : bool :=
  match e with
  | Ev_att_send _ => true
  | _ => false
  end.

Definition is_value_changed (e : event) : bool :=
  match e with
  | Ev_dbus_send (Value_changed _ _ _ _ _) => true
  | _ => false
  end.

Definition is_att_request (e : event) : bool :=
  match e with
  | Ev_att_request _ _ _ => true
  | _ => false
  end.

(** A request of the discovery that carries the mark of the last read. *)
Definition is_last_request (e : event) : bool :=
  match e with
  | Ev_att_request _ _ q => q_last q
  | _ => false
  end.

(** Two watchers are the same subscription when watcher_cmp answers 0. *)
Definition same_subscription (a b : watcher) : bool :=
  watcher_cmp a b =? 0.

(** What stop_discovery leaves of a primary. *)
Definition stopped (p : primary) : primary :=
  set_discovery_msg None (set_discovery_timer 0 p).

(** The failure stop_discovery sends for a primary, if its discovery is
    pending. *)
Definition timeout_reply (p : primary) : list event :=
  match discovery_msg p with
  | Some m =>
      [Ev_dbus_send
         (Error_failed m (Text "Discover characteristic values timed out"))]
  | None => []
  end.

Definition pending_discoveries (ps : list primary) : nat :=
  List.length (flat_map timeout_reply ps).

(** The stored string of a primary, in pieces. *)
Definition stored_pieces (w : world) (p : primary) : list (list ascii) :=
  match stored w (gatt_sba (gatt w)) (gatt_dba (gatt w))
          (att_start (prim_att p)) with
  | Some s => g_strsplit_space s
  | None => []
  end.

(** The primary load_characteristics leaves when it found the list of
    characteristics empty: the characteristics are the ones scanned from
    the pieces of the stored string. *)
Definition loaded (lib : bare_prefix) (w : world) (p : primary) : primary :=
  set_chars (flat_map (scan_piece lib (prim_path p)) (stored_pieces w p)) p.

(** A descriptor entry of a Find Information Response that descriptor_cb
    reads: format 0x01 and one of the three UUIDs it knows. *)
Definition read_descriptor (format : Z) (info : bytes) : bool :=
  (format =? 1) &&
  ((att_get_u16 (skipn 2 info) =? GATT_CLIENT_CHARAC_CFG_UUID) ||
   (att_get_u16 (skipn 2 info) =? GATT_CHARAC_USER_DESC_UUID) ||
   (att_get_u16 (skipn 2 info) =? GATT_CHARAC_FMT_UUID)).

(** The query data set_value and set_cli_conf allocate for [value]. *)
Definition write_query (pi ci : nat) (value : bytes) : query_data :=
  {| q_prim := pi; q_chr := ci; q_handle := 0; q_last := false;
     q_len := u16 (Z.of_nat (List.length value)); q_value := value |}.

(** The requests update_all_chars puts on the transport for the
    characteristics [l], the first of which has position [ci]. *)
Fixpoint discovery_requests (pi ci : nat) (l : list characteristic)
  : list event :=
  match l with
  | [] => []
  | chr :: t =>
      Ev_att_request
        (Req_find_info (u16 (chr_handle chr + 1)) (chr_end chr))
        CB_descriptor (new_query pi ci)
      :: Ev_att_request (Req_read_char (chr_handle chr))
           CB_update_char_value
           {| q_prim := pi; q_chr := ci; q_handle := 0;
              q_last := match t with [] => true | _ => false end;
              q_len := 0; q_value := [] |}
      :: discovery_requests pi (S ci) t
  end.

(** The handle a read request asks for. *)
Definition read_handle (e : event) : Z :=
  match e with
  | Ev_att_request (Req_read_char h) _ _ => h
  | _ => 0
  end.

(** A discovered entry whose uuid is a UUID string: not empty, no white
    space, at most MAX_LEN_UUID_STR characters. *)
Definition uuid_string (e : att_char) : bool :=
  (1 <=? String.length (ac_uuid e))%nat &&
  (String.length (ac_uuid e) <=? MAX_LEN_UUID_STR)%nat &&
  no_space (list_ascii_of_string (ac_uuid e)).

(** * Properties *)

Lemma u16_range n : 0 <= u16 n < 65536.
Proof. unfold u16. apply Z.mod_pos_bound. lia. Qed.

Lemma u8_range n : 0 <= u8 n < 256.
Proof. unfold u8. apply Z.mod_pos_bound. lia. Qed.

Lemma u16_small n : 0 <= n < 65536 -> u16 n = n.
Proof. intros H. unfold u16. apply Z.mod_small. exact H. Qed.

Lemma u8_small n : 0 <= n < 256 -> u8 n = n.
Proof. intros H. unfold u8. apply Z.mod_small. exact H. Qed.

(** ** Hexadecimal digits *)

Lemma hexdigit_facts d :
  0 <= d < 16 ->
  hexval (hexdigit d) = Some d /\ isspace (hexdigit d) = false /\
  is_sign (hexdigit d) = false /\ is_x (hexdigit d) = false.
Proof.
  intros H.
  assert (E : d = 0 \/ d = 1 \/ d = 2 \/ d = 3 \/ d = 4 \/ d = 5 \/ d = 6 \/
              d = 7 \/ d = 8 \/ d = 9 \/ d = 10 \/ d = 11 \/ d = 12 \/
              d = 13 \/ d = 14 \/ d = 15) by lia.
  repeat (destruct E as [E | E]; [subst d; repeat split; reflexivity |]).
  subst d; repeat split; reflexivity.
Qed.

Ltac divmod := Z.to_euclidean_division_equations; lia.

(** A property of every element of a list that is given by a closed
    term: the list is computed first. *)
Ltac forall_computed :=
  match goal with
  | |- Forall _ ?l =>
      let l' := eval vm_compute in l in
      replace l with l' by (vm_compute; reflexivity);
      repeat constructor
  end.

Lemma fmt_X_4 n :
  0 <= n < 65536 ->
  fmt_X 4 n = [hexdigit (n / 4096); hexdigit (n / 256 mod 16);
               hexdigit (n / 16 mod 16); hexdigit (n mod 16)].
Proof.
  intros H. unfold fmt_X, fmt_hex. cbn [hex_digits].
  replace (n / 16 / 16) with (n / 256) by divmod.
  replace (n / 256 / 16) with (n / 4096) by divmod.
  destruct (Z.ltb_spec n 16) as [H1 | H1].
  { replace (n / 4096) with 0 by divmod.
    replace (n / 256 mod 16) with 0 by divmod.
    replace (n / 16 mod 16) with 0 by divmod.
    replace (n mod 16) with n by divmod. reflexivity. }
  destruct (Z.ltb_spec (n / 16) 16) as [H2 | H2].
  { replace (n / 4096) with 0 by divmod.
    replace (n / 256 mod 16) with 0 by divmod.
    replace (n / 16 mod 16) with (n / 16) by divmod. reflexivity. }
  destruct (Z.ltb_spec (n / 256) 16) as [H3 | H3].
  { replace (n / 4096) with 0 by divmod.
    replace (n / 256 mod 16) with (n / 256) by divmod. reflexivity. }
  destruct (Z.ltb_spec (n / 4096) 16) as [H4 | H4]; [reflexivity | divmod].
Qed.

Lemma fmt_X_2 n :
  0 <= n < 256 -> fmt_X 2 n = [hexdigit (n / 16); hexdigit (n mod 16)].
Proof.
  intros H. unfold fmt_X, fmt_hex. cbn [hex_digits].
  destruct (Z.ltb_spec n 16) as [H1 | H1].
  { replace (n / 16) with 0 by divmod.
    replace (n mod 16) with n by divmod. reflexivity. }
  destruct (Z.ltb_spec (n / 16) 16) as [H2 | H2]; [reflexivity | divmod].
Qed.

(** Scanning what "%04X" printed gives the number back, whatever
    follows. *)
Lemma scan_hex_fmt_4 lib n rest :
  0 <= n < 65536 -> scan_hex lib 4 (fmt_X 4 n ++ rest) = Some (n, rest).
Proof.
  intros H. rewrite fmt_X_4 by exact H.
  destruct (hexdigit_facts (n / 4096)) as (V3 & S3 & G3 & _); [divmod |].
  destruct (hexdigit_facts (n / 256 mod 16)) as (V2 & _ & _ & X2); [divmod |].
  destruct (hexdigit_facts (n / 16 mod 16)) as (V1 & _); [divmod |].
  destruct (hexdigit_facts (n mod 16)) as (V0 & _); [divmod |].
  unfold scan_hex. cbn [app skip_ws]. rewrite S3, G3. cbn [andb].
  rewrite X2, andb_false_r. cbn [andb take_hex].
  rewrite V3, V2, V1, V0.
  destruct rest; cbn [take_hex hex_value fold_left]; f_equal; f_equal; divmod.
Qed.

(** The same for "%02X" when the next character is not a digit. *)
Lemma scan_hex_fmt_2 lib n rest :
  0 <= n < 256 ->
  scan_hex lib 2 (fmt_X 2 n ++ hash :: rest) = Some (n, hash :: rest).
Proof.
  intros H. rewrite fmt_X_2 by exact H.
  destruct (hexdigit_facts (n / 16)) as (V1 & S1 & G1 & _); [divmod |].
  destruct (hexdigit_facts (n mod 16)) as (V0 & _ & _ & X0); [divmod |].
  unfold scan_hex. cbn [app skip_ws]. rewrite S1, G1. cbn [andb].
  rewrite X0, andb_false_r. cbn [andb take_hex].
  rewrite V1, V0. cbn [take_hex hex_value fold_left]. f_equal; f_equal; divmod.
Qed.

(** ** Words and pieces *)

Lemma take_nonspace_all t :
  no_space t = true -> take_nonspace t = (t, []).
Proof.
  induction t as [| c t IH]; cbn; [reflexivity |].
  intros H. apply andb_true_iff in H. destruct H as [Hc Ht].
  apply negb_true_iff in Hc. rewrite Hc, (IH Ht). reflexivity.
Qed.

Lemma scan_word_all t :
  t <> [] -> no_space t = true -> scan_word t = Some (t, []).
Proof.
  intros Hne Hs. unfold scan_word.
  destruct t as [| c t]; [congruence |].
  cbn in Hs. apply andb_true_iff in Hs. destruct Hs as [Hc Ht].
  apply negb_true_iff in Hc. cbn [skip_ws]. rewrite Hc.
  cbn [take_nonspace]. rewrite Hc, (take_nonspace_all t Ht). reflexivity.
Qed.

Lemma isspace_space : isspace space = true.
Proof. reflexivity. Qed.

Lemma not_space_neq c : isspace c = false -> Ascii.eqb c space = false.
Proof.
  intros H. destruct (Ascii.eqb_spec c space) as [E | E]; [| reflexivity].
  subst c. rewrite isspace_space in H. discriminate.
Qed.

(** A piece without a space, followed by a space, is split off whole. *)
Lemma split_space_piece tok rest :
  no_space tok = true ->
  split_space (tok ++ space :: rest) = tok :: split_space rest.
Proof.
  induction tok as [| c tok IH]; intros H.
  - reflexivity.
  - cbn in H. apply andb_true_iff in H. destruct H as [Hc Ht].
    apply negb_true_iff in Hc. cbn [app split_space].
    pose proof (not_space_neq c Hc) as E. unfold space in E.
    rewrite E, (IH Ht). reflexivity.
Qed.

(** ** Printing and scanning one characteristic *)

Lemma well_formed_inv c :
  well_formed c = true ->
  0 <= chr_handle c < 65536 /\ 0 <= chr_perm c < 256 /\
  0 <= chr_end c < 65536 /\
  (1 <= String.length (chr_type c) <= MAX_LEN_UUID_STR)%nat /\
  no_space (list_ascii_of_string (chr_type c)) = true.
Proof.
  unfold well_formed. intros H. rewrite !andb_true_iff in H.
  destruct H as ((((((((H1 & H2) & H3) & H4) & H5) & H6) & H7) & H8) & H9).
  apply Z.leb_le in H1, H3, H5. apply Z.ltb_lt in H2, H4, H6.
  apply Nat.leb_le in H7, H8. repeat split; assumption.
Qed.

Lemma length_list_ascii_of_string s :
  List.length (list_ascii_of_string s) = String.length s.
Proof. induction s as [| c s IH]; cbn; [reflexivity | now rewrite IH]. Qed.

Lemma fmt_X_4_length n : 0 <= n < 65536 -> List.length (fmt_X 4 n) = 4%nat.
Proof. intros H. rewrite fmt_X_4 by exact H. reflexivity. Qed.

Lemma fmt_X_2_length n : 0 <= n < 256 -> List.length (fmt_X 2 n) = 2%nat.
Proof. intros H. rewrite fmt_X_2 by exact H. reflexivity. Qed.

(** The buffer of 64 characters is large enough for a well-formed
    characteristic: nothing is cut. *)
Lemma chr_str_token c :
  well_formed c = true -> chr_str c = chr_token c ++ [space].
Proof.
  intros H. destruct (well_formed_inv c H) as (Hh & Hp & He & Hl & _).
  unfold chr_str, chr_token.
  repeat (rewrite <- app_assoc; cbn [app]).
  apply firstn_all2.
  repeat (rewrite length_app; cbn [List.length]).
  rewrite !fmt_X_4_length, fmt_X_2_length, length_list_ascii_of_string
    by assumption.
  unfold MAX_LEN_UUID_STR in Hl. lia.
Qed.

Lemma no_space_fmt_X_4 n : 0 <= n < 65536 -> no_space (fmt_X 4 n) = true.
Proof.
  intros H. rewrite fmt_X_4 by exact H. unfold no_space. cbn [forallb].
  destruct (hexdigit_facts (n / 4096)) as (_ & -> & _); [divmod |].
  destruct (hexdigit_facts (n / 256 mod 16)) as (_ & -> & _); [divmod |].
  destruct (hexdigit_facts (n / 16 mod 16)) as (_ & -> & _); [divmod |].
  destruct (hexdigit_facts (n mod 16)) as (_ & -> & _); [divmod |].
  reflexivity.
Qed.

Lemma no_space_fmt_X_2 n : 0 <= n < 256 -> no_space (fmt_X 2 n) = true.
Proof.
  intros H. rewrite fmt_X_2 by exact H. unfold no_space. cbn [forallb].
  destruct (hexdigit_facts (n / 16)) as (_ & -> & _); [divmod |].
  destruct (hexdigit_facts (n mod 16)) as (_ & -> & _); [divmod |].
  reflexivity.
Qed.

Lemma no_space_app a b :
  no_space (a ++ b) = no_space a && no_space b.
Proof. unfold no_space. apply forallb_app. Qed.

Lemma no_space_token c : well_formed c = true -> no_space (chr_token c) = true.
Proof.
  intros H. destruct (well_formed_inv c H) as (Hh & Hp & He & _ & Hs).
  unfold chr_token.
  rewrite no_space_app, no_space_fmt_X_4 by assumption. cbn [andb].
  change (no_space (hash :: ?l)) with (no_space l).
  rewrite no_space_app, no_space_fmt_X_2 by assumption. cbn [andb].
  change (no_space (hash :: ?l)) with (no_space l).
  rewrite no_space_app, no_space_fmt_X_4 by assumption. cbn [andb].
  exact Hs.
Qed.

(** sscanf reads back the four fields snprintf printed. *)
Lemma sscanf_chr_token lib c :
  well_formed c = true ->
  sscanf_chr lib (chr_token c) =
  Matched (chr_handle c) (chr_perm c) (chr_end c)
    (list_ascii_of_string (chr_type c)).
Proof.
  intros H. destruct (well_formed_inv c H) as (Hh & Hp & He & Hl & Hs).
  unfold sscanf_chr, chr_token.
  rewrite scan_hex_fmt_4 by assumption. cbn [scan_lit].
  rewrite Ascii.eqb_refl, scan_hex_fmt_2 by assumption. cbn [scan_lit].
  rewrite Ascii.eqb_refl, scan_hex_fmt_4 by assumption. cbn [scan_lit].
  rewrite Ascii.eqb_refl, scan_word_all.
  - rewrite length_list_ascii_of_string.
    destruct (Nat.leb_spec (String.length (chr_type c)) MAX_LEN_UUID_STR)
      as [_ | Hgt]; [| lia].
    rewrite !u16_small, u8_small by assumption. reflexivity.
  - intros E. apply (f_equal (@List.length ascii)) in E.
    rewrite length_list_ascii_of_string in E. cbn in E. lia.
  - exact Hs.
Qed.

Lemma sscanf_chr_empty lib : sscanf_chr lib [] = Unmatched.
Proof. destruct lib; reflexivity. Qed.

(** ** The whole list *)

Lemma characteristic_list_to_string_acc cs acc :
  fold_left (fun characteristics chr => characteristics ++ chr_str chr) cs acc
  = acc ++ List.concat (map chr_str cs).
Proof.
  revert acc. induction cs as [| c cs IH]; intros acc; cbn.
  - now rewrite app_nil_r.
  - rewrite IH, app_assoc. reflexivity.
Qed.

Lemma characteristic_list_to_string_concat cs :
  characteristic_list_to_string cs = List.concat (map chr_str cs).
Proof. apply characteristic_list_to_string_acc. Qed.

(** The pieces of a serialised list are the tokens of its
    characteristics and one empty piece after the last space. *)
Lemma split_space_serialised cs :
  Forall (fun c => well_formed c = true) cs ->
  split_space (List.concat (map chr_str cs)) = map chr_token cs ++ [[]].
Proof.
  induction 1 as [| c cs Hc _ IH]; cbn [map List.concat app].
  - reflexivity.
  - rewrite (chr_str_token c Hc), <- app_assoc. cbn [app].
    rewrite split_space_piece by (apply no_space_token; exact Hc).
    rewrite IH. reflexivity.
Qed.

Lemma serialised_pieces c cs :
  Forall (fun c => well_formed c = true) (c :: cs) ->
  g_strsplit_space (characteristic_list_to_string (c :: cs))
  = map chr_token (c :: cs) ++ [[]].
Proof.
  intros H. rewrite characteristic_list_to_string_concat.
  rewrite <- (split_space_serialised (c :: cs) H).
  unfold g_strsplit_space.
  destruct (List.concat (map chr_str (c :: cs))) eqn:Ec; [| reflexivity].
  exfalso. cbn [map List.concat] in Ec.
  rewrite (chr_str_token c) in Ec by (inversion H; assumption).
  apply (f_equal (@List.length ascii)) in Ec.
  rewrite !length_app in Ec. cbn in Ec. lia.
Qed.

(** After an overrun the loop has no answer any more. *)
Lemma scan_step_none lib prim_path toks :
  fold_left (scan_step lib prim_path) toks None = None.
Proof. induction toks as [| tok toks IH]; [reflexivity | exact IH]. Qed.

(** Without an overrun the loop collects what the pieces give. *)
Lemma scan_pieces_acc lib prim_path toks : forall acc,
  Forall (fun tok => sscanf_chr lib tok <> Overrun) toks ->
  fold_left (scan_step lib prim_path) toks (Some acc)
  = Some (acc ++ flat_map (scan_piece lib prim_path) toks).
Proof.
  induction toks as [| tok toks IH]; intros acc H.
  - cbn. now rewrite app_nil_r.
  - inversion H as [| ? ? Htok Htoks]; subst.
    cbn [fold_left flat_map scan_step]. unfold scan_piece at 1.
    destruct (sscanf_chr lib tok) as [h p e t | |]; [| | congruence].
    + rewrite (IH _ Htoks), <- app_assoc. reflexivity.
    + rewrite (IH _ Htoks). reflexivity.
Qed.

(** An answer of the loop is what the pieces give, and no piece
    overran. *)
Lemma scan_pieces_some lib prim_path toks : forall acc l,
  fold_left (scan_step lib prim_path) toks (Some acc) = Some l ->
  l = acc ++ flat_map (scan_piece lib prim_path) toks /\
  Forall (fun tok => sscanf_chr lib tok <> Overrun) toks.
Proof.
  induction toks as [| tok toks IH]; intros acc l H.
  - cbn in H. injection H as <-. rewrite app_nil_r. split; constructor.
  - cbn [fold_left scan_step] in H. cbn [flat_map]. unfold scan_piece at 1.
    destruct (sscanf_chr lib tok) as [h p e t | |] eqn:E.
    + destruct (IH _ _ H) as (-> & F). rewrite <- app_assoc.
      split; [reflexivity |]. constructor; [congruence | exact F].
    + destruct (IH _ _ H) as (-> & F).
      split; [reflexivity |]. constructor; [congruence | exact F].
    + rewrite scan_step_none in H. discriminate.
Qed.

Lemma scan_piece_token lib prim_path c :
  well_formed c = true ->
  scan_piece lib prim_path (chr_token c)
  = [scanned_characteristic prim_path
       (chr_handle c, chr_perm c, chr_end c,
        list_ascii_of_string (chr_type c))].
Proof.
  intros H. unfold scan_piece. rewrite (sscanf_chr_token lib c H).
  reflexivity.
Qed.

Lemma cache_fields_scanned prim_path c :
  cache_fields
    (scanned_characteristic prim_path
       (chr_handle c, chr_perm c, chr_end c,
        list_ascii_of_string (chr_type c)))
  = cache_fields c.
Proof.
  unfold cache_fields. cbn. rewrite string_of_list_ascii_of_string.
  reflexivity.
Qed.

(** Scanning the serialised list gives, entry by entry, the
    characteristic built from the four fields. *)
Lemma scan_serialised lib prim_path cs :
  Forall (fun c => well_formed c = true) cs ->
  string_to_characteristic_list lib prim_path
    (Some (characteristic_list_to_string cs))
  = Some (map (fun c =>
                 scanned_characteristic prim_path
                   (chr_handle c, chr_perm c, chr_end c,
                    list_ascii_of_string (chr_type c))) cs).
Proof.
  intros H. unfold string_to_characteristic_list.
  destruct cs as [| c0 cs0]; [reflexivity |].
  rewrite (serialised_pieces c0 cs0 H).
  rewrite scan_pieces_acc.
  - cbn [app]. f_equal. rewrite flat_map_app. cbn [flat_map].
    unfold scan_piece at 2. rewrite sscanf_chr_empty, app_nil_r.
    clear - H. induction H as [| c cs Hc _ IH]; [reflexivity |].
    cbn [map flat_map]. rewrite (scan_piece_token lib prim_path c Hc), IH.
    reflexivity.
  - apply Forall_app. split.
    + apply Forall_map. eapply Forall_impl; [| exact H].
      intros c Hc. cbv beta. rewrite (sscanf_chr_token lib c Hc).
      discriminate.
    + constructor; [| constructor]. rewrite sscanf_chr_empty. discriminate.
Qed.

(** C7.  Cache round trip: for every list of well-formed characteristics
    (fields within their C types, the type a non-empty UUID string without
    white space of at most MAX_LEN_UUID_STR characters), parsing the
    string the serialiser wrote overruns nothing and gives
    characteristics with the same (value handle, properties, end handle,
    uuid) in the same order, whichever way the C library reads a bare 0x
    prefix. *)
Theorem cache_round_trip (lib : bare_prefix) (prim_path : string)
  (cs : list characteristic) :
  Forall (fun c => well_formed c = true) cs ->
  option_map (map cache_fields)
    (string_to_characteristic_list lib prim_path
       (Some (characteristic_list_to_string cs)))
  = Some (map cache_fields cs).
Proof.
  intros H. rewrite (scan_serialised lib prim_path cs H).
  cbn [option_map]. f_equal. rewrite map_map.
  apply map_ext. intros c. apply cache_fields_scanned.
Qed.

(** ** Lists *)

Lemma list_set_length {A} (l : list A) i x :
  List.length (list_set l i x) = List.length l.
Proof.
  revert i. induction l as [| a l IH]; intros [| i]; cbn; try reflexivity.
  now rewrite IH.
Qed.

Lemma list_set_last {A} (l : list A) x y :
  list_set (l ++ [x]) (List.length l) y = l ++ [y].
Proof. induction l as [| a l IH]; cbn; [reflexivity | now rewrite IH]. Qed.

Lemma nth_error_last {A} (l : list A) x :
  nth_error (l ++ [x]) (List.length l) = Some x.
Proof. induction l as [| a l IH]; cbn; [reflexivity | exact IH]. Qed.

Lemma nth_error_list_set_same {A} (l : list A) i x :
  (i < List.length l)%nat -> nth_error (list_set l i x) i = Some x.
Proof.
  revert i. induction l as [| a l IH]; intros [| i] H; cbn in *; try lia.
  - reflexivity.
  - apply IH. lia.
Qed.

Lemma nth_error_list_set_other {A} (l : list A) i j x :
  i <> j -> nth_error (list_set l i x) j = nth_error l j.
Proof.
  revert i j. induction l as [| a l IH]; intros [| i] [| j] H; cbn;
    try reflexivity; try congruence.
  apply IH. congruence.
Qed.

Lemma list_set_same {A} (l : list A) i x :
  nth_error l i = Some x -> list_set l i x = l.
Proof.
  revert i. induction l as [| a l IH]; intros [| i] H; cbn in *;
    try congruence.
  f_equal. apply IH. exact H.
Qed.

(** ** Lookup by handle *)

Lemma find_custom_none cs b :
  g_slist_find_custom cs b characteristic_handle_cmp = None <->
  existsb (fun h => h =? u16 b) (map chr_handle cs) = false.
Proof.
  induction cs as [| c cs IH]; cbn; [tauto |].
  unfold characteristic_handle_cmp at 1.
  destruct (Z.eqb_spec (chr_handle c - u16 b) 0) as [E | E];
    destruct (Z.eqb_spec (chr_handle c) (u16 b)) as [E' | E']; try lia; cbn.
  - split; discriminate.
  - rewrite <- IH.
    destruct (g_slist_find_custom cs b characteristic_handle_cmp); cbn;
      split; congruence.
Qed.

Lemma find_custom_none_iff cs b :
  g_slist_find_custom cs b characteristic_handle_cmp = None <->
  ~ In (u16 b) (map chr_handle cs).
Proof.
  rewrite find_custom_none. split.
  - intros H Hin.
    assert (X : existsb (fun h => h =? u16 b) (map chr_handle cs) = true).
    { apply existsb_exists. exists (u16 b). split; [exact Hin |].
      apply Z.eqb_refl. }
    congruence.
  - intros H.
    destruct (existsb _ _) eqn:E; [| reflexivity].
    apply existsb_exists in E. destruct E as (h & Hin & Hh).
    apply Z.eqb_eq in Hh. subst h. contradiction.
Qed.

(** ** The loop of char_discovered_cb *)

Lemma patch_end_handles pe v cs :
  map chr_handle (patch_end pe v cs) = map chr_handle cs.
Proof.
  unfold patch_end. destruct pe as [i |]; [| reflexivity].
  destruct (nth_error cs i) as [c |] eqn:E; [| reflexivity].
  revert i E. induction cs as [| a cs IH]; intros [| i] E; cbn in *;
    try congruence.
  f_equal. apply IH. exact E.
Qed.

Lemma patch_end_length pe v cs :
  List.length (patch_end pe v cs) = List.length cs.
Proof.
  rewrite <- (length_map chr_handle), patch_end_handles, length_map.
  reflexivity.
Qed.

Lemma patch_end_last v cs c :
  patch_end (Some (List.length cs)) v (cs ++ [c])
  = cs ++ [set_chr_end (u16 v) c].
Proof.
  unfold patch_end. rewrite nth_error_last, list_set_last. reflexivity.
Qed.

(** The list after the loop and the last store, in closed form. *)
Lemma discovery_loop_closed p l : forall cs pe,
  (let '(cs', pe') :=
     fold_left (char_discovered_step (prim_path p)) l (cs, pe) in
   patch_end pe' (att_end (prim_att p)) cs')
  = match created_entries (map chr_handle cs) l with
    | [] => patch_end pe (att_end (prim_att p)) cs
    | e :: es => patch_end pe (ac_handle e) cs ++ created_chars p (e :: es)
    end.
Proof.
  induction l as [| a l IH]; intros cs pe.
  - reflexivity.
  - cbn [fold_left created_entries]. unfold char_discovered_step at 2.
    destruct (g_slist_find_custom cs (ac_value_handle a)
                characteristic_handle_cmp) as [i |] eqn:F.
    + assert (X : existsb (fun h => h =? u16 (ac_value_handle a))
                    (map chr_handle cs) = true).
      { destruct (existsb _ _) eqn:E; [reflexivity |].
        apply find_custom_none in E. congruence. }
      rewrite X. apply IH.
    + rewrite (proj1 (find_custom_none _ _) F).
      rewrite IH, map_app, patch_end_handles. cbn [map new_characteristic chr_handle].
      destruct (created_entries _ l) as [| e es]; rewrite patch_end_last;
        cbn [created_chars]; try rewrite <- app_assoc; reflexivity.
Qed.

Lemma discovered_chars_closed p l :
  discovered_chars p l =
  chars p ++ created_chars p (created_entries (map chr_handle (chars p)) l).
Proof.
  unfold discovered_chars.
  rewrite (discovery_loop_closed p l (chars p) None).
  destruct (created_entries _ l); cbn [patch_end created_chars].
  - now rewrite app_nil_r.
  - reflexivity.
Qed.

Lemma newly_created_closed p l :
  newly_created p l =
  created_chars p (created_entries (map chr_handle (chars p)) l).
Proof.
  unfold newly_created. rewrite discovered_chars_closed.
  rewrite skipn_app, skipn_all, Nat.sub_diag. reflexivity.
Qed.

Lemma created_chars_length p es :
  List.length (created_chars p es) = List.length es.
Proof. induction es as [| e es IH]; cbn; [reflexivity | now rewrite IH]. Qed.

Lemma created_chars_nth p es i e :
  nth_error es i = Some e ->
  nth_error (created_chars p es) i =
  Some (set_chr_end
          (match nth_error es (S i) with
           | Some e' => u16 (ac_handle e')
           | None => u16 (att_end (prim_att p))
           end) (new_characteristic (prim_path p) e)).
Proof.
  revert i. induction es as [| a es IH]; intros [| i] H; cbn in H;
    try discriminate.
  - injection H as ->. cbn. destruct es; reflexivity.
  - cbn [created_chars nth_error]. rewrite (IH i H). reflexivity.
Qed.

(** C1, as amended.  After char_discovered_cb has processed the
    discovered entries of a primary, every newly created characteristic
    except the last has as end handle the declaration handle of the entry
    that created the next one (nothing is subtracted), and the last newly
    created characteristic has the end handle of the primary. *)
Theorem end_handles_after_discovery (p : primary) (l : list att_char) :
  end_handle_rule 0 p l.
Proof.
  unfold end_handle_rule. rewrite newly_created_closed. split.
  - apply created_chars_length.
  - intros i e H. eexists. split; [apply created_chars_nth; exact H |].
    split; [reflexivity |]. cbn [chr_end set_chr_end].
    destruct (nth_error _ (S i)); [rewrite Z.sub_0_r |]; reflexivity.
Qed.

(** C1, counterexample.  In a primary 0x0010..0x0015 the entries
    (declaration 0x0011, value 0x0012) and (declaration 0x0013, value
    0x0014) create two characteristics; the first one ends at 0x0013, the
    declaration handle of the second, not at 0x0012. *)
Lemma end_handle_minus_one_fails :
  ~ end_handle_rule 1 sample_primary [entry_2A00; entry_2A01].
Proof.
  intros [_ H]. destruct (H O entry_2A00 eq_refl) as (c & Hc & _ & He).
  vm_compute in Hc. injection Hc as <-. vm_compute in He. discriminate.
Qed.

(** ** Re-running discovery *)

Lemma created_chars_handles p es :
  map chr_handle (created_chars p es) = map entry_handle es.
Proof. induction es as [| e es IH]; cbn; [reflexivity | now rewrite IH]. Qed.

Lemma created_entries_sound l : forall seen,
  let hs := map entry_handle (created_entries seen l) in
  (forall h, In h hs -> ~ In h seen) /\ NoDup hs /\
  (forall e, In e l -> In (entry_handle e) seen \/ In (entry_handle e) hs).
Proof.
  induction l as [| a l IH]; intros seen; cbn [created_entries].
  - cbn. repeat split; [tauto | constructor | tauto].
  - fold (entry_handle a).
    destruct (existsb (fun h => h =? entry_handle a) seen) eqn:E.
    + destruct (IH seen) as (H1 & H2 & H3). repeat split; try assumption.
      intros e [<- | He]; [| apply H3; exact He].
      left. apply existsb_exists in E. destruct E as (h & Hin & Hh).
      apply Z.eqb_eq in Hh. now subst h.
    + destruct (IH (seen ++ [entry_handle a])) as (H1 & H2 & H3).
      assert (Ha : ~ In (entry_handle a) seen).
      { intros Hin.
        assert (X : existsb (fun h => h =? entry_handle a) seen = true).
        { apply existsb_exists. exists (entry_handle a).
          split; [exact Hin | apply Z.eqb_refl]. }
        congruence. }
      cbn [map]. repeat split.
      * intros h [<- | Hh]; [exact Ha |].
        intros Hin. apply (H1 h Hh). apply in_or_app. now left.
      * constructor; [| exact H2].
        intros Hin. apply (H1 _ Hin). apply in_or_app. right. now left.
      * intros e [<- | He]; [right; now left |].
        destruct (H3 e He) as [Hs | Hs]; [| right; now right].
        apply in_app_or in Hs. destruct Hs as [Hs | [<- | []]];
          [now left | right; now left].
Qed.

Lemma NoDup_append (a b : list Z) :
  NoDup a -> NoDup b -> (forall h, In h b -> ~ In h a) -> NoDup (a ++ b).
Proof.
  intros Ha Hb Hd. induction Ha as [| h hs Hh Hhs IH]; [exact Hb |].
  cbn. constructor.
  - intros Hin. apply in_app_or in Hin. destruct Hin as [Hin | Hin];
      [contradiction |]. apply (Hd h Hin). now left.
  - apply IH. intros h' Hh' Hin. apply (Hd h' Hh'). now right.
Qed.

(** C8.  Running char_discovered_cb on a primary that already has
    characteristics keeps those characteristics as they are and appends
    the created ones; no created characteristic has the value handle of
    an existing one (an entry whose value handle is present is skipped),
    the created ones have pairwise different value handles, every
    discovered value handle is present afterwards, and when the value
    handles of the primary were pairwise different they still are. *)
Theorem rediscovery_adds_no_duplicate (p : primary) (l : list att_char) :
  exists created,
    discovered_chars p l = chars p ++ created /\
    (forall c, In c created ->
               ~ In (chr_handle c) (map chr_handle (chars p))) /\
    NoDup (map chr_handle created) /\
    (forall e, In e l ->
               In (u16 (ac_value_handle e))
                  (map chr_handle (discovered_chars p l))) /\
    (NoDup (map chr_handle (chars p)) ->
     NoDup (map chr_handle (discovered_chars p l))).
Proof.
  exists (created_chars p (created_entries (map chr_handle (chars p)) l)).
  destruct (created_entries_sound l (map chr_handle (chars p)))
    as (H1 & H2 & H3).
  rewrite discovered_chars_closed, map_app, created_chars_handles.
  repeat split.
  - intros c Hc. apply H1. rewrite <- created_chars_handles with (p := p).
    apply in_map. exact Hc.
  - exact H2.
  - intros e He. apply in_or_app. exact (H3 e He).
  - intros Hold. apply NoDup_append; assumption.
Qed.

(** ** The state after an update *)

Lemma get_put_prim w pi p q :
  get_prim w pi = Some q -> get_prim (put_prim pi p w) pi = Some p.
Proof.
  unfold get_prim, put_prim. cbn. intros H.
  apply nth_error_list_set_same. apply nth_error_Some. congruence.
Qed.

Lemma get_put_prim_other w pi pj p :
  pi <> pj -> get_prim (put_prim pi p w) pj = get_prim w pj.
Proof.
  unfold get_prim, put_prim. cbn. apply nth_error_list_set_other.
Qed.

Lemma put_prim_same w pi p :
  get_prim w pi = Some p -> put_prim pi p w = w.
Proof.
  unfold get_prim, put_prim. intros H. rewrite (list_set_same _ _ _ H).
  destruct w as [g ? ? ? ? ? ?]. destruct g. reflexivity.
Qed.

Lemma get_prim_unref w pi : get_prim (g_attrib_unref w) pi = get_prim w pi.
Proof.
  unfold get_prim, g_attrib_unref.
  destruct (gatt_attrib (gatt w)) as [a |]; [| reflexivity].
  destruct (attrib_refs a) as [| [| n]]; reflexivity.
Qed.

Lemma trace_unref w : trace (g_attrib_unref w) = trace w.
Proof.
  unfold g_attrib_unref.
  destruct (gatt_attrib (gatt w)) as [a |]; [| reflexivity].
  destruct (attrib_refs a) as [| [| n]]; reflexivity.
Qed.

Lemma get_put_chr w pi ci c p chr :
  get_prim w pi = Some p -> nth_error (chars p) ci = Some chr ->
  get_chr (put_chr pi ci c w) pi ci = Some c.
Proof.
  intros Hp Hc. unfold get_chr, put_chr. rewrite Hp.
  rewrite (get_put_prim w pi _ p Hp). cbn.
  apply nth_error_list_set_same. apply nth_error_Some. congruence.
Qed.

(** ** Notifications and indications *)

Lemma att_get_u16_u16 p : u16 (att_get_u16 p) = att_get_u16 p.
Proof. unfold att_get_u16, u16. apply Z.mod_mod. lia. Qed.

Lemma find_characteristic_none ps h n :
  (forall p c, In p ps -> In c (chars p) -> chr_handle c <> u16 h) ->
  find_characteristic ps h n = None.
Proof.
  revert n. induction ps as [| p ps IH]; intros n H; cbn; [reflexivity |].
  assert (E : g_slist_find_custom (chars p) h characteristic_handle_cmp
              = None).
  { apply find_custom_none_iff. intros Hin. apply in_map_iff in Hin.
    destruct Hin as (c & Hc & Hin). apply (H p c); [now left | exact Hin |].
    exact Hc. }
  rewrite E. apply IH. intros q c Hq. apply H. now right.
Qed.

(** C4, as amended.  A notification or indication whose handle is the
    value handle of no characteristic of the service is dropped: nothing
    in the state changes and nothing is sent, so no error reaches a caller
    and, for an indication, no confirmation is sent either. *)
Theorem unknown_handle_dropped (w : world) (pdu : bytes) :
  ~ handle_known w (pdu_handle pdu) -> events_handler pdu w = w.
Proof.
  intros H. unfold events_handler.
  destruct (Z.of_nat (List.length pdu) <? 3); [reflexivity |].
  rewrite find_characteristic_none; [reflexivity |].
  intros p c Hp Hc E. apply H. exists p, c. repeat split; try assumption.
  rewrite E. apply att_get_u16_u16.
Qed.

Lemma sample_unknown_handle :
  ~ handle_known sample_listening (pdu_handle [0x1D; 0xFF; 0xFF; 0x00]).
Proof.
  intros (p & c & Hp & Hc & E). cbn in Hp. destruct Hp as [<- | []].
  cbn in Hc. destruct Hc as [<- | []]. vm_compute in E. discriminate.
Qed.

Lemma unknown_handle_dropped_witness :
  ~ handle_known sample_listening (pdu_handle [0x1D; 0xFF; 0xFF; 0x00]) /\
  events_handler [0x1D; 0xFF; 0xFF; 0x00] sample_listening
  = sample_listening.
Proof.
  split.
  - exact sample_unknown_handle.
  - apply (unknown_handle_dropped sample_listening [0x1D; 0xFF; 0xFF; 0x00]).
    exact sample_unknown_handle.
Defined.

(** C4, counterexample.  The indication 1D FF FF 00 names a handle no
    characteristic has; events_handler returns before its switch and the
    trace holds no confirmation. *)
Lemma unknown_indication_not_confirmed :
  ~ handle_known sample_listening (pdu_handle [0x1D; 0xFF; 0xFF; 0x00]) /\
  ~ In (Ev_att_send [ATT_OP_HANDLE_CNF])
       (trace (events_handler [0x1D; 0xFF; 0xFF; 0x00] sample_listening)).
Proof.
  split; [exact sample_unknown_handle |].
  vm_compute. intros [].
Qed.

Lemma update_watchers_trace chr ws w :
  trace (fold_left (fun acc wt => update_watchers wt chr acc) ws w)
  = trace w ++ map (value_changed chr) ws.
Proof.
  revert w. induction ws as [| wt ws IH]; intros w; cbn [fold_left map].
  - now rewrite app_nil_r.
  - rewrite IH. cbn. rewrite <- app_assoc. reflexivity.
Qed.

Lemma update_watchers_gatt chr ws w :
  gatt (fold_left (fun acc wt => update_watchers wt chr acc) ws w) = gatt w.
Proof.
  revert w. induction ws as [| wt ws IH]; intros w; cbn [fold_left].
  - reflexivity.
  - rewrite IH. reflexivity.
Qed.

Lemma get_chr_gatt w w' pi ci :
  gatt w = gatt w' -> get_chr w pi ci = get_chr w' pi ci.
Proof. intros H. unfold get_chr, get_prim. now rewrite H. Qed.

(** An indication that carries at least one byte of value for a known
    handle: the confirmation is sent, the characteristic found first gets
    the bytes after the handle as its value, and every watcher of its
    primary is called with the path and the new value. *)
Lemma indication_with_value_dispatched w pdu pi ci p chr :
  find_characteristic (gatt_primary (gatt w)) (pdu_handle pdu) O
  = Some (pi, ci) ->
  get_prim w pi = Some p ->
  nth_error (chars p) ci = Some chr ->
  nth 0 pdu 0 = ATT_OP_HANDLE_IND ->
  skipn 3 pdu <> [] ->
  let chr' := set_chr_value (Some (skipn 3 pdu))
                (Z.of_nat (List.length (skipn 3 pdu))) chr in
  trace (events_handler pdu w)
  = trace w ++ Ev_att_send [ATT_OP_HANDLE_CNF]
      :: map (value_changed chr') (watchers p) /\
  get_chr (events_handler pdu w) pi ci = Some chr'.
Proof.
  intros Hf Hp Hc Hop Hv chr'. unfold events_handler.
  assert (Hlen : (Z.of_nat (List.length pdu) <? 3) = false).
  { apply Z.ltb_ge. destruct pdu as [| a [| b [| c pdu]]]; cbn in Hv;
      try congruence. cbn [List.length]. lia. }
  rewrite Hlen. fold (pdu_handle pdu). rewrite Hf, Hp.
  assert (Hg : get_chr w pi ci = Some chr).
  { unfold get_chr. rewrite Hp. exact Hc. }
  rewrite Hg, Hop, Z.eqb_refl. unfold events_handler_notify.
  assert (Hs : characteristic_set_value chr (skipn 3 pdu) = (chr', 0)).
  { unfold characteristic_set_value. destruct (skipn 3 pdu); [congruence |].
    reflexivity. }
  rewrite Hs. split.
  - rewrite update_watchers_trace. unfold put_chr.
    replace (get_prim (emit _ w) pi) with (Some p) by (symmetry; exact Hp).
    cbn. rewrite <- app_assoc. reflexivity.
  - rewrite (get_chr_gatt _ _ pi ci (update_watchers_gatt _ _ _)).
    apply (get_put_chr (emit (Ev_att_send enc_confirmation) w) pi ci chr' p chr);
      assumption.
Qed.

(** Scenario 4 of the specification: the indication 1D 12 00 77. *)
Example indication_scenario :
  trace (events_handler [0x1D; 0x12; 0x00; 0x77] sample_listening)
  = [Ev_att_send [0x1E];
     Ev_dbus_send (Value_changed ":1.7" "/watcher"
                     "/dev/service0010/characteristic0012" (Some [0x77]) 1)]
  /\ option_map chr_value
       (get_chr (events_handler [0x1D; 0x12; 0x00; 0x77] sample_listening)
          0 0) = Some (Some [0x77]).
Proof. split; reflexivity. Qed.

(** C5, at the input where the code departs from it.  The indication
    1D 12 00 has length 3 and names the handle of a characteristic whose
    value is 41 42.  The confirmation is sent, but the value is not set
    to the empty payload: characteristic_set_value takes the NULL that
    g_try_realloc answers for size 0 as a failure, the value pointer is
    NULL, [vlen] is still 2, and the watcher is called with that pair. *)
Theorem empty_indication_leaves_stale_length :
  trace (events_handler [0x1D; 0x12; 0x00] sample_listening)
  = [Ev_att_send [0x1E];
     Ev_dbus_send (Value_changed ":1.7" "/watcher"
                     "/dev/service0010/characteristic0012" None 2)]
  /\ get_chr (events_handler [0x1D; 0x12; 0x00] sample_listening) 0 0
     = Some (set_chr_value None 2 sample_chr).
Proof. split; reflexivity. Qed.

(** ** The discovery watchdog *)

Lemma get_prim_emit e w pi : get_prim (emit e w) pi = get_prim w pi.
Proof. reflexivity. Qed.

(** C9.  When the watchdog fires while a discovery reply is pending, the
    caller gets the failure "Discover characteristic values timed out",
    the primary has no pending message and no timer any more (the timer
    source is removed: FALSE is returned), everything else in it is as
    before, and the characteristic lists of all primaries, with their
    values and descriptors, are unchanged. *)
Theorem watchdog_fires (w : world) (pi : nat) (p : primary)
  (m : DBusMessage) :
  get_prim w pi = Some p ->
  discovery_msg p = Some m ->
  fst (stop_discovery_timeout pi w) = false /\
  trace (snd (stop_discovery_timeout pi w))
  = trace w ++
    [Ev_dbus_send
       (Error_failed m (Text "Discover characteristic values timed out"))] /\
  option_map discovery_msg (get_prim (snd (stop_discovery_timeout pi w)) pi)
  = Some None /\
  option_map discovery_timer (get_prim (snd (stop_discovery_timeout pi w)) pi)
  = Some 0 /\
  option_map prim_att (get_prim (snd (stop_discovery_timeout pi w)) pi)
  = Some (prim_att p) /\
  option_map prim_path (get_prim (snd (stop_discovery_timeout pi w)) pi)
  = Some (prim_path p) /\
  option_map watchers (get_prim (snd (stop_discovery_timeout pi w)) pi)
  = Some (watchers p) /\
  forall pj,
    option_map chars (get_prim (snd (stop_discovery_timeout pi w)) pj)
    = option_map chars (get_prim w pj).
Proof.
  intros Hp Hm. unfold stop_discovery_timeout. cbn [fst snd].
  assert (E : stop_discovery pi w
              = g_attrib_unref
                  (put_prim pi
                     (set_discovery_msg None (set_discovery_timer 0 p))
                     (emit
                        (Ev_dbus_send
                           (Error_failed m
                              (Text
                                 "Discover characteristic values timed out")))
                        (put_prim pi (set_discovery_timer 0 p) w)))).
  { unfold stop_discovery. rewrite Hp.
    cbn [discovery_msg set_discovery_timer]. rewrite Hm. reflexivity. }
  rewrite E. clear E.
  split; [reflexivity |]. split.
  { rewrite trace_unref. reflexivity. }
  assert (Hq : forall w0,
            get_prim w0 pi = Some (set_discovery_timer 0 p) ->
            get_prim
              (g_attrib_unref
                 (put_prim pi
                    (set_discovery_msg None (set_discovery_timer 0 p)) w0))
              pi
            = Some (set_discovery_msg None (set_discovery_timer 0 p))).
  { intros w0 H0. rewrite get_prim_unref. eapply get_put_prim. exact H0. }
  rewrite Hq by (rewrite get_prim_emit; eapply get_put_prim; exact Hp).
  repeat (split; [reflexivity |]).
  intros pj. rewrite get_prim_unref.
  destruct (Nat.eq_dec pi pj) as [<- | Hne].
  - erewrite get_put_prim; [rewrite Hp; reflexivity |].
    rewrite get_prim_emit. eapply get_put_prim. exact Hp.
  - rewrite get_put_prim_other, get_prim_emit, get_put_prim_other
      by exact Hne. reflexivity.
Qed.

Lemma watchdog_fires_witness :
  get_prim discovery_listed 0
  = Some {| prim_att := sample_att; discovery_msg := Some discover_msg;
            discovery_timer := 1; prim_path := "/dev/service0010";
            chars := discovered_chars sample_primary [entry_2A00];
            watchers := [] |} /\
  trace (snd (stop_discovery_timeout 0 discovery_listed))
  = trace discovery_listed ++
    [Ev_dbus_send
       (Error_failed discover_msg
          (Text "Discover characteristic values timed out"))] /\
  option_map discovery_msg
    (get_prim (snd (stop_discovery_timeout 0 discovery_listed)) 0)
  = Some None /\
  option_map discovery_timer
    (get_prim (snd (stop_discovery_timeout 0 discovery_listed)) 0)
  = Some 0.
Proof.
  split; [vm_compute; reflexivity |].
  destruct (watchdog_fires discovery_listed 0
              {| prim_att := sample_att; discovery_msg := Some discover_msg;
                 discovery_timer := 1; prim_path := "/dev/service0010";
                 chars := discovered_chars sample_primary [entry_2A00];
                 watchers := [] |} discover_msg)
    as (_ & T & M & I & _).
  - vm_compute. reflexivity.
  - reflexivity.
  - split; [exact T | split; [exact M | exact I]].
Defined.

(** ** Loading the cache *)

Lemma no_hash_cons c s :
  no_hash (c :: s) = negb (Ascii.eqb c hash) && no_hash s.
Proof. reflexivity. Qed.

Lemma no_hash_one c : Ascii.eqb c hash = false -> no_hash [c] = true.
Proof. intros H. rewrite no_hash_cons, H. reflexivity. Qed.

(** The characters a numeric field takes are no '#'. *)
Lemma skip_ws_split s :
  exists ws, s = ws ++ skip_ws s /\ no_hash ws = true.
Proof.
  induction s as [| c s (ws & E & H)]; cbn [skip_ws].
  - exists []. split; reflexivity.
  - destruct (isspace c) eqn:Ec.
    + exists (c :: ws). split; [cbn; f_equal; exact E |].
      rewrite no_hash_cons, H, andb_true_r.
      destruct (Ascii.eqb_spec c hash) as [-> | _]; [discriminate |].
      reflexivity.
    + exists []. split; reflexivity.
Qed.

Lemma take_hex_split w : forall s,
  exists pre, s = pre ++ snd (take_hex w s) /\ no_hash pre = true.
Proof.
  induction w as [| w IH]; intros s.
  - exists []. destruct s; split; reflexivity.
  - destruct s as [| c r]; [exists []; split; reflexivity |].
    cbn [take_hex]. destruct (hexval c) as [d |] eqn:Ec.
    + destruct (IH r) as (pre & E & H).
      destruct (take_hex w r) as [ds rest]. cbn [snd] in *.
      exists (c :: pre). split; [cbn; f_equal; exact E |].
      rewrite no_hash_cons, H, andb_true_r.
      destruct (Ascii.eqb_spec c hash) as [-> | _]; [discriminate |].
      reflexivity.
    + exists []. split; reflexivity.
Qed.

Lemma no_hash_app a b : no_hash (a ++ b) = no_hash a && no_hash b.
Proof. unfold no_hash. apply forallb_app. Qed.

Lemma scan_hex_split lib width s v rest :
  scan_hex lib width s = Some (v, rest) ->
  exists pre, s = pre ++ rest /\ no_hash pre = true.
Proof.
  unfold scan_hex. destruct (skip_ws_split s) as (ws & Es & Hws).
  set (s0 := skip_ws s) in *.
  assert (Hsign : exists sg,
            s0 = sg ++ snd (match s0 with
                            | c :: r =>
                                if is_sign c && (1 <=? width)%nat
                                then (code c =? 45, (width - 1)%nat, r)
                                else (false, width, s0)
                            | [] => (false, width, s0)
                            end) /\ no_hash sg = true).
  { destruct s0 as [| c r]; [exists []; split; reflexivity |].
    destruct (is_sign c && (1 <=? width)%nat) eqn:Ec.
    - exists [c]. split; [reflexivity |]. apply no_hash_one.
      destruct (Ascii.eqb_spec c hash) as [-> | _]; [discriminate |].
      reflexivity.
    - exists []. split; reflexivity. }
  destruct Hsign as (sg & Esg & Hsg).
  destruct (match s0 with
            | c :: r =>
                if is_sign c && (1 <=? width)%nat
                then (code c =? 45, (width - 1)%nat, r)
                else (false, width, s0)
            | [] => (false, width, s0)
            end) as [[neg w1] s1]. cbn [snd] in Esg.
  assert (Hpre : exists px,
            s1 = px ++ snd (match s1 with
                            | z :: x :: r =>
                                if (code z =? 48) && is_x x && (2 <=? w1)%nat
                                then (true, (w1 - 2)%nat, r)
                                else (false, w1, s1)
                            | _ => (false, w1, s1)
                            end) /\ no_hash px = true).
  { destruct s1 as [| z [| x r]]; try (exists []; split; reflexivity).
    destruct ((code z =? 48) && is_x x && (2 <=? w1)%nat) eqn:Ec.
    - exists [z; x]. split; [reflexivity |].
      apply andb_true_iff in Ec. destruct Ec as [Ec _].
      apply andb_true_iff in Ec. destruct Ec as [Ez Ex].
      rewrite !no_hash_cons.
      destruct (Ascii.eqb_spec z hash) as [-> | _]; [discriminate |].
      destruct (Ascii.eqb_spec x hash) as [-> | _]; [discriminate |].
      reflexivity.
    - exists []. split; reflexivity. }
  destruct Hpre as (px & Epx & Hpx).
  destruct (match s1 with
            | z :: x :: r =>
                if (code z =? 48) && is_x x && (2 <=? w1)%nat
                then (true, (w1 - 2)%nat, r)
                else (false, w1, s1)
            | _ => (false, w1, s1)
            end) as [[prefix w2] s2]. cbn [snd] in Epx.
  destruct (take_hex_split w2 s2) as (dg & Edg & Hdg).
  destruct (take_hex w2 s2) as [ds rest']. cbn [snd] in Edg.
  intros H.
  assert (Hrest : exists dg', s2 = dg' ++ rest /\ no_hash dg' = true).
  { destruct ds as [| d ds].
    - destruct prefix; [| discriminate]. destruct lib; [discriminate |].
      injection H as _ <-. exists []. split; reflexivity.
    - injection H as _ <-. exists dg. split; assumption. }
  destruct Hrest as (dg' & Edg' & Hdg').
  exists (ws ++ sg ++ px ++ dg'). split.
  - rewrite Es, Esg, Epx, Edg', <- !app_assoc. reflexivity.
  - rewrite !no_hash_app, Hws, Hsg, Hpx, Hdg'. reflexivity.
Qed.

Lemma after_hashes_0 s : after_hashes 0 s = Some s.
Proof. destruct s; reflexivity. Qed.

Lemma after_hashes_skip n pre r :
  no_hash pre = true ->
  after_hashes (S n) (pre ++ hash :: r) = after_hashes n r.
Proof.
  induction pre as [| c pre IH]; intros H.
  - cbn [app after_hashes]. now rewrite Ascii.eqb_refl.
  - rewrite no_hash_cons in H. apply andb_true_iff in H.
    destruct H as [Hc Hp]. apply negb_true_iff in Hc.
    cbn [app after_hashes]. rewrite Hc. apply IH. exact Hp.
Qed.

Lemma scan_lit_some c s r : scan_lit c s = Some r -> s = c :: r.
Proof.
  destruct s as [| c' s']; [discriminate |]. cbn.
  destruct (Ascii.eqb_spec c c') as [-> | _]; [| discriminate].
  intros E. injection E as ->. reflexivity.
Qed.

(** When sscanf gets as far as "%s", the word is read from the text after
    the third '#' of the piece. *)
Lemma sscanf_chr_reaches lib tok :
  sscanf_chr lib tok = Unmatched \/
  exists s6 t r h p e,
    after_hashes 3 tok = Some s6 /\ scan_word s6 = Some (t, r) /\
    sscanf_chr lib tok
    = if (List.length t <=? MAX_LEN_UUID_STR)%nat
      then Matched (u16 h) (u8 p) (u16 e) t else Overrun.
Proof.
  unfold sscanf_chr.
  destruct (scan_hex lib 4 tok) as [[h s1] |] eqn:E1; [| now left].
  destruct (scan_lit hash s1) as [s2 |] eqn:L1; [| now left].
  destruct (scan_hex lib 2 s2) as [[p s3] |] eqn:E2; [| now left].
  destruct (scan_lit hash s3) as [s4 |] eqn:L2; [| now left].
  destruct (scan_hex lib 4 s4) as [[e s5] |] eqn:E3; [| now left].
  destruct (scan_lit hash s5) as [s6 |] eqn:L3; [| now left].
  destruct (scan_word s6) as [[t r] |] eqn:W; [| now left].
  right. exists s6, t, r, h, p, e.
  destruct (scan_hex_split _ _ _ _ _ E1) as (p1 & -> & H1).
  destruct (scan_hex_split _ _ _ _ _ E2) as (p2 & -> & H2).
  destruct (scan_hex_split _ _ _ _ _ E3) as (p3 & -> & H3).
  rewrite (scan_lit_some _ _ _ L1), (scan_lit_some _ _ _ L2),
    (scan_lit_some _ _ _ L3).
  rewrite !after_hashes_skip by assumption. rewrite after_hashes_0.
  split; [reflexivity | split; [exact W | reflexivity]].
Qed.

Lemma skip_ws_length s : (List.length (skip_ws s) <= List.length s)%nat.
Proof.
  induction s as [| c s IH]; cbn [skip_ws]; [lia |].
  destruct (isspace c); cbn [List.length]; lia.
Qed.

Lemma take_nonspace_length s :
  (List.length (fst (take_nonspace s)) <= List.length s)%nat.
Proof.
  induction s as [| c s IH]; cbn [take_nonspace]; [cbn; lia |].
  destruct (isspace c); [cbn; lia |].
  destruct (take_nonspace s) as [t r]. cbn in *. lia.
Qed.

Lemma scan_word_length s t r :
  scan_word s = Some (t, r) -> (List.length t <= List.length s)%nat.
Proof.
  unfold scan_word. pose proof (take_nonspace_length (skip_ws s)) as H.
  pose proof (skip_ws_length s) as H'.
  destruct (take_nonspace (skip_ws s)) as [[| c t'] r']; [discriminate |].
  intros E. injection E as <- <-. cbn [fst] in H. lia.
Qed.


(** A piece whose text after the third '#' has room in chr->type does
    not overrun it. *)
Lemma type_fits_no_overrun lib tok :
  type_fits tok = true -> sscanf_chr lib tok <> Overrun.
Proof.
  intros H. destruct (sscanf_chr_reaches lib tok)
    as [E | (s6 & t & r & h & p & e & A & W & E)]; [congruence |].
  rewrite E. unfold type_fits in H. rewrite A in H.
  apply Nat.leb_le in H. apply scan_word_length in W.
  destruct (Nat.leb_spec (List.length t) MAX_LEN_UUID_STR); [discriminate |].
  lia.
Qed.

(** Without an overrun string_to_characteristic_list returns what the
    pieces give. *)
Lemma cached_scan lib prim_path s :
  Forall (fun tok => type_fits tok = true) (g_strsplit_space s) ->
  string_to_characteristic_list lib prim_path (Some s)
  = Some (flat_map (scan_piece lib prim_path) (g_strsplit_space s)).
Proof.
  intros Hfit. unfold string_to_characteristic_list.
  rewrite scan_pieces_acc; [reflexivity |].
  eapply Forall_impl; [| exact Hfit]. intros tok.
  apply type_fits_no_overrun.
Qed.







(** A stored piece with a bare 0x prefix: with a C library that follows
    the standard nothing is loaded; with one that reads the prefix as 0
    the primary gets a characteristic with handle 0. *)
Example bare_prefix_entry :
  cached_fields
    (load_characteristics Prefix_fails 0
       (sample_storing "0x#0A#0015#2A00")) 0 = Some (Some []) /\
  cached_fields
    (load_characteristics Prefix_is_zero 0
       (sample_storing "0x#0A#0015#2A00")) 0
  = Some (Some [(0, 0x0A, 0x15, "2A00"%string)]).
Proof. split; vm_compute; reflexivity. Qed.

(** ** Security errors *)

Lemma security_error_nonzero status :
  is_security_error status = true -> (status =? 0) = false.
Proof.
  unfold is_security_error, ATT_ECODE_INSUFF_ENC, ATT_ECODE_AUTHENTICATION.
  intros H. apply orb_true_iff in H.
  destruct H as [H | H]; apply Z.eqb_eq in H; subst status; reflexivity.
Qed.


Lemma write_retry_step w status current chr :
  get_chr w (q_prim current) (q_chr current) = Some chr ->
  is_security_error status = true ->
  io_set_ok w = true ->
  gatt_write_char_resp status current w
  = emit (Ev_att_request (reissued_write chr current)
            CB_gatt_write_char_resp current)
      (set_sec_high true (emit Ev_bt_io_set_sec_high w)).
Proof.
  intros Hc Hs Hio. unfold gatt_write_char_resp.
  rewrite Hc, (security_error_nonzero status Hs), Hs.
  unfold bt_io_set_sec_high. rewrite Hio. reflexivity.
Qed.


(** What [n] retries in a row leave: the service as it was, the channel
    still willing, and the effects of one retry [n] times. *)
Section Retries.

Variable step : world -> world.
Variable evs : list event.
Variable chr : characteristic.
Variables pi ci : nat.

Hypothesis step_retries :
  forall w0, get_chr w0 pi ci = Some chr -> io_set_ok w0 = true ->
             gatt (step w0) = gatt w0 /\ io_set_ok (step w0) = true /\
             sec_high (step w0) = true /\
             trace (step w0) = trace w0 ++ evs.


End Retries.




(** ** Transport references *)

(** C3, at the inputs where the code departs from it.  Registering a
    watcher on a service without transport takes a reference in
    l2cap_connect and gives it back before returning: the watcher is in
    the list and the transport is gone.  A discovery that runs to its end
    (every request answered, the reply sent) leaves the reference taken by
    discover_char behind: char_discovered_cb gives it back only when the
    status is an error. *)
Theorem references_not_balanced :
  (live_watchers watcher_registered = 1%nat /\
   transport_refs watcher_registered = 0%nat) /\
  (filter is_reply (trace discovery_finished)
   = [Ev_dbus_send
        (Method_return discover_msg
           ["/dev/service0010/characteristic0012"%string])]
   /\ option_map discovery_msg (get_prim discovery_finished 0) = Some None
   /\ live_watchers discovery_finished = 0%nat
   /\ transport_refs discovery_finished = 1%nat).
Proof. repeat split; reflexivity. Qed.

(** ** Discovery of an empty service *)

(** C6, at the input where the code departs from it.  The discovery of
    the sample primary (no cached characteristics) returns status 0 and
    an empty list.  char_discovered_cb stores the empty cache string and
    arms the watchdog; no reply is sent and the request stays pending.
    The caller hears of it when the watchdog fires, as a failure. *)
Theorem empty_discovery_gets_no_reply :
  trace discovery_empty
  = trace discovery_started ++
    [Ev_write_device_characteristics "00:11:22:33:44:55"
       "66:77:88:99:AA:BB" 0x10 [];
     Ev_timeout_add 1 0] /\
  option_map discovery_msg (get_prim discovery_empty 0)
  = Some (Some discover_msg) /\
  filter is_reply (trace (snd (stop_discovery_timeout 0 discovery_empty)))
  = [Ev_dbus_send
       (Error_failed discover_msg
          (Text "Discover characteristic values timed out"))].
Proof. repeat split; reflexivity. Qed.

Lemma cache_round_trip_witness :
  Forall (fun c => well_formed c = true)
    (discovered_chars sample_primary [entry_2A00; entry_2A01]) /\
  option_map (map cache_fields)
    (string_to_characteristic_list Prefix_fails "/dev/service0010"
       (Some (characteristic_list_to_string
                (discovered_chars sample_primary [entry_2A00; entry_2A01]))))
  = Some (map cache_fields
            (discovered_chars sample_primary [entry_2A00; entry_2A01])).
Proof.
  assert (H : Forall (fun c => well_formed c = true)
                (discovered_chars sample_primary [entry_2A00; entry_2A01])).
  { repeat constructor. }
  split; [exact H |].
  apply (cache_round_trip Prefix_fails "/dev/service0010"
           (discovered_chars sample_primary [entry_2A00; entry_2A01]) H).
Defined.

(** The string written for the two sample characteristics. *)
Example cache_string_sample :
  string_of_list_ascii
    (characteristic_list_to_string
       (discovered_chars sample_primary [entry_2A00; entry_2A01]))
  = "0012#0A#0013#2A00 0014#02#0015#2A01 "%string.
Proof. reflexivity. Qed.

(** Scenario 2 of the specification: a read answered with 0x05, reissued
    at level HIGH and then answered 0B 99. *)
Example escalation_scenario :
  let w := update_char_value 0 [0x0B; 0x99] (new_query 0 0)
             read_failed_once in
  option_map chr_value (get_chr w 0 0) = Some (Some [0x99]) /\
  filter is_reply (trace w)
  = [Ev_dbus_send (Method_return update_value_msg [])] /\
  List.length (filter (is_read_request 0x12) (trace w)) = 2%nat.
Proof. repeat split; reflexivity. Qed.

(** * Further properties of the code *)

(** ** Looking a handle up *)

Lemma find_custom_some {A B : Type} (cmp : A -> B -> Z) (data : B) l i :
  g_slist_find_custom l data cmp = Some i ->
  exists a,
    nth_error l i = Some a /\ cmp a data = 0 /\
    forall j b, (j < i)%nat -> nth_error l j = Some b -> cmp b data <> 0.
Proof.
  revert i. induction l as [| x l IH]; intros i H; cbn in H; [discriminate |].
  destruct (Z.eqb_spec (cmp x data) 0) as [E | E].
  - injection H as <-. exists x. repeat split; [exact E |]. intros j b Hj. lia.
  - destruct (g_slist_find_custom l data cmp) as [k |] eqn:F;
      [| discriminate].
    cbn in H. injection H as <-. destruct (IH k eq_refl) as (a & Ha & Hz & Hf).
    exists a. repeat split; [exact Ha | exact Hz |].
    intros [| j] b Hj Hb; cbn in Hb.
    + injection Hb as <-. exact E.
    + apply (Hf j b); [lia | exact Hb].
Qed.

Lemma find_characteristic_some ps h : forall n pi ci,
  find_characteristic ps h n = Some (pi, ci) ->
  (n <= pi)%nat /\
  exists p c,
    nth_error ps (pi - n) = Some p /\ nth_error (chars p) ci = Some c /\
    chr_handle c = u16 h /\
    (forall j q d, (j < pi - n)%nat -> nth_error ps j = Some q ->
                   In d (chars q) -> chr_handle d <> u16 h) /\
    (forall k d, (k < ci)%nat -> nth_error (chars p) k = Some d ->
                 chr_handle d <> u16 h).
Proof.
  induction ps as [| p ps IH]; intros n pi ci H; cbn in H; [discriminate |].
  destruct (g_slist_find_custom (chars p) h characteristic_handle_cmp)
    as [i |] eqn:F.
  - injection H as <- <-. split; [lia |].
    destruct (find_custom_some _ _ _ _ F) as (c & Hc & Hz & Hf).
    exists p, c. rewrite Nat.sub_diag.
    unfold characteristic_handle_cmp in Hz, Hf.
    repeat split; [exact Hc | lia | intros j q d Hj; lia |].
    intros k d Hk Hd E. apply (Hf k d Hk Hd). lia.
  - destruct (IH (S n) pi ci H) as (Hle & q & c & Hq & Hc & Hh & Hp & Hk).
    split; [lia |]. exists q, c.
    replace (pi - n)%nat with (S (pi - S n)) by lia.
    repeat split; try assumption.
    intros [| j] r d Hj Hr Hd; cbn in Hr.
    + injection Hr as <-. intros E.
      apply find_custom_none_iff in F. apply F. apply in_map_iff.
      exists d. split; assumption.
    + apply (Hp j r d); [lia | exact Hr | exact Hd].
Qed.

(** X1.  The search of events_handler for the characteristic of a handle.
    It finds nothing exactly when no characteristic of the service has the
    handle; what it finds is a characteristic with the handle (as a 16-bit
    value), the first one of the first primary that has one. *)
Theorem find_characteristic_correct (w : world) (h : Z) :
  (find_characteristic (gatt_primary (gatt w)) h O = None <->
   ~ handle_known w (u16 h)) /\
  forall pi ci,
    find_characteristic (gatt_primary (gatt w)) h O = Some (pi, ci) ->
    exists p c,
      get_prim w pi = Some p /\ get_chr w pi ci = Some c /\
      chr_handle c = u16 h /\
      (forall j q d, (j < pi)%nat -> get_prim w j = Some q ->
                     In d (chars q) -> chr_handle d <> u16 h) /\
      (forall k d, (k < ci)%nat -> get_chr w pi k = Some d ->
                   chr_handle d <> u16 h).
Proof.
  split; [split |].
  - intros H (p & c & Hp & Hc & E).
    destruct (In_nth_error _ _ Hp) as (pi & Hpi).
    revert H Hpi. generalize O as n. generalize (gatt_primary (gatt w)) as ps.
    intros ps. revert pi.
    induction ps as [| q ps IH]; intros pi n H Hpi;
      [destruct pi; discriminate |].
    cbn in H.
    destruct (g_slist_find_custom (chars q) h characteristic_handle_cmp)
      eqn:F; [discriminate |].
    destruct pi as [| pi]; cbn in Hpi.
    + injection Hpi as ->. apply find_custom_none_iff in F. apply F.
      rewrite <- E. apply in_map. exact Hc.
    + exact (IH pi (S n) H Hpi).
  - intros H. apply find_characteristic_none.
    intros p c Hp Hc E. apply H. exists p, c. repeat split; assumption.
  - intros pi ci H.
    destruct (find_characteristic_some _ _ _ _ _ H)
      as (_ & p & c & Hp & Hc & Hh & Hf & Hk).
    rewrite Nat.sub_0_r in Hp, Hf. exists p, c. unfold get_chr, get_prim.
    rewrite Hp. repeat split; assumption.
Qed.

(** ** Value changes *)

Lemma gatt_attrib_put_prim w pi p :
  gatt_attrib (gatt (put_prim pi p w)) = gatt_attrib (gatt w).
Proof. reflexivity. Qed.

Lemma gatt_attrib_put_chr w pi ci c :
  gatt_attrib (gatt (put_chr pi ci c w)) = gatt_attrib (gatt w).
Proof. unfold put_chr. destruct (get_prim w pi); reflexivity. Qed.

Lemma trace_put_chr w pi ci c : trace (put_chr pi ci c w) = trace w.
Proof. unfold put_chr. destruct (get_prim w pi); reflexivity. Qed.

Lemma events_handler_notify_trace pi ci p chr pdu w :
  trace (events_handler_notify pi ci p chr pdu w)
  = trace w ++
    map (value_changed (fst (characteristic_set_value chr (skipn 3 pdu))))
      (watchers p).
Proof.
  unfold events_handler_notify.
  destruct (characteristic_set_value chr (skipn 3 pdu)) as [chr' r].
  rewrite update_watchers_trace, trace_put_chr. reflexivity.
Qed.

Lemma events_handler_notify_attrib pi ci p chr pdu w :
  gatt_attrib (gatt (events_handler_notify pi ci p chr pdu w))
  = gatt_attrib (gatt w).
Proof.
  unfold events_handler_notify.
  destruct (characteristic_set_value chr (skipn 3 pdu)) as [chr' r].
  rewrite update_watchers_gatt. apply gatt_attrib_put_chr.
Qed.

(** X2.  A notification (0x1B) or an indication (0x1D) that carries at
    least one byte of value for a known handle: the characteristic found
    gets the bytes after the handle as its value and their number as its
    length, every watcher of its primary is called, in the order of
    registration, with the path and the new value, and a confirmation is
    sent first for an indication and never for a notification. *)
Theorem value_change_dispatched (w : world) (pdu : bytes) (pi ci : nat)
  (p : primary) (chr : characteristic) :
  find_characteristic (gatt_primary (gatt w)) (pdu_handle pdu) O
  = Some (pi, ci) ->
  get_prim w pi = Some p ->
  nth_error (chars p) ci = Some chr ->
  nth 0 pdu 0 = ATT_OP_HANDLE_IND \/ nth 0 pdu 0 = ATT_OP_HANDLE_NOTIFY ->
  skipn 3 pdu <> [] ->
  trace (events_handler pdu w)
  = trace w ++
    (if nth 0 pdu 0 =? ATT_OP_HANDLE_IND
     then [Ev_att_send [ATT_OP_HANDLE_CNF]] else []) ++
    map (value_changed
           (set_chr_value (Some (skipn 3 pdu))
              (Z.of_nat (List.length (skipn 3 pdu))) chr)) (watchers p) /\
  get_chr (events_handler pdu w) pi ci
  = Some (set_chr_value (Some (skipn 3 pdu))
            (Z.of_nat (List.length (skipn 3 pdu))) chr).
Proof.
  intros Hf Hp Hc Hop Hv. unfold events_handler.
  assert (Hlen : (Z.of_nat (List.length pdu) <? 3) = false).
  { apply Z.ltb_ge. destruct pdu as [| a [| b [| c pdu]]]; cbn in Hv;
      try congruence. cbn [List.length]. lia. }
  rewrite Hlen. fold (pdu_handle pdu). rewrite Hf, Hp.
  assert (Hg : get_chr w pi ci = Some chr).
  { unfold get_chr. rewrite Hp. exact Hc. }
  rewrite Hg.
  assert (Hs : characteristic_set_value chr (skipn 3 pdu)
               = (set_chr_value (Some (skipn 3 pdu))
                    (Z.of_nat (List.length (skipn 3 pdu))) chr, 0)).
  { unfold characteristic_set_value. destruct (skipn 3 pdu); [congruence |].
    reflexivity. }
  assert (Hput : forall w0, gatt w0 = gatt w ->
            get_chr (events_handler_notify pi ci p chr pdu w0) pi ci
            = Some (set_chr_value (Some (skipn 3 pdu))
                      (Z.of_nat (List.length (skipn 3 pdu))) chr)).
  { intros w0 Hw0. unfold events_handler_notify. rewrite Hs.
    rewrite (get_chr_gatt _ _ pi ci (update_watchers_gatt _ _ _)).
    apply (get_put_chr w0 pi ci _ p chr); [| exact Hc].
    unfold get_prim. rewrite Hw0. exact Hp. }
  destruct Hop as [Hop | Hop]; rewrite Hop.
  - rewrite Z.eqb_refl. split; [| apply Hput; reflexivity].
    rewrite events_handler_notify_trace, Hs. cbn.
    rewrite <- app_assoc. reflexivity.
  - replace (ATT_OP_HANDLE_NOTIFY =? ATT_OP_HANDLE_IND) with false
      by reflexivity.
    rewrite Z.eqb_refl. split; [| apply Hput; reflexivity].
    rewrite events_handler_notify_trace, Hs. reflexivity.
Qed.

Lemma value_change_dispatched_witness :
  trace (events_handler [0x1B; 0x12; 0x00; 0x77; 0x78] sample_listening)
  = [Ev_dbus_send
       (Value_changed ":1.7" "/watcher"
          "/dev/service0010/characteristic0012" (Some [0x77; 0x78]) 2)] /\
  get_chr (events_handler [0x1B; 0x12; 0x00; 0x77; 0x78] sample_listening)
    0 0
  = Some (set_chr_value (Some [0x77; 0x78]) 2 sample_chr).
Proof.
  apply (value_change_dispatched sample_listening
           [0x1B; 0x12; 0x00; 0x77; 0x78] 0 0
           {| prim_att := sample_att; discovery_msg := None;
              discovery_timer := 0; prim_path := "/dev/service0010";
              chars := [sample_chr]; watchers := [sample_watcher] |}
           sample_chr).
  - reflexivity.
  - reflexivity.
  - reflexivity.
  - right. reflexivity.
  - discriminate.
Defined.

(** X3.  Whatever PDU events_handler is given, it neither takes nor
    gives up a transport reference, what it adds to the trace is at most
    one confirmation followed by ValueChanged calls only (no reply, no
    request), and the confirmation is there only when the opcode is that
    of an indication. *)
Theorem events_handler_effects (w : world) (pdu : bytes) :
  gatt_attrib (gatt (events_handler pdu w)) = gatt_attrib (gatt w) /\
  exists cnf calls,
    trace (events_handler pdu w) = trace w ++ cnf ++ calls /\
    (cnf = [] \/
     cnf = [Ev_att_send [ATT_OP_HANDLE_CNF]] /\
     nth 0 pdu 0 = ATT_OP_HANDLE_IND) /\
    forallb is_value_changed calls = true.
Proof.
  assert (Hcalls : forall c ws,
            forallb is_value_changed (map (value_changed c) ws) = true).
  { intros c ws. induction ws as [| x ws IH]; [reflexivity | exact IH]. }
  assert (Hnone : gatt_attrib (gatt w) = gatt_attrib (gatt w) /\
            exists cnf calls, trace w = trace w ++ cnf ++ calls /\
              (cnf = [] \/ cnf = [Ev_att_send [ATT_OP_HANDLE_CNF]] /\
               nth 0 pdu 0 = ATT_OP_HANDLE_IND) /\
              forallb is_value_changed calls = true).
  { split; [reflexivity |]. exists [], []. rewrite app_nil_r.
    repeat split. now left. }
  unfold events_handler.
  destruct (Z.of_nat (List.length pdu) <? 3); [exact Hnone |].
  destruct (find_characteristic _ _ _) as [[pi ci] |]; [| exact Hnone].
  destruct (get_prim w pi) as [p |]; [| exact Hnone].
  destruct (get_chr w pi ci) as [chr |]; [| exact Hnone].
  destruct (Z.eqb_spec (nth 0 pdu 0) ATT_OP_HANDLE_IND) as [E | E].
  - split; [rewrite events_handler_notify_attrib; reflexivity |].
    eexists [Ev_att_send [ATT_OP_HANDLE_CNF]], _.
    rewrite events_handler_notify_trace. cbn [trace emit].
    rewrite <- app_assoc. split; [reflexivity |].
    split; [right; split; [reflexivity | exact E] | apply Hcalls].
  - destruct (nth 0 pdu 0 =? ATT_OP_HANDLE_NOTIFY); [| exact Hnone].
    split; [rewrite events_handler_notify_attrib; reflexivity |].
    eexists [], _. rewrite events_handler_notify_trace.
    split; [reflexivity |]. split; [now left | apply Hcalls].
Qed.

(** ** What the primitive steps keep *)

Lemma prims_ref w : gatt_primary (gatt (g_attrib_ref w)) = gatt_primary (gatt w).
Proof. unfold g_attrib_ref. destruct (gatt_attrib (gatt w)); reflexivity. Qed.

Lemma prims_unref w :
  gatt_primary (gatt (g_attrib_unref w)) = gatt_primary (gatt w).
Proof.
  unfold g_attrib_unref. destruct (gatt_attrib (gatt w)) as [a |];
    [| reflexivity].
  destruct (attrib_refs a) as [| [| n]]; reflexivity.
Qed.

Lemma prims_register op w :
  gatt_primary (gatt (g_attrib_register op w)) = gatt_primary (gatt w).
Proof.
  unfold g_attrib_register. destruct (gatt_attrib (gatt w)); reflexivity.
Qed.

Lemma trace_ref w : trace (g_attrib_ref w) = trace w.
Proof. unfold g_attrib_ref. destruct (gatt_attrib (gatt w)); reflexivity. Qed.

Lemma trace_register op w : trace (g_attrib_register op w) = trace w.
Proof.
  unfold g_attrib_register. destruct (gatt_attrib (gatt w)); reflexivity.
Qed.

Lemma next_id_ref w : next_id (g_attrib_ref w) = next_id w.
Proof. unfold g_attrib_ref. destruct (gatt_attrib (gatt w)); reflexivity. Qed.

Lemma next_id_register op w : next_id (g_attrib_register op w) = next_id w.
Proof.
  unfold g_attrib_register. destruct (gatt_attrib (gatt w)); reflexivity.
Qed.

Lemma refs_unref w :
  transport_refs (g_attrib_unref w) = Nat.pred (transport_refs w).
Proof.
  unfold transport_refs, g_attrib_unref.
  destruct (gatt_attrib (gatt w)) as [a |] eqn:E; [| now rewrite E].
  destruct (attrib_refs a) as [| [| n]]; reflexivity.
Qed.

Lemma refs_register op w :
  transport_refs (g_attrib_register op w) = transport_refs w.
Proof.
  unfold transport_refs, g_attrib_register.
  destruct (gatt_attrib (gatt w)) eqn:E; [reflexivity | now rewrite E].
Qed.

Lemma refs_put_prim pi p w :
  transport_refs (put_prim pi p w) = transport_refs w.
Proof. reflexivity. Qed.

Lemma refs_put_chr pi ci c w :
  transport_refs (put_chr pi ci c w) = transport_refs w.
Proof. unfold put_chr. destruct (get_prim w pi); reflexivity. Qed.

Lemma get_prim_prims w w' pi :
  gatt_primary (gatt w) = gatt_primary (gatt w') ->
  get_prim w pi = get_prim w' pi.
Proof. unfold get_prim. now intros ->. Qed.

(** l2cap_connect: what a success and a failure leave. *)
Lemma l2cap_connect_spec listen w :
  gatt_primary (gatt (snd (l2cap_connect listen w)))
  = gatt_primary (gatt w) /\
  next_id (snd (l2cap_connect listen w)) = next_id w /\
  (fst (l2cap_connect listen w) = true ->
   transport_refs (snd (l2cap_connect listen w)) = S (transport_refs w) /\
   gatt_attrib (gatt (snd (l2cap_connect listen w))) <> None /\
   gatt_listen (gatt (snd (l2cap_connect listen w))) = listen) /\
  (fst (l2cap_connect listen w) = false ->
   gatt (snd (l2cap_connect listen w)) = gatt w) /\
  (gatt_attrib (gatt w) <> None ->
   fst (l2cap_connect listen w) = true /\
   trace (snd (l2cap_connect listen w)) = trace w).
Proof.
  unfold l2cap_connect, transport_refs, g_attrib_ref.
  destruct (gatt_attrib (gatt w)) as [a |] eqn:Ea; cbn [fst snd].
  - cbn. rewrite ?Ea. repeat split; try discriminate.
  - destruct (connect_ok w); cbn; rewrite ?Ea;
      repeat split; try discriminate; try congruence.
Qed.

(** A failed l2cap_connect leaves nothing but the attempt. *)
Lemma l2cap_connect_fails listen w :
  fst (l2cap_connect listen w) = false ->
  snd (l2cap_connect listen w) = emit Ev_bt_io_connect w.
Proof.
  unfold l2cap_connect. destruct (gatt_attrib (gatt w)); [discriminate |].
  destruct (connect_ok w); [discriminate | reflexivity].
Qed.

(** X4.  l2cap_connect takes exactly one reference when it succeeds (the
    count is one higher, or 1 on a transport it just opened) and then
    sets the listen flag as asked; when it fails the service is as
    before; it never touches the primaries; and when the service has a
    transport it succeeds without opening a connection. *)
Theorem l2cap_connect_takes_one_reference (listen : bool) (w : world) :
  gatt_primary (gatt (snd (l2cap_connect listen w)))
  = gatt_primary (gatt w) /\
  (fst (l2cap_connect listen w) = true ->
   transport_refs (snd (l2cap_connect listen w)) = S (transport_refs w) /\
   gatt_listen (gatt (snd (l2cap_connect listen w))) = listen) /\
  (fst (l2cap_connect listen w) = false ->
   gatt (snd (l2cap_connect listen w)) = gatt w) /\
  (gatt_attrib (gatt w) <> None ->
   fst (l2cap_connect listen w) = true /\
   trace (snd (l2cap_connect listen w)) = trace w).
Proof.
  destruct (l2cap_connect_spec listen w) as (H1 & _ & H2 & H3 & H4).
  repeat split; try assumption.
  - apply H2. assumption.
  - apply H2. assumption.
  - apply H4. assumption.
  - apply H4. assumption.
Qed.

(** ** Watchers *)

Lemma watcher_cmp_zero a b :
  watcher_cmp a b = 0 <->
  watcher_name a = watcher_name b /\ watcher_path a = watcher_path b.
Proof.
  unfold watcher_cmp.
  destruct (String.eqb_spec (watcher_name a) (watcher_name b)) as [E | E];
    [destruct (String.eqb_spec (watcher_path a) (watcher_path b))
       as [F | F] |]; split; try tauto; try discriminate.
Qed.

Lemma find_watcher_none ws m :
  (forall x, In x ws ->
             ~ (watcher_name x = watcher_name m /\
                watcher_path x = watcher_path m)) ->
  g_slist_find_custom ws m watcher_cmp = None.
Proof.
  induction ws as [| x ws IH]; intros H; cbn; [reflexivity |].
  destruct (Z.eqb_spec (watcher_cmp x m) 0) as [E | E].
  - exfalso. apply (H x); [now left | apply watcher_cmp_zero; exact E].
  - rewrite IH; [reflexivity |]. intros y Hy. apply H. now right.
Qed.

Lemma find_watcher_last ws wt m :
  (forall x, In x ws ->
             ~ (watcher_name x = watcher_name m /\
                watcher_path x = watcher_path m)) ->
  watcher_name wt = watcher_name m -> watcher_path wt = watcher_path m ->
  g_slist_find_custom (ws ++ [wt]) m watcher_cmp = Some (List.length ws).
Proof.
  intros H Hn Hp. induction ws as [| x ws IH]; cbn.
  - replace (watcher_cmp wt m) with 0; [reflexivity |].
    symmetry. apply watcher_cmp_zero. now split.
  - destruct (Z.eqb_spec (watcher_cmp x m) 0) as [E | E].
    + exfalso. apply (H x); [now left | apply watcher_cmp_zero; exact E].
    + rewrite IH; [reflexivity |]. intros y Hy. apply H. now right.
Qed.

Lemma remove_watcher_last ws wt :
  (forall x, In x ws -> watcher_id x <> watcher_id wt) ->
  remove_watcher (ws ++ [wt]) (watcher_id wt) = ws.
Proof.
  induction ws as [| x ws IH]; intros H; cbn.
  - now rewrite Z.eqb_refl.
  - destruct (Z.eqb_spec (watcher_id x) (watcher_id wt)) as [E | E].
    + exfalso. apply (H x); [now left | exact E].
    + f_equal. apply IH. intros y Hy. apply H. now right.
Qed.

(** X5.  UnregisterCharacteristicsWatcher for a sender and path that no
    watcher of the primary has is refused with "not authorized" and
    changes nothing. *)
Theorem unregister_unknown_watcher (msg : DBusMessage) (path : string)
  (rest : list dbus_arg) (pi : nat) (p : primary) (w : world) :
  msg_args msg = Arg_object_path path :: rest ->
  get_prim w pi = Some p ->
  (forall x, In x (watchers p) ->
             ~ (watcher_name x = msg_sender msg /\ watcher_path x = path)) ->
  unregister_watcher msg pi w = (Some (Error_not_authorized msg), w).
Proof.
  intros Ha Hp H. unfold unregister_watcher. rewrite Ha, Hp.
  rewrite find_watcher_none; [reflexivity | exact H].
Qed.

Lemma unregister_unknown_watcher_witness :
  unregister_watcher
    {| msg_sender := ":1.9"; msg_member := "UnregisterCharacteristicsWatcher";
       msg_args := [Arg_object_path "/watcher"] |} 0 sample_listening
  = (Some (Error_not_authorized
             {| msg_sender := ":1.9";
                msg_member := "UnregisterCharacteristicsWatcher";
                msg_args := [Arg_object_path "/watcher"] |}),
     sample_listening).
Proof.
  apply (unregister_unknown_watcher _ "/watcher" [] 0
           {| prim_att := sample_att; discovery_msg := None;
              discovery_timer := 0; prim_path := "/dev/service0010";
              chars := [sample_chr]; watchers := [sample_watcher] |}).
  - reflexivity.
  - reflexivity.
  - intros x [<- | []] [Hn _]. discriminate.
Defined.

(** X6.  Registering a watcher and unregistering it again.  When the
    transport is there or can be opened, no watcher of the primary has the
    sender and path of the request, and the identifier glib hands out is
    not in use, both calls succeed, the watcher list of the primary is
    what it was, and so is the number of transport references. *)
Theorem register_then_unregister (msg : DBusMessage) (path : string)
  (rest : list dbus_arg) (pi : nat) (p : primary) (w : world) :
  msg_args msg = Arg_object_path path :: rest ->
  get_prim w pi = Some p ->
  fst (l2cap_connect true w) = true ->
  (forall x, In x (watchers p) ->
             ~ (watcher_name x = msg_sender msg /\ watcher_path x = path)) ->
  (forall x, In x (watchers p) -> watcher_id x <> Z.max 1 (next_id w)) ->
  fst (register_watcher msg pi w) = Some (Method_return msg []) /\
  option_map watchers (get_prim (snd (register_watcher msg pi w)) pi)
  = Some (watchers p ++
          [ {| watcher_id := Z.max 1 (next_id w);
               watcher_name := msg_sender msg; watcher_path := path |} ]) /\
  fst (unregister_watcher msg pi (snd (register_watcher msg pi w)))
  = Some (Method_return msg []) /\
  option_map watchers
    (get_prim (snd (unregister_watcher msg pi
                      (snd (register_watcher msg pi w)))) pi)
  = Some (watchers p) /\
  transport_refs (snd (unregister_watcher msg pi
                         (snd (register_watcher msg pi w))))
  = transport_refs w.
Proof.
  intros Ha Hp Hok Hsame Hid.
  destruct (l2cap_connect_spec true w) as (Hprims & Hnext & Hrefs & _ & _).
  destruct (Hrefs Hok) as (Hr & _ & _). clear Hrefs.
  set (wt := {| watcher_id := Z.max 1 (next_id w);
                watcher_name := msg_sender msg; watcher_path := path |}).
  assert (Hreg : register_watcher msg pi w
    = (Some (Method_return msg []),
       g_attrib_unref
         (put_prim pi (set_watchers (watchers p ++ [wt]) p)
            (set_next_id (Z.max 1 (next_id w) + 1)
               (emit (Ev_add_disconnect_watch (Z.max 1 (next_id w))
                        (msg_sender msg))
                  (g_attrib_register ATT_OP_HANDLE_IND
                     (g_attrib_register ATT_OP_HANDLE_NOTIFY
                        (snd (l2cap_connect true w))))))))).
  { unfold register_watcher. rewrite Ha.
    destruct (l2cap_connect true w) as [ok w1]. cbn [fst snd] in *.
    subst ok. rewrite !next_id_register, Hnext.
    replace (get_prim _ pi) with (Some p); [reflexivity |].
    rewrite <- Hp. symmetry. apply get_prim_prims. cbn.
    rewrite !prims_register. exact Hprims. }
  rewrite Hreg. cbn [fst snd].
  set (w3 := set_next_id _ _) in *.
  assert (Hp3 : get_prim w3 pi = Some p).
  { rewrite <- Hp. apply get_prim_prims. subst w3. cbn.
    rewrite !prims_register. exact Hprims. }
  assert (Hp4 : get_prim
                  (g_attrib_unref
                     (put_prim pi (set_watchers (watchers p ++ [wt]) p) w3))
                  pi
                = Some (set_watchers (watchers p ++ [wt]) p)).
  { rewrite get_prim_unref. eapply get_put_prim. exact Hp3. }
  split; [reflexivity |]. split; [rewrite Hp4; reflexivity |].
  unfold unregister_watcher. rewrite Ha, Hp4. cbn [watchers set_watchers].
  rewrite (find_watcher_last (watchers p) wt); try reflexivity;
    [| exact Hsame].
  rewrite nth_error_last. cbn [fst snd].
  split; [reflexivity |]. split.
  - erewrite get_put_prim; [| rewrite get_prim_emit; exact Hp4].
    cbn [option_map watchers set_watchers]. f_equal.
    apply (remove_watcher_last (watchers p) wt). exact Hid.
  - rewrite refs_put_prim.
    change (transport_refs (emit ?e ?x)) with (transport_refs x).
    rewrite refs_unref, refs_put_prim. subst w3.
    change (transport_refs (set_next_id ?n (emit ?e ?x)))
      with (transport_refs x).
    rewrite !refs_register, Hr. reflexivity.
Qed.

Lemma register_then_unregister_witness :
  option_map watchers
    (get_prim (snd (unregister_watcher
                      {| msg_sender := ":1.9"; msg_member := "";
                         msg_args := [Arg_object_path "/w2"] |} 0
                      (snd (register_watcher
                              {| msg_sender := ":1.9"; msg_member := "";
                                 msg_args := [Arg_object_path "/w2"] |} 0
                              sample_listening)))) 0)
  = Some [sample_watcher].
Proof.
  apply (register_then_unregister
           {| msg_sender := ":1.9"; msg_member := "";
              msg_args := [Arg_object_path "/w2"] |} "/w2" [] 0
           {| prim_att := sample_att; discovery_msg := None;
              discovery_timer := 0; prim_path := "/dev/service0010";
              chars := [sample_chr]; watchers := [sample_watcher] |}
           sample_listening).
  - reflexivity.
  - reflexivity.
  - reflexivity.
  - intros x [<- | []] [Hn _]. discriminate.
  - intros x [<- | []]. discriminate.
Defined.

(** ** Reading and writing a value *)

Lemma get_prim_put_chr w pi ci c p :
  get_prim w pi = Some p ->
  get_prim (put_chr pi ci c w) pi
  = Some (set_chars (list_set (chars p) ci c) p).
Proof.
  intros Hp. unfold put_chr. rewrite Hp. eapply get_put_prim. exact Hp.
Qed.

Lemma get_chr_unref w pi ci :
  get_chr (g_attrib_unref w) pi ci = get_chr w pi ci.
Proof. unfold get_chr. now rewrite get_prim_unref. Qed.

Lemma get_chr_emit e w pi ci : get_chr (emit e w) pi ci = get_chr w pi ci.
Proof. reflexivity. Qed.

Lemma get_chr_some w pi ci p chr :
  get_prim w pi = Some p -> nth_error (chars p) ci = Some chr ->
  get_chr w pi ci = Some chr.
Proof. intros Hp Hc. unfold get_chr. now rewrite Hp. Qed.

(** The end of update_char_value when no discovery is pending and a
    caller waits for the characteristic. *)
Lemma update_char_value_done_reply status current w p chr m :
  get_prim w (q_prim current) = Some p ->
  discovery_msg p = None ->
  nth_error (chars p) (q_chr current) = Some chr ->
  chr_msg chr = Some m ->
  update_char_value_done status current w
  = g_attrib_unref
      (put_chr (q_prim current) (q_chr current) (set_chr_msg None chr)
         (emit (Ev_dbus_send
                  (if status =? 0 then Method_return m []
                   else Error_failed m
                          (Text "Update characteristic value failed"))) w)).
Proof.
  intros Hp Hd Hc Hm. unfold update_char_value_done.
  rewrite Hp, (get_chr_some w _ _ p chr Hp Hc), Hd, Hm. reflexivity.
Qed.

(** X7.  UpdateValue and its answer, on a primary with no discovery
    pending.  When l2cap_connect fails (the service has no transport and
    no connection can be opened) fetch_value returns a failure at once
    and nothing but the connection attempt has happened.  When it
    succeeds (the transport is there or can be opened), fetch_value
    returns no reply and puts one read of the value handle on the
    transport; when the Read Response arrives with at least one byte of
    value, the characteristic holds that value, the caller gets the
    method return, and the number of transport references is what it was
    before the call. *)
Theorem read_value_round (msg : DBusMessage) (pi ci : nat) (p : primary)
  (chr : characteristic) (op : Z) (value : bytes) (w : world) :
  get_prim w pi = Some p ->
  discovery_msg p = None ->
  nth_error (chars p) ci = Some chr ->
  value <> [] ->
  (fst (l2cap_connect false w) = false ->
   fetch_value msg pi ci w
   = (Some (Error_failed msg Gerr_message), emit Ev_bt_io_connect w)) /\
  (fst (l2cap_connect false w) = true ->
   fst (fetch_value msg pi ci w) = None /\
   trace (snd (fetch_value msg pi ci w))
   = trace (snd (l2cap_connect false w)) ++
     [Ev_att_request (Req_read_char (chr_handle chr)) CB_update_char_value
        (new_query pi ci)] /\
   trace (update_char_value 0 (op :: value) (new_query pi ci)
            (snd (fetch_value msg pi ci w)))
   = trace (snd (fetch_value msg pi ci w)) ++
     [Ev_dbus_send (Method_return msg [])] /\
   get_chr (update_char_value 0 (op :: value) (new_query pi ci)
              (snd (fetch_value msg pi ci w))) pi ci
   = Some (set_chr_msg None
             (set_chr_value (Some value) (Z.of_nat (List.length value)) chr))
   /\
   transport_refs (update_char_value 0 (op :: value) (new_query pi ci)
                     (snd (fetch_value msg pi ci w)))
   = transport_refs w).
Proof.
  intros Hp Hd Hc Hv. split.
  { intros Hfail. pose proof (l2cap_connect_fails false w Hfail) as Hw.
    unfold fetch_value. destruct (l2cap_connect false w) as [ok w1].
    cbn [fst snd] in *. subst ok w1. reflexivity. }
  intros Hok.
  destruct (l2cap_connect_spec false w) as (Hprims & _ & Hrefs & _ & _).
  destruct (Hrefs Hok) as (Hr & _ & _). clear Hrefs.
  unfold fetch_value.
  destruct (l2cap_connect false w) as [ok w1]. cbn [fst snd] in *. subst ok.
  assert (Hp1 : get_prim w1 pi = Some p).
  { rewrite <- Hp. apply get_prim_prims. exact Hprims. }
  rewrite (get_chr_some w1 pi ci p chr Hp1 Hc). cbn [fst snd].
  split; [reflexivity |]. split; [cbn; now rewrite trace_put_chr |].
  set (chr1 := set_chr_msg (Some msg) chr).
  set (w2 := emit _ (put_chr pi ci chr1 w1)).
  assert (Hp2 : get_prim w2 pi
                = Some (set_chars (list_set (chars p) ci chr1) p)).
  { subst w2. rewrite get_prim_emit. apply get_prim_put_chr. exact Hp1. }
  assert (Hlt : (ci < List.length (chars p))%nat).
  { apply nth_error_Some. congruence. }
  assert (Hc2 : get_chr w2 pi ci = Some chr1).
  { eapply get_chr_some; [exact Hp2 |]. cbn [chars set_chars].
    apply nth_error_list_set_same. exact Hlt. }
  unfold update_char_value. cbn [q_prim q_chr new_query].
  rewrite Hc2. cbn [Z.eqb tl].
  assert (Hs : characteristic_set_value chr1 value
               = (set_chr_value (Some value)
                    (Z.of_nat (List.length value)) chr1, 0)).
  { unfold characteristic_set_value. destruct value; [congruence |].
    reflexivity. }
  rewrite Hs. cbn [fst].
  set (chr2 := set_chr_value _ _ chr1).
  assert (Hp3 : get_prim (put_chr pi ci chr2 w2) pi
                = Some (set_chars
                          (list_set (list_set (chars p) ci chr1) ci chr2) p)).
  { rewrite (get_prim_put_chr w2 pi ci chr2 _ Hp2). reflexivity. }
  rewrite (update_char_value_done_reply 0 (new_query pi ci) _ _ chr2 msg
             Hp3 Hd); [| | reflexivity].
  2:{ cbn [chars set_chars]. apply nth_error_list_set_same.
      rewrite list_set_length. exact Hlt. }
  cbn [q_prim q_chr new_query Z.eqb].
  split.
  { rewrite trace_unref, trace_put_chr. cbn [trace emit].
    rewrite trace_put_chr. reflexivity. }
  split.
  - rewrite get_chr_unref.
    eapply get_put_chr; [rewrite get_prim_emit; exact Hp3 |].
    cbn [chars set_chars]. apply nth_error_list_set_same.
    rewrite list_set_length. exact Hlt.
  - rewrite refs_unref, refs_put_chr.
    change (transport_refs (emit ?e ?x)) with (transport_refs x).
    rewrite refs_put_chr. subst w2.
    change (transport_refs (emit ?e ?x)) with (transport_refs x).
    rewrite refs_put_chr, Hr. reflexivity.
Qed.

Lemma read_value_round_witness :
  get_chr (update_char_value 0 [0x0B; 0x99] (new_query 0 0)
             (snd (fetch_value update_value_msg 0 0 sample_listening))) 0 0
  = Some (set_chr_msg None (set_chr_value (Some [0x99]) 1 sample_chr)).
Proof.
  destruct (read_value_round update_value_msg 0 0
              {| prim_att := sample_att; discovery_msg := None;
                 discovery_timer := 0; prim_path := "/dev/service0010";
                 chars := [sample_chr]; watchers := [sample_watcher] |}
              sample_chr 0x0B [0x99] sample_listening)
    as (_ & H).
  - reflexivity.
  - reflexivity.
  - reflexivity.
  - discriminate.
  - destruct (H (eq_refl _)) as (_ & _ & _ & Hc & _). exact Hc.
Defined.

Lemma sec_high_unref w : sec_high (g_attrib_unref w) = sec_high w.
Proof.
  unfold g_attrib_unref. destruct (gatt_attrib (gatt w)) as [a |];
    [| reflexivity].
  destruct (attrib_refs a) as [| [| n]]; reflexivity.
Qed.

Lemma sec_high_put_chr pi ci c w : sec_high (put_chr pi ci c w) = sec_high w.
Proof. unfold put_chr. destruct (get_prim w pi); reflexivity. Qed.

(** X8.  A read that fails.  When no discovery is pending, a caller
    waits for the characteristic, and the status is an error that is not
    retried (not a security error, or one the channel answers by refusing
    the level HIGH), the caller gets "Update characteristic value failed",
    the characteristic keeps its value and forgets the caller, and one
    transport reference is given back. *)
Theorem read_failure_reply (status : Z) (pdu : bytes)
  (current : query_data) (p : primary) (chr : characteristic)
  (m : DBusMessage) (w : world) :
  get_prim w (q_prim current) = Some p ->
  discovery_msg p = None ->
  nth_error (chars p) (q_chr current) = Some chr ->
  chr_msg chr = Some m ->
  status <> 0 ->
  is_security_error status = false \/ io_set_ok w = false ->
  trace (update_char_value status pdu current w)
  = trace w ++
    (if is_security_error status then [Ev_bt_io_set_sec_high] else []) ++
    [Ev_dbus_send
       (Error_failed m (Text "Update characteristic value failed"))] /\
  get_chr (update_char_value status pdu current w) (q_prim current)
    (q_chr current)
  = Some (set_chr_msg None chr) /\
  transport_refs (update_char_value status pdu current w)
  = Nat.pred (transport_refs w) /\
  sec_high (update_char_value status pdu current w) = sec_high w.
Proof.
  intros Hp Hd Hc Hm Hst Hno. unfold update_char_value.
  rewrite (get_chr_some w _ _ p chr Hp Hc).
  apply Z.eqb_neq in Hst. rewrite Hst.
  assert (Hdone : forall w0,
            gatt w0 = gatt w ->
            trace (update_char_value_done status current w0)
            = trace w0 ++
              [Ev_dbus_send
                 (Error_failed m
                    (Text "Update characteristic value failed"))] /\
            get_chr (update_char_value_done status current w0)
              (q_prim current) (q_chr current)
            = Some (set_chr_msg None chr) /\
            transport_refs (update_char_value_done status current w0)
            = Nat.pred (transport_refs w) /\
            sec_high (update_char_value_done status current w0)
            = sec_high w0).
  { intros w0 Hg.
    assert (Hp0 : get_prim w0 (q_prim current) = Some p).
    { unfold get_prim. rewrite Hg. exact Hp. }
    rewrite (update_char_value_done_reply status current w0 p chr m Hp0 Hd
               Hc Hm), Hst.
    rewrite trace_unref, trace_put_chr, get_chr_unref, refs_unref,
      refs_put_chr.
    split; [reflexivity |]. split; [| split].
    - eapply get_put_chr; [rewrite get_prim_emit; exact Hp0 | exact Hc].
    - unfold transport_refs. cbn. now rewrite Hg.
    - rewrite sec_high_unref, sec_high_put_chr. reflexivity. }
  destruct (is_security_error status) eqn:Es.
  - destruct Hno as [Hno | Hno]; [discriminate |].
    unfold bt_io_set_sec_high. rewrite Hno.
    destruct (Hdone (emit Ev_bt_io_set_sec_high w) eq_refl)
      as (H1 & H2 & H3 & H4).
    rewrite H1, H2, H3, H4. cbn. rewrite <- app_assoc. repeat split.
  - destruct (Hdone w eq_refl) as (H1 & H2 & H3 & H4).
    rewrite H1, H2, H3, H4. repeat split.
Qed.

Lemma read_failure_reply_witness :
  trace (update_char_value 0x0A [] (new_query 0 0) read_issued)
  = trace read_issued ++
    [Ev_dbus_send
       (Error_failed update_value_msg
          (Text "Update characteristic value failed"))].
Proof.
  apply (read_failure_reply 0x0A [] (new_query 0 0)
           {| prim_att := sample_att; discovery_msg := None;
              discovery_timer := 0; prim_path := "/dev/service0010";
              chars := [set_chr_msg (Some update_value_msg) sample_chr];
              watchers := [sample_watcher] |}
           (set_chr_msg (Some update_value_msg) sample_chr)
           update_value_msg read_issued).
  - reflexivity.
  - reflexivity.
  - reflexivity.
  - reflexivity.
  - discriminate.
  - left. reflexivity.
Defined.

Lemma l2cap_connect_io listen w :
  io_set_ok (snd (l2cap_connect listen w)) = io_set_ok w.
Proof.
  unfold l2cap_connect, g_attrib_ref.
  destruct (gatt_attrib (gatt w)); [reflexivity |].
  destruct (connect_ok w); reflexivity.
Qed.

(** The world after set_value or set_cli_conf has issued its write. *)
Lemma set_bytes_issued target cb msg value pi ci w p chr :
  get_prim w pi = Some p ->
  nth_error (chars p) ci = Some chr ->
  fst (l2cap_connect false w) = true ->
  exists w1,
    set_bytes target cb msg (Arg_variant_bytes value) pi ci w
    = (None,
       emit (Ev_att_request (Req_write_char (target chr) value) cb
               (write_query pi ci value))
         (put_chr pi ci (set_chr_msg (Some msg) chr) w1)) /\
    w1 = snd (l2cap_connect false w) /\
    get_prim w1 pi = Some p /\
    transport_refs w1 = S (transport_refs w) /\
    io_set_ok w1 = io_set_ok w.
Proof.
  intros Hp Hc Hok.
  destruct (l2cap_connect_spec false w) as (Hprims & _ & Hrefs & _ & _).
  destruct (Hrefs Hok) as (Hr & _ & _). clear Hrefs.
  pose proof (l2cap_connect_io false w) as Hio.
  exists (snd (l2cap_connect false w)).
  unfold set_bytes. rewrite (get_chr_some w pi ci p chr Hp Hc).
  destruct (l2cap_connect false w) as [ok w1]. cbn [fst snd] in *. subst ok.
  repeat split; try assumption.
  rewrite <- Hp. apply get_prim_prims. exact Hprims.
Qed.

(** SetProperty on "Value" or "ClientConfiguration" when l2cap_connect
    fails. *)
Lemma set_bytes_refused msg property value rest pi ci w p chr :
  msg_args msg = Arg_string property :: Arg_variant_bytes value :: rest ->
  property = "Value"%string \/ property = "ClientConfiguration"%string ->
  get_prim w pi = Some p ->
  nth_error (chars p) ci = Some chr ->
  fst (l2cap_connect false w) = false ->
  set_property msg pi ci w
  = (Some (Error_failed msg Gerr_message), emit Ev_bt_io_connect w).
Proof.
  intros Ha Hprop Hp Hc Hfail.
  pose proof (l2cap_connect_fails false w Hfail) as Hw.
  unfold set_property. rewrite Ha.
  destruct Hprop as [-> | ->];
    cbn [String.eqb Ascii.eqb Bool.eqb];
    unfold set_value, set_cli_conf, set_bytes;
    rewrite (get_chr_some w pi ci p chr Hp Hc);
    destruct (l2cap_connect false w) as [ok w1]; cbn [fst snd] in *;
    subst ok w1; reflexivity.
Qed.

(** X9.  Writing a value and its answer: SetProperty "Value" with a byte
    array of at least one byte.  When l2cap_connect fails (no transport
    and no connection can be opened) the call returns a failure at once
    and nothing but the connection attempt has happened.  When it
    succeeds, the call returns no reply and puts one write of exactly
    these bytes to the value handle on the transport; when the Write
    Response arrives the characteristic holds the bytes, the caller gets
    the method return, and the number of transport references is what it
    was before the call. *)
Theorem write_value_round (msg : DBusMessage) (value : bytes)
  (rest : list dbus_arg) (pi ci : nat) (p : primary)
  (chr : characteristic) (w : world) :
  msg_args msg = Arg_string "Value" :: Arg_variant_bytes value :: rest ->
  get_prim w pi = Some p ->
  nth_error (chars p) ci = Some chr ->
  value <> [] ->
  (fst (l2cap_connect false w) = false ->
   set_property msg pi ci w
   = (Some (Error_failed msg Gerr_message), emit Ev_bt_io_connect w)) /\
  (fst (l2cap_connect false w) = true ->
   fst (set_property msg pi ci w) = None /\
   trace (snd (set_property msg pi ci w))
   = trace (snd (l2cap_connect false w)) ++
     [Ev_att_request (Req_write_char (chr_handle chr) value)
        CB_gatt_write_char_resp (write_query pi ci value)] /\
   trace (gatt_write_char_resp 0 (write_query pi ci value)
            (snd (set_property msg pi ci w)))
   = trace (snd (set_property msg pi ci w)) ++
     [Ev_dbus_send (Method_return msg [])] /\
   get_chr (gatt_write_char_resp 0 (write_query pi ci value)
              (snd (set_property msg pi ci w))) pi ci
   = Some (set_chr_msg None
             (set_chr_value (Some value) (Z.of_nat (List.length value)) chr))
   /\
   transport_refs (gatt_write_char_resp 0 (write_query pi ci value)
                     (snd (set_property msg pi ci w)))
   = transport_refs w).
Proof.
  intros Ha Hp Hc Hv. split.
  { intros Hfail.
    apply (set_bytes_refused msg "Value" value rest pi ci w p chr);
      try assumption.
    now left. }
  intros Hok.
  destruct (set_bytes_issued chr_handle CB_gatt_write_char_resp msg value
              pi ci w p chr Hp Hc Hok) as (w1 & Hset & Hw1 & Hp1 & Hr & _).
  unfold set_property. rewrite Ha. cbn [String.eqb Ascii.eqb Bool.eqb].
  unfold set_value. rewrite Hset. cbn [fst snd]. rewrite <- Hw1.
  split; [reflexivity |]. split; [cbn; now rewrite trace_put_chr |].
  set (chr1 := set_chr_msg (Some msg) chr).
  set (w2 := emit _ (put_chr pi ci chr1 w1)).
  assert (Hlt : (ci < List.length (chars p))%nat).
  { apply nth_error_Some. congruence. }
  assert (Hp2 : get_prim w2 pi
                = Some (set_chars (list_set (chars p) ci chr1) p)).
  { subst w2. rewrite get_prim_emit. apply get_prim_put_chr. exact Hp1. }
  assert (Hc2 : get_chr w2 pi ci = Some chr1).
  { eapply get_chr_some; [exact Hp2 |]. cbn [chars set_chars].
    apply nth_error_list_set_same. exact Hlt. }
  unfold gatt_write_char_resp. cbn [q_prim q_chr write_query].
  rewrite Hc2. cbn [Z.eqb chr_msg chr1 set_chr_msg].
  assert (Hmv : msg_value msg = value).
  { unfold msg_value. now rewrite Ha. }
  rewrite Hmv.
  assert (Hs : characteristic_set_value chr1 value
               = (set_chr_value (Some value)
                    (Z.of_nat (List.length value)) chr1, 0)).
  { unfold characteristic_set_value. destruct value; [congruence |].
    reflexivity. }
  rewrite Hs. cbn [fst].
  split.
  { rewrite trace_unref, trace_put_chr. reflexivity. }
  split.
  - rewrite get_chr_unref.
    eapply get_put_chr; [rewrite get_prim_emit; exact Hp2 |].
    cbn [chars set_chars]. apply nth_error_list_set_same. exact Hlt.
  - rewrite refs_unref, refs_put_chr.
    change (transport_refs (emit ?e ?x)) with (transport_refs x).
    subst w2.
    change (transport_refs (emit ?e ?x)) with (transport_refs x).
    rewrite refs_put_chr, Hr. reflexivity.
Qed.

Lemma write_value_round_witness :
  get_chr (gatt_write_char_resp 0 (write_query 0 0 [0x01; 0x02])
             (snd (set_property
                     {| msg_sender := ":1.5"; msg_member := "SetProperty";
                        msg_args := [Arg_string "Value";
                                     Arg_variant_bytes [0x01; 0x02]] |}
                     0 0 sample_listening))) 0 0
  = Some (set_chr_msg None (set_chr_value (Some [0x01; 0x02]) 2 sample_chr)).
Proof.
  destruct (write_value_round
              {| msg_sender := ":1.5"; msg_member := "SetProperty";
                 msg_args := [Arg_string "Value";
                              Arg_variant_bytes [0x01; 0x02]] |}
              [0x01; 0x02] [] 0 0
              {| prim_att := sample_att; discovery_msg := None;
                 discovery_timer := 0; prim_path := "/dev/service0010";
                 chars := [sample_chr]; watchers := [sample_watcher] |}
              sample_chr sample_listening)
    as (_ & H).
  - reflexivity.
  - reflexivity.
  - reflexivity.
  - discriminate.
  - destruct (H (eq_refl _)) as (_ & _ & _ & Hc & _). exact Hc.
Defined.

(** X10.  A write that fails with an error that is not a security error:
    for a value write and for a client configuration write alike, the
    waiting caller gets "invalid arguments", the characteristic is
    unchanged except that it forgets the caller, and one transport
    reference is given back. *)
Theorem write_failure_reply (status : Z) (current : query_data)
  (p : primary) (chr : characteristic) (m : DBusMessage) (w : world) :
  get_prim w (q_prim current) = Some p ->
  nth_error (chars p) (q_chr current) = Some chr ->
  chr_msg chr = Some m ->
  status <> 0 ->
  is_security_error status = false ->
  (trace (gatt_write_char_resp status current w)
   = trace w ++ [Ev_dbus_send (Error_invalid_args m)] /\
   get_chr (gatt_write_char_resp status current w) (q_prim current)
     (q_chr current) = Some (set_chr_msg None chr) /\
   transport_refs (gatt_write_char_resp status current w)
   = Nat.pred (transport_refs w)) /\
  (trace (gatt_write_cli_conf_resp status current w)
   = trace w ++ [Ev_dbus_send (Error_invalid_args m)] /\
   get_chr (gatt_write_cli_conf_resp status current w) (q_prim current)
     (q_chr current) = Some (set_chr_msg None chr) /\
   transport_refs (gatt_write_cli_conf_resp status current w)
   = Nat.pred (transport_refs w)).
Proof.
  intros Hp Hc Hm Hst Hs. apply Z.eqb_neq in Hst.
  unfold gatt_write_char_resp, gatt_write_cli_conf_resp.
  rewrite (get_chr_some w _ _ p chr Hp Hc), Hst, Hs, Hm.
  rewrite trace_unref, trace_put_chr, get_chr_unref, refs_unref,
    refs_put_chr.
  assert (G : get_chr
                (put_chr (q_prim current) (q_chr current)
                   (set_chr_msg None chr)
                   (emit (Ev_dbus_send (Error_invalid_args m)) w))
                (q_prim current) (q_chr current)
              = Some (set_chr_msg None chr)).
  { eapply get_put_chr; [rewrite get_prim_emit; exact Hp | exact Hc]. }
  repeat split; assumption.
Qed.

Lemma write_failure_reply_witness :
  trace (gatt_write_char_resp 0x03 (new_query 0 0) read_issued)
  = trace read_issued ++ [Ev_dbus_send (Error_invalid_args update_value_msg)].
Proof.
  apply (write_failure_reply 0x03 (new_query 0 0)
           {| prim_att := sample_att; discovery_msg := None;
              discovery_timer := 0; prim_path := "/dev/service0010";
              chars := [set_chr_msg (Some update_value_msg) sample_chr];
              watchers := [sample_watcher] |}
           (set_chr_msg (Some update_value_msg) sample_chr)
           update_value_msg read_issued).
  - reflexivity.
  - reflexivity.
  - reflexivity.
  - discriminate.
  - reflexivity.
Defined.

(** X11.  A write that fails with a security error while the channel
    refuses the level HIGH: the write callbacks give their transport
    reference back and do nothing else.  No reply is sent, and the
    characteristic still holds the message of the caller. *)
Theorem write_refused_gets_no_reply (status : Z) (current : query_data)
  (chr : characteristic) (w : world) :
  get_chr w (q_prim current) (q_chr current) = Some chr ->
  is_security_error status = true ->
  io_set_ok w = false ->
  gatt_write_char_resp status current w
  = g_attrib_unref (emit Ev_bt_io_set_sec_high w) /\
  gatt_write_cli_conf_resp status current w
  = g_attrib_unref (emit Ev_bt_io_set_sec_high w) /\
  filter is_reply (trace (gatt_write_char_resp status current w))
  = filter is_reply (trace w) /\
  get_chr (gatt_write_char_resp status current w) (q_prim current)
    (q_chr current) = Some chr.
Proof.
  intros Hc Hs Hio.
  assert (E1 : gatt_write_char_resp status current w
               = g_attrib_unref (emit Ev_bt_io_set_sec_high w)).
  { unfold gatt_write_char_resp.
    rewrite Hc, (security_error_nonzero status Hs), Hs.
    unfold bt_io_set_sec_high. now rewrite Hio. }
  assert (E2 : gatt_write_cli_conf_resp status current w
               = g_attrib_unref (emit Ev_bt_io_set_sec_high w)).
  { unfold gatt_write_cli_conf_resp.
    rewrite Hc, (security_error_nonzero status Hs), Hs.
    unfold bt_io_set_sec_high. now rewrite Hio. }
  repeat split; try assumption.
  - rewrite E1, trace_unref. cbn [trace emit].
    rewrite filter_app. cbn. now rewrite app_nil_r.
  - rewrite E1, get_chr_unref. exact Hc.
Qed.

Lemma write_refused_gets_no_reply_witness :
  get_chr (gatt_write_char_resp ATT_ECODE_INSUFF_ENC (new_query 0 0)
             {| gatt := gatt read_issued; sec_high := false;
                io_set_ok := false; connect_ok := true;
                stored := fun _ _ _ => None; next_id := 2;
                trace := trace read_issued |}) 0 0
  = Some (set_chr_msg (Some update_value_msg) sample_chr).
Proof.
  apply (write_refused_gets_no_reply ATT_ECODE_INSUFF_ENC (new_query 0 0)
           (set_chr_msg (Some update_value_msg) sample_chr)).
  - reflexivity.
  - reflexivity.
  - reflexivity.
Defined.

Lemma cli_conf_retry_step w status current chr :
  get_chr w (q_prim current) (q_chr current) = Some chr ->
  is_security_error status = true ->
  io_set_ok w = true ->
  gatt_write_cli_conf_resp status current w
  = emit (Ev_att_request (reissued_write chr current)
            CB_gatt_write_cli_conf_resp current)
      (set_sec_high true (emit Ev_bt_io_set_sec_high w)).
Proof.
  intros Hc Hs Hio. unfold gatt_write_cli_conf_resp.
  rewrite Hc, (security_error_nonzero status Hs), Hs.
  unfold bt_io_set_sec_high. rewrite Hio. reflexivity.
Qed.

Lemma reissued_write_short chr pi ci value :
  Z.of_nat (List.length value) < 65536 ->
  reissued_write chr (write_query pi ci value)
  = Req_write_char (chr_handle chr) value.
Proof.
  intros H. unfold reissued_write, write_query. cbn [q_len q_value].
  rewrite u16_small by lia. rewrite Nat2Z.id, firstn_all. reflexivity.
Qed.

(** The characteristic a write callback finds after set_value or
    set_cli_conf issued the write. *)
Lemma get_chr_issued e pi ci c w1 p chr :
  get_prim w1 pi = Some p ->
  nth_error (chars p) ci = Some chr ->
  get_chr (emit e (put_chr pi ci c w1)) pi ci = Some c.
Proof.
  intros Hp Hc. rewrite get_chr_emit. eapply get_put_chr; eassumption.
Qed.

(** X12.  A value write that meets a security error is issued again as
    it was.  After SetProperty "Value" with fewer than 65536 bytes, a
    Write Response with INSUFF_ENC or AUTHENTICATION on a channel that
    takes the level HIGH puts the same write (handle, bytes, callback and
    query data) on the transport once more. *)
Theorem write_reissued_as_issued (msg : DBusMessage) (value : bytes)
  (rest : list dbus_arg) (pi ci : nat) (p : primary)
  (chr : characteristic) (status : Z) (w : world) :
  msg_args msg = Arg_string "Value" :: Arg_variant_bytes value :: rest ->
  get_prim w pi = Some p ->
  nth_error (chars p) ci = Some chr ->
  fst (l2cap_connect false w) = true ->
  Z.of_nat (List.length value) < 65536 ->
  is_security_error status = true ->
  io_set_ok w = true ->
  trace (gatt_write_char_resp status (write_query pi ci value)
           (snd (set_property msg pi ci w)))
  = trace (snd (l2cap_connect false w)) ++
    [Ev_att_request (Req_write_char (chr_handle chr) value)
       CB_gatt_write_char_resp (write_query pi ci value);
     Ev_bt_io_set_sec_high;
     Ev_att_request (Req_write_char (chr_handle chr) value)
       CB_gatt_write_char_resp (write_query pi ci value)].
Proof.
  intros Ha Hp Hc Hok Hlen Hs Hio.
  destruct (set_bytes_issued chr_handle CB_gatt_write_char_resp msg value
              pi ci w p chr Hp Hc Hok) as (w1 & Hset & Hw1 & Hp1 & _ & Hio1).
  unfold set_property. rewrite Ha. cbn [String.eqb Ascii.eqb Bool.eqb].
  unfold set_value. rewrite Hset. cbn [fst snd]. rewrite <- Hw1.
  rewrite (write_retry_step _ status (write_query pi ci value)
             (set_chr_msg (Some msg) chr)).
  - rewrite reissued_write_short by exact Hlen. cbn.
    rewrite trace_put_chr, <- !app_assoc. reflexivity.
  - apply (get_chr_issued _ pi ci _ w1 p chr Hp1 Hc).
  - exact Hs.
  - cbn. unfold put_chr. rewrite Hp1. cbn. congruence.
Qed.

Lemma write_reissued_as_issued_witness :
  trace (gatt_write_char_resp ATT_ECODE_AUTHENTICATION
           (write_query 0 0 [0x01; 0x02])
           (snd (set_property
                   {| msg_sender := ":1.5"; msg_member := "SetProperty";
                      msg_args := [Arg_string "Value";
                                   Arg_variant_bytes [0x01; 0x02]] |}
                   0 0 sample_listening)))
  = trace (snd (l2cap_connect false sample_listening)) ++
    [Ev_att_request (Req_write_char 0x12 [0x01; 0x02])
       CB_gatt_write_char_resp (write_query 0 0 [0x01; 0x02]);
     Ev_bt_io_set_sec_high;
     Ev_att_request (Req_write_char 0x12 [0x01; 0x02])
       CB_gatt_write_char_resp (write_query 0 0 [0x01; 0x02])].
Proof.
  apply (write_reissued_as_issued
           {| msg_sender := ":1.5"; msg_member := "SetProperty";
              msg_args := [Arg_string "Value";
                           Arg_variant_bytes [0x01; 0x02]] |}
           [0x01; 0x02] [] 0 0
           {| prim_att := sample_att; discovery_msg := None;
              discovery_timer := 0; prim_path := "/dev/service0010";
              chars := [sample_chr]; watchers := [sample_watcher] |}
           sample_chr ATT_ECODE_AUTHENTICATION sample_listening).
  - reflexivity.
  - reflexivity.
  - reflexivity.
  - reflexivity.
  - cbn. lia.
  - reflexivity.
  - reflexivity.
Defined.

(** X13.  A client configuration write that meets a security error is
    not issued again as it was.  SetProperty "ClientConfiguration" with a
    byte array returns a failure at once when l2cap_connect fails, and
    nothing but the connection attempt has happened.  When l2cap_connect
    succeeds it writes the bytes to the client configuration handle of
    the characteristic; after a Write Response with INSUFF_ENC or
    AUTHENTICATION on a channel that takes the level HIGH,
    gatt_write_cli_conf_resp puts on the transport, to the value handle
    of the characteristic, the bytes the query data counts: the first
    (length mod 65536) of the array, which are all of them when the
    array has fewer than 65536 bytes. *)
Theorem cli_conf_reissued_to_value_handle (msg : DBusMessage)
  (value : bytes) (rest : list dbus_arg) (pi ci : nat) (p : primary)
  (chr : characteristic) (status : Z) (w : world) :
  msg_args msg
  = Arg_string "ClientConfiguration" :: Arg_variant_bytes value :: rest ->
  get_prim w pi = Some p ->
  nth_error (chars p) ci = Some chr ->
  is_security_error status = true ->
  io_set_ok w = true ->
  (fst (l2cap_connect false w) = false ->
   set_property msg pi ci w
   = (Some (Error_failed msg Gerr_message), emit Ev_bt_io_connect w)) /\
  (fst (l2cap_connect false w) = true ->
   trace (gatt_write_cli_conf_resp status (write_query pi ci value)
            (snd (set_property msg pi ci w)))
   = trace (snd (l2cap_connect false w)) ++
     [Ev_att_request
        (Req_write_char (cli_conf_hndl (chr_desc chr)) value)
        CB_gatt_write_cli_conf_resp (write_query pi ci value);
      Ev_bt_io_set_sec_high;
      Ev_att_request
        (Req_write_char (chr_handle chr)
           (firstn (Z.to_nat (u16 (Z.of_nat (List.length value)))) value))
        CB_gatt_write_cli_conf_resp (write_query pi ci value)]) /\
  (Z.of_nat (List.length value) < 65536 ->
   firstn (Z.to_nat (u16 (Z.of_nat (List.length value)))) value = value).
Proof.
  intros Ha Hp Hc Hs Hio. split; [| split].
  { intros Hfail.
    apply (set_bytes_refused msg "ClientConfiguration" value rest pi ci w
             p chr); try assumption.
    now right. }
  - intros Hok.
    destruct (set_bytes_issued (fun c => cli_conf_hndl (chr_desc c))
                CB_gatt_write_cli_conf_resp msg value
                pi ci w p chr Hp Hc Hok)
      as (w1 & Hset & Hw1 & Hp1 & _ & Hio1).
    unfold set_property. rewrite Ha. cbn [String.eqb Ascii.eqb Bool.eqb].
    unfold set_cli_conf. rewrite Hset. cbn [fst snd]. rewrite <- Hw1.
    rewrite (cli_conf_retry_step _ status (write_query pi ci value)
               (set_chr_msg (Some msg) chr)).
    + unfold reissued_write, write_query. cbn.
      rewrite trace_put_chr, <- !app_assoc. reflexivity.
    + apply (get_chr_issued _ pi ci _ w1 p chr Hp1 Hc).
    + exact Hs.
    + cbn. unfold put_chr. rewrite Hp1. cbn. congruence.
  - intros Hlen. rewrite u16_small by lia.
    rewrite Nat2Z.id. apply firstn_all.
Qed.

Lemma cli_conf_reissued_to_value_handle_witness :
  trace (gatt_write_cli_conf_resp ATT_ECODE_AUTHENTICATION
           (write_query 0 0 [0x01; 0x00])
           (snd (set_property
                   {| msg_sender := ":1.5"; msg_member := "SetProperty";
                      msg_args := [Arg_string "ClientConfiguration";
                                   Arg_variant_bytes [0x01; 0x00]] |}
                   0 0 sample_listening)))
  = trace (snd (l2cap_connect false sample_listening)) ++
    [Ev_att_request (Req_write_char 0 [0x01; 0x00])
       CB_gatt_write_cli_conf_resp (write_query 0 0 [0x01; 0x00]);
     Ev_bt_io_set_sec_high;
     Ev_att_request (Req_write_char 0x12 [0x01; 0x00])
       CB_gatt_write_cli_conf_resp (write_query 0 0 [0x01; 0x00])].
Proof.
  destruct (cli_conf_reissued_to_value_handle
              {| msg_sender := ":1.5"; msg_member := "SetProperty";
                 msg_args := [Arg_string "ClientConfiguration";
                              Arg_variant_bytes [0x01; 0x00]] |}
              [0x01; 0x00] [] 0 0
              {| prim_att := sample_att; discovery_msg := None;
                 discovery_timer := 0; prim_path := "/dev/service0010";
                 chars := [sample_chr]; watchers := [sample_watcher] |}
              sample_chr ATT_ECODE_AUTHENTICATION sample_listening)
    as (_ & H & _).
  - reflexivity.
  - reflexivity.
  - reflexivity.
  - reflexivity.
  - reflexivity.
  - exact (H (eq_refl _)).
Defined.

(** ** Security errors, request by request *)





(** X14.  SetProperty with anything but the name "Value" or
    "ClientConfiguration" followed by a variant that holds a byte array
    is answered "invalid arguments" at once: the state is unchanged, no
    transport reference is taken and nothing is put on the transport. *)
Theorem set_property_invalid (msg : DBusMessage) (pi ci : nat) (w : world) :
  ~ (exists property value rest,
        msg_args msg
        = Arg_string property :: Arg_variant_bytes value :: rest /\
        (property = "Value"%string \/
         property = "ClientConfiguration"%string)) ->
  set_property msg pi ci w = (Some (Error_invalid_args msg), w).
Proof.
  intros H. unfold set_property.
  destruct (msg_args msg) as [| [property | | |] [| sub rest']] eqn:Ea;
    try reflexivity.
  destruct sub as [| | value |]; try reflexivity.
  - destruct (String.eqb_spec "Value" property) as [E | E].
    + exfalso. apply H. exists property, value, rest'. split; [reflexivity |].
      left. now symmetry.
    + destruct (String.eqb_spec "ClientConfiguration" property) as [F | F];
        [| reflexivity].
      exfalso. apply H. exists property, value, rest'. split; [reflexivity |].
      right. now symmetry.
  - destruct (String.eqb "Value" property); [reflexivity |].
    destruct (String.eqb "ClientConfiguration" property); reflexivity.
Qed.

Lemma set_property_invalid_witness :
  set_property
    {| msg_sender := ":1.5"; msg_member := "SetProperty";
       msg_args := [Arg_string "Name"; Arg_variant_bytes [0x41]] |}
    0 0 sample_listening
  = (Some (Error_invalid_args
             {| msg_sender := ":1.5"; msg_member := "SetProperty";
                msg_args := [Arg_string "Name"; Arg_variant_bytes [0x41]] |}),
     sample_listening).
Proof.
  apply (set_property_invalid
           {| msg_sender := ":1.5"; msg_member := "SetProperty";
              msg_args := [Arg_string "Name"; Arg_variant_bytes [0x41]] |}
           0 0 sample_listening).
  intros (property & value & rest & E & [-> | ->]); discriminate.
Defined.

(** ** Starting and stopping a discovery *)

(** X15.  A primary has at most one discovery in flight.  On a primary
    with no discovery pending, discover_char returns a failure at once
    when l2cap_connect fails (no transport and no connection can be
    opened): nothing but the connection attempt has happened and no
    discovery is pending.  When l2cap_connect succeeds, discover_char
    returns no reply and puts one Discover Characteristics request for
    the range of the primary on the transport; a second
    DiscoverCharacteristics before the reply is refused with "Discovery
    already in progress" and changes nothing. *)
Theorem second_discovery_refused (msg1 msg2 : DBusMessage) (pi : nat)
  (p : primary) (w : world) :
  get_prim w pi = Some p ->
  discovery_msg p = None ->
  (fst (l2cap_connect true w) = false ->
   discover_char msg1 pi w
   = (Some (Error_failed msg1 Gerr_message), emit Ev_bt_io_connect w)) /\
  (fst (l2cap_connect true w) = true ->
   fst (discover_char msg1 pi w) = None /\
   trace (snd (discover_char msg1 pi w))
   = trace (snd (l2cap_connect true w)) ++
     [Ev_att_request
        (Req_discover_char (att_start (prim_att p)) (att_end (prim_att p)))
        CB_char_discovered (new_query pi O)] /\
   discover_char msg2 pi (snd (discover_char msg1 pi w))
   = (Some (Error_failed msg2 (Text "Discovery already in progress")),
      snd (discover_char msg1 pi w))).
Proof.
  intros Hp Hd. split.
  { intros Hfail. pose proof (l2cap_connect_fails true w Hfail) as Hw.
    unfold discover_char. rewrite Hp, Hd.
    destruct (l2cap_connect true w) as [ok w1]. cbn [fst snd] in *.
    subst ok w1. reflexivity. }
  intros Hok.
  destruct (l2cap_connect_spec true w) as (Hprims & _ & _ & _ & _).
  assert (Hdc : discover_char msg1 pi w
    = (None,
       emit (Ev_att_request
               (Req_discover_char (att_start (prim_att p))
                  (att_end (prim_att p)))
               CB_char_discovered (new_query pi O))
         (put_prim pi (set_discovery_msg (Some msg1) p)
            (snd (l2cap_connect true w))))).
  { unfold discover_char. rewrite Hp, Hd.
    destruct (l2cap_connect true w) as [ok w1]. cbn [fst snd] in *.
    subst ok. reflexivity. }
  rewrite Hdc. cbn [fst snd]. split; [reflexivity |]. split; [reflexivity |].
  assert (Hp1 : get_prim (snd (l2cap_connect true w)) pi = Some p).
  { rewrite <- Hp. apply get_prim_prims. exact Hprims. }
  unfold discover_char. rewrite get_prim_emit.
  rewrite (get_put_prim _ pi _ p Hp1). reflexivity.
Qed.

Lemma second_discovery_refused_witness :
  discover_char update_value_msg 0 discovery_started
  = (Some (Error_failed update_value_msg
             (Text "Discovery already in progress")),
     discovery_started).
Proof.
  destruct (second_discovery_refused discover_msg update_value_msg 0
              sample_primary sample_world) as (_ & H).
  - reflexivity.
  - reflexivity.
  - destruct (H (eq_refl _)) as (_ & _ & H2). exact H2.
Defined.

(** X16.  A discovery that fails.  When the discovery of a primary with
    a pending DiscoverCharacteristics ends with a non-zero status, the
    caller gets a failure with the text of the ATT error code, one
    transport reference is given back, and the primaries are exactly as
    before: the characteristics are untouched, and the primary still
    holds the message, so that a later DiscoverCharacteristics on it is
    refused with "Discovery already in progress". *)
Theorem failed_discovery (characteristics : list att_char) (status : Z)
  (current : query_data) (p : primary) (m msg2 : DBusMessage) (w : world) :
  get_prim w (q_prim current) = Some p ->
  discovery_msg p = Some m ->
  status <> 0 ->
  trace (char_discovered_cb characteristics status current w)
  = trace w ++ [Ev_dbus_send (Error_failed m (Att_ecode_str status))] /\
  gatt_primary (gatt (char_discovered_cb characteristics status current w))
  = gatt_primary (gatt w) /\
  transport_refs (char_discovered_cb characteristics status current w)
  = Nat.pred (transport_refs w) /\
  fst (discover_char msg2 (q_prim current)
         (char_discovered_cb characteristics status current w))
  = Some (Error_failed msg2 (Text "Discovery already in progress")).
Proof.
  intros Hp Hd Hst. apply Z.eqb_neq in Hst.
  unfold char_discovered_cb. rewrite Hp, Hst, Hd. cbn [negb].
  rewrite trace_unref, prims_unref, refs_unref.
  repeat split.
  unfold discover_char. rewrite get_prim_unref, get_prim_emit, Hp, Hd.
  reflexivity.
Qed.

Lemma failed_discovery_witness :
  trace (char_discovered_cb [] 0x0A (new_query 0 0) discovery_started)
  = trace discovery_started ++
    [Ev_dbus_send (Error_failed discover_msg (Att_ecode_str 0x0A))].
Proof.
  apply (failed_discovery [] 0x0A (new_query 0 0)
           (set_discovery_msg (Some discover_msg) sample_primary)
           discover_msg discover_msg discovery_started).
  - reflexivity.
  - reflexivity.
  - discriminate.
Defined.

Lemma stopped_idle p : discovery_msg p = None ->
  set_discovery_timer 0 p = stopped p.
Proof. destruct p. cbn. intros ->. reflexivity. Qed.

(** What stop_discovery does to the primaries, the trace and the
    reference count. *)
Lemma stop_discovery_spec pi p w :
  get_prim w pi = Some p ->
  gatt_primary (gatt (stop_discovery pi w))
  = list_set (gatt_primary (gatt w)) pi (stopped p) /\
  trace (stop_discovery pi w) = trace w ++ timeout_reply p /\
  transport_refs (stop_discovery pi w)
  = (transport_refs w - List.length (timeout_reply p))%nat.
Proof.
  intros Hp. unfold stop_discovery, timeout_reply. rewrite Hp.
  cbn [discovery_msg set_discovery_timer].
  destruct (discovery_msg p) as [m |] eqn:Hd.
  - rewrite prims_unref, trace_unref, refs_unref. split; [| split].
    + cbn. clear. generalize (gatt_primary (gatt w)) as ps.
      induction pi as [| pi IH]; intros [| q ps]; cbn; try reflexivity.
      now rewrite IH.
    + reflexivity.
    + cbn [List.length]. rewrite Nat.sub_1_r. reflexivity.
  - cbn. rewrite app_nil_r, Nat.sub_0_r. repeat split.
    rewrite <- (stopped_idle p Hd). destruct p. reflexivity.
Qed.

(** X17.  stop_discovery is idempotent: stopping the discovery of a
    primary a second time changes nothing any more (no second failure
    reply, no second reference given back), and on a primary without a
    pending discovery it sends nothing and keeps the transport as it
    is. *)
Theorem stop_discovery_idempotent (pi : nat) (w : world) :
  stop_discovery pi (stop_discovery pi w) = stop_discovery pi w /\
  (forall p, get_prim w pi = Some p -> discovery_msg p = None ->
             trace (stop_discovery pi w) = trace w /\
             gatt_attrib (gatt (stop_discovery pi w))
             = gatt_attrib (gatt w)).
Proof.
  split.
  - destruct (get_prim w pi) as [p |] eqn:Hp.
    2:{ assert (E : stop_discovery pi w = w).
        { unfold stop_discovery. now rewrite Hp. }
        now rewrite !E. }
    destruct (discovery_msg p) as [m |] eqn:Hd.
    + assert (E : stop_discovery pi w
        = g_attrib_unref
            (put_prim pi (stopped p)
               (emit (Ev_dbus_send
                        (Error_failed m
                           (Text "Discover characteristic values timed out")))
                  (put_prim pi (set_discovery_timer 0 p) w)))).
      { unfold stop_discovery. rewrite Hp.
        cbn [discovery_msg set_discovery_timer]. rewrite Hd. reflexivity. }
      rewrite E.
      assert (Hq : get_prim
                     (g_attrib_unref
                        (put_prim pi (stopped p)
                           (emit (Ev_dbus_send
                                    (Error_failed m
                                       (Text
                                  "Discover characteristic values timed out")))
                              (put_prim pi (set_discovery_timer 0 p) w))))
                     pi = Some (stopped p)).
      { rewrite get_prim_unref. eapply get_put_prim. rewrite get_prim_emit.
        eapply get_put_prim. exact Hp. }
      unfold stop_discovery. rewrite Hq.
      cbn [discovery_msg stopped set_discovery_msg set_discovery_timer].
      apply put_prim_same. exact Hq.
    + assert (E : stop_discovery pi w
                  = put_prim pi (set_discovery_timer 0 p) w).
      { unfold stop_discovery. rewrite Hp.
        cbn [discovery_msg set_discovery_timer]. rewrite Hd. reflexivity. }
      rewrite E.
      assert (Hq : get_prim (put_prim pi (set_discovery_timer 0 p) w) pi
                   = Some (set_discovery_timer 0 p)).
      { eapply get_put_prim. exact Hp. }
      unfold stop_discovery. rewrite Hq.
      cbn [discovery_msg set_discovery_timer]. rewrite Hd.
      apply put_prim_same. exact Hq.
  - intros p Hp Hd. unfold stop_discovery. rewrite Hp.
    cbn [discovery_msg set_discovery_timer]. rewrite Hd. split; reflexivity.
Qed.

(** ** Disconnection *)

Lemma firstn_list_set {A} (l : list A) k x :
  (k < List.length l)%nat ->
  firstn (S k) (list_set l k x) = firstn k l ++ [x].
Proof.
  revert k. induction l as [| a l IH]; intros [| k] H; cbn in *; try lia.
  - reflexivity.
  - f_equal. apply IH. lia.
Qed.

Lemma skipn_list_set {A} (l : list A) k x :
  skipn (S k) (list_set l k x) = skipn (S k) l.
Proof.
  revert k. induction l as [| a l IH]; intros [| k]; try reflexivity.
  cbn [list_set]. change (skipn (S (S k)) (a :: ?t)) with (skipn (S k) t).
  apply IH.
Qed.

Lemma skipn_nth_error {A} (l : list A) k x :
  nth_error l k = Some x -> skipn k l = x :: skipn (S k) l.
Proof.
  revert k. induction l as [| a l IH]; intros [| k] H; cbn in H;
    try discriminate.
  - injection H as ->. reflexivity.
  - change (skipn (S k) (a :: l)) with (skipn k l). rewrite (IH k H).
    reflexivity.
Qed.

(** stop_discovery over the primaries from position [k] on. *)
Lemma stop_discovery_fold n : forall k w,
  (k + n = List.length (gatt_primary (gatt w)))%nat ->
  gatt_primary
    (gatt (fold_left (fun acc pi => stop_discovery pi acc) (seq k n) w))
  = firstn k (gatt_primary (gatt w)) ++
    map stopped (skipn k (gatt_primary (gatt w))) /\
  trace (fold_left (fun acc pi => stop_discovery pi acc) (seq k n) w)
  = trace w ++ flat_map timeout_reply (skipn k (gatt_primary (gatt w))) /\
  transport_refs
    (fold_left (fun acc pi => stop_discovery pi acc) (seq k n) w)
  = (transport_refs w -
     pending_discoveries (skipn k (gatt_primary (gatt w))))%nat.
Proof.
  unfold pending_discoveries.
  induction n as [| n IH]; intros k w Hlen.
  - cbn [seq fold_left]. rewrite Nat.add_0_r in Hlen. subst k.
    rewrite skipn_all, firstn_all. cbn.
    rewrite !app_nil_r, Nat.sub_0_r. repeat split.
  - cbn [seq fold_left].
    destruct (nth_error (gatt_primary (gatt w)) k) as [p |] eqn:Hp.
    2:{ apply nth_error_None in Hp. lia. }
    destruct (stop_discovery_spec k p w Hp) as (H1 & H2 & H3).
    assert (Hlen1 : (S k + n
                     = List.length
                         (gatt_primary (gatt (stop_discovery k w))))%nat).
    { rewrite H1, list_set_length. lia. }
    destruct (IH (S k) (stop_discovery k w) Hlen1) as (G1 & G2 & G3).
    rewrite G1, G2, G3, H1, H2, H3.
    rewrite skipn_list_set, firstn_list_set by lia.
    rewrite (skipn_nth_error _ k p Hp). cbn [map flat_map].
    rewrite <- !app_assoc, length_app. cbn [app]. repeat split. lia.
Qed.

(** X18.  attrib_disconnect, and with it attrib_client_disconnect.
    Every primary with a pending discovery gets the failure "Discover
    characteristic values timed out" once, in the order of the primaries;
    afterwards no primary has a pending discovery or a timer and all
    characteristics are as before; and the transport loses one reference
    for every discovery that was pending and one more. *)
Theorem attrib_disconnect_stops_all (w : world) :
  gatt_primary (gatt (attrib_client_disconnect w))
  = map stopped (gatt_primary (gatt w)) /\
  map chars (gatt_primary (gatt (attrib_client_disconnect w)))
  = map chars (gatt_primary (gatt w)) /\
  trace (attrib_client_disconnect w)
  = trace w ++ flat_map timeout_reply (gatt_primary (gatt w)) /\
  transport_refs (attrib_client_disconnect w)
  = (transport_refs w
     - S (pending_discoveries (gatt_primary (gatt w))))%nat.
Proof.
  unfold attrib_client_disconnect, attrib_disconnect.
  destruct (stop_discovery_fold (List.length (gatt_primary (gatt w))) O w
              eq_refl) as (H1 & H2 & H3).
  cbn [firstn skipn app] in H1, H2, H3.
  rewrite prims_unref, trace_unref, refs_unref, H1, H2, H3.
  repeat split; [| lia].
  rewrite map_map. apply map_ext. intros p. reflexivity.
Qed.

(** ** The requests of a discovery *)

Lemma ref_live w :
  gatt_attrib (gatt w) <> None ->
  transport_refs (g_attrib_ref w) = S (transport_refs w) /\
  gatt_attrib (gatt (g_attrib_ref w)) <> None.
Proof.
  unfold transport_refs, g_attrib_ref.
  destruct (gatt_attrib (gatt w)) as [a |]; [| congruence].
  intros _. cbn. split; [reflexivity | discriminate].
Qed.

Lemma update_all_chars_loop_spec pi l : forall ci w,
  gatt_attrib (gatt w) <> None ->
  trace (update_all_chars_loop pi ci l w)
  = trace w ++ discovery_requests pi ci l /\
  gatt_primary (gatt (update_all_chars_loop pi ci l w))
  = gatt_primary (gatt w) /\
  next_id (update_all_chars_loop pi ci l w) = next_id w /\
  transport_refs (update_all_chars_loop pi ci l w)
  = (transport_refs w + 2 * List.length l)%nat.
Proof.
  induction l as [| chr t IH]; intros ci w Hlive.
  - cbn. rewrite app_nil_r, Nat.add_0_r. repeat split.
  - cbn [update_all_chars_loop discovery_requests].
    destruct (ref_live w Hlive) as (R1 & L1).
    set (w1 := emit _ (g_attrib_ref w)).
    assert (L1' : gatt_attrib (gatt w1) <> None) by exact L1.
    destruct (ref_live w1 L1') as (R2 & L2).
    set (w2 := emit _ (g_attrib_ref w1)).
    assert (L2' : gatt_attrib (gatt w2) <> None) by exact L2.
    destruct (IH (S ci) w2 L2') as (T & P & N & R).
    rewrite T, P, N, R. subst w2. cbn [trace emit gatt next_id].
    rewrite trace_ref, prims_ref, next_id_ref.
    change (transport_refs (emit ?e ?x)) with (transport_refs x).
    rewrite R2. subst w1. cbn [trace emit gatt next_id].
    rewrite trace_ref, prims_ref, next_id_ref.
    change (transport_refs (emit ?e ?x)) with (transport_refs x).
    rewrite R1, <- !app_assoc. cbn [app List.length]. repeat split. lia.
Qed.

Lemma discovery_requests_count pi l : forall ci,
  List.length (discovery_requests pi ci l) = (2 * List.length l)%nat /\
  forallb is_att_request (discovery_requests pi ci l) = true /\
  List.length (filter is_last_request (discovery_requests pi ci l))
  = match l with [] => O | _ => 1%nat end /\
  match l with
  | [] => True
  | _ => is_last_request (last (discovery_requests pi ci l) Ev_bt_io_connect)
         = true
  end.
Proof.
  induction l as [| chr t IH]; intros ci; [repeat split |].
  destruct (IH (S ci)) as (H1 & H2 & H3 & H4).
  cbn [discovery_requests List.length forallb is_att_request andb filter
       is_last_request q_last new_query].
  rewrite H1, H2. repeat split; [lia | |].
  - destruct t; cbn [List.length] in *; [reflexivity | exact H3].
  - destruct t as [| c t']; [reflexivity |].
    cbn [discovery_requests] in *. exact H4.
Qed.

(** X19.  The requests of a discovery.  On a live transport,
    update_all_chars puts two requests per characteristic of the primary
    on the transport, in the order of the list (Find Information from the
    value handle plus one to the end handle, then a read of the value
    handle), takes one reference for each, marks exactly one request as
    the last, namely the final read, when there is a characteristic at
    all, and arms the watchdog. *)
Theorem discovery_requests_issued (pi : nat) (p : primary) (w : world) :
  get_prim w pi = Some p ->
  gatt_attrib (gatt w) <> None ->
  trace (update_all_chars pi w)
  = trace w ++ discovery_requests pi O (chars p) ++
    [Ev_timeout_add (Z.max 1 (next_id w)) pi] /\
  List.length (discovery_requests pi O (chars p))
  = (2 * List.length (chars p))%nat /\
  forallb is_att_request (discovery_requests pi O (chars p)) = true /\
  List.length (filter is_last_request (discovery_requests pi O (chars p)))
  = match chars p with [] => O | _ => 1%nat end /\
  match chars p with
  | [] => True
  | _ => is_last_request
           (last (discovery_requests pi O (chars p)) Ev_bt_io_connect)
         = true
  end /\
  transport_refs (update_all_chars pi w)
  = (transport_refs w + 2 * List.length (chars p))%nat /\
  get_prim (update_all_chars pi w) pi
  = Some (set_discovery_timer (Z.max 1 (next_id w)) p).
Proof.
  intros Hp Hlive.
  destruct (update_all_chars_loop_spec pi (chars p) O w Hlive)
    as (T & P & N & R).
  destruct (discovery_requests_count pi (chars p) O) as (C1 & C2 & C3 & C4).
  unfold update_all_chars. rewrite Hp. unfold g_timeout_add_seconds.
  set (w1 := update_all_chars_loop pi O (chars p) w) in *.
  assert (Hp1 : get_prim (set_next_id (Z.max 1 (next_id w1) + 1)
                            (emit (Ev_timeout_add (Z.max 1 (next_id w1)) pi)
                               w1)) pi = Some p).
  { rewrite <- Hp. apply get_prim_prims. exact P. }
  rewrite Hp1. rewrite N in *.
  repeat split; try assumption.
  - cbn. rewrite T, <- app_assoc. reflexivity.
  - eapply get_put_prim. exact Hp1.
Qed.

Lemma discovery_requests_issued_witness :
  trace (update_all_chars 0 sample_listening)
  = trace sample_listening ++ discovery_requests 0 0 [sample_chr] ++
    [Ev_timeout_add 2 0].
Proof.
  apply (discovery_requests_issued 0
           {| prim_att := sample_att; discovery_msg := None;
              discovery_timer := 0; prim_path := "/dev/service0010";
              chars := [sample_chr]; watchers := [sample_watcher] |}
           sample_listening).
  - reflexivity.
  - discriminate.
Defined.

Lemma register_characteristics_spec p w :
  trace (register_characteristics p w)
  = trace w ++ map (fun c => Ev_register_interface (chr_path c)) (chars p) /\
  gatt (register_characteristics p w) = gatt w /\
  next_id (register_characteristics p w) = next_id w /\
  stored (register_characteristics p w) = stored w.
Proof.
  unfold register_characteristics. revert w.
  induction (chars p) as [| c cs IH]; intros w; cbn [fold_left map].
  - rewrite app_nil_r. repeat split.
  - destruct (IH (emit (Ev_register_interface (chr_path c)) w))
      as (T & G & N & S).
    rewrite T, G, N, S. cbn. rewrite <- app_assoc. repeat split.
Qed.

(** X20.  What a successful discovery does.  When the discovery of a
    primary answers status 0 on a live transport, char_discovered_cb
    writes the serialised list of all characteristics of the primary (the
    old ones and the created ones) to the storage under the start handle,
    registers an object for every characteristic, puts the requests of
    update_all_chars on the transport and arms the watchdog, in this
    order; it sends no reply and gives no reference back. *)
Theorem successful_discovery_effects (characteristics : list att_char)
  (current : query_data) (p : primary) (w : world) :
  get_prim w (q_prim current) = Some p ->
  gatt_attrib (gatt w) <> None ->
  trace (char_discovered_cb characteristics 0 current w)
  = trace w ++
    Ev_write_device_characteristics (gatt_sba (gatt w)) (gatt_dba (gatt w))
      (att_start (prim_att p))
      (characteristic_list_to_string (discovered_chars p characteristics))
    :: map (fun c => Ev_register_interface (chr_path c))
         (discovered_chars p characteristics) ++
    discovery_requests (q_prim current) O
      (discovered_chars p characteristics) ++
    [Ev_timeout_add (Z.max 1 (next_id w)) (q_prim current)] /\
  get_prim (char_discovered_cb characteristics 0 current w) (q_prim current)
  = Some (set_discovery_timer (Z.max 1 (next_id w))
            (set_chars (discovered_chars p characteristics) p)) /\
  transport_refs (char_discovered_cb characteristics 0 current w)
  = (transport_refs w
     + 2 * List.length (discovered_chars p characteristics))%nat.
Proof.
  intros Hp Hlive. unfold char_discovered_cb. rewrite Hp. cbn [Z.eqb negb].
  set (cs := discovered_chars p characteristics).
  set (p1 := set_chars cs p).
  set (w1 := store_characteristics p1 (put_prim (q_prim current) p1 w)).
  destruct (register_characteristics_spec p1 w1) as (T2 & G2 & N2 & _).
  set (w2 := register_characteristics p1 w1) in *.
  assert (Hp2 : get_prim w2 (q_prim current) = Some p1).
  { unfold get_prim. rewrite G2. subst w1. cbn.
    apply nth_error_list_set_same. apply nth_error_Some.
    unfold get_prim in Hp. congruence. }
  assert (Hlive2 : gatt_attrib (gatt w2) <> None).
  { rewrite G2. exact Hlive. }
  destruct (update_all_chars_loop_spec (q_prim current) (chars p1) O w2
              Hlive2) as (T & P & N & R).
  unfold update_all_chars. rewrite Hp2. unfold g_timeout_add_seconds.
  set (w3 := update_all_chars_loop (q_prim current) O (chars p1) w2) in *.
  assert (Hp3 : get_prim (set_next_id (Z.max 1 (next_id w3) + 1)
                            (emit (Ev_timeout_add (Z.max 1 (next_id w3))
                                     (q_prim current)) w3))
                  (q_prim current) = Some p1).
  { rewrite <- Hp2. apply get_prim_prims. exact P. }
  rewrite Hp3.
  assert (Hn : next_id w3 = next_id w).
  { rewrite N, N2. reflexivity. }
  rewrite Hn. split; [| split].
  - cbn [trace put_prim set_gatt set_next_id emit]. rewrite T, T2.
    subst w1. cbn. rewrite <- !app_assoc. reflexivity.
  - eapply get_put_prim. exact Hp3.
  - rewrite refs_put_prim.
    change (transport_refs (set_next_id ?n (emit ?e ?x)))
      with (transport_refs x).
    rewrite R. unfold transport_refs at 1. rewrite G2. reflexivity.
Qed.

Lemma successful_discovery_effects_witness :
  transport_refs
    (char_discovered_cb [entry_2A00; entry_2A01] 0 (new_query 0 0)
       discovery_started)
  = (transport_refs discovery_started
     + 2 * List.length
             (discovered_chars
                (set_discovery_msg (Some discover_msg) sample_primary)
                [entry_2A00; entry_2A01]))%nat.
Proof.
  apply (successful_discovery_effects [entry_2A00; entry_2A01]
           (new_query 0 0)
           (set_discovery_msg (Some discover_msg) sample_primary)
           discovery_started).
  - reflexivity.
  - discriminate.
Defined.

(** The end of update_char_value while a discovery is pending and the
    read is the one marked last. *)
Lemma update_char_value_done_last status current w p chr m :
  get_prim w (q_prim current) = Some p ->
  discovery_msg p = Some m ->
  nth_error (chars p) (q_chr current) = Some chr ->
  q_last current = true ->
  filter is_reply (trace (update_char_value_done status current w))
  = filter is_reply (trace w) ++
    [Ev_dbus_send (Method_return m (map chr_path (chars p)))] /\
  get_prim (update_char_value_done status current w) (q_prim current)
  = Some (stopped p) /\
  transport_refs (update_char_value_done status current w)
  = Nat.pred (transport_refs w).
Proof.
  intros Hp Hd Hc Hl. unfold update_char_value_done.
  rewrite Hp, (get_chr_some w _ _ p chr Hp Hc), Hd, Hl.
  rewrite trace_unref, get_prim_unref, refs_unref, refs_put_prim.
  split; [| split].
  - destruct (0 <? discovery_timer p); cbn [trace put_prim set_gatt emit];
      rewrite !filter_app; cbn; rewrite ?app_nil_r; reflexivity.
  - eapply get_put_prim.
    destruct (0 <? discovery_timer p); rewrite !get_prim_emit; exact Hp.
  - destruct (0 <? discovery_timer p); reflexivity.
Qed.

Lemma set_value_paths c v :
  chr_path (fst (characteristic_set_value c v)) = chr_path c.
Proof. unfold characteristic_set_value. destruct v; reflexivity. Qed.

Lemma map_list_set_same {A B} (f : A -> B) (l : list A) i x y :
  nth_error l i = Some x -> f y = f x ->
  map f (list_set l i y) = map f l.
Proof.
  revert i. induction l as [| a l IH]; intros [| i] H E; cbn in *;
    try discriminate.
  - injection H as ->. now rewrite E.
  - f_equal. apply IH; assumption.
Qed.

(** X21.  The read marked last ends the discovery, whatever its status.
    While a DiscoverCharacteristics is pending, the completion of the
    read marked last (a success, or an error that is not retried) sends
    the caller the method return with the paths of all characteristics of
    the primary, clears the pending message and the timer, and gives one
    reference back; no failure is reported for a failed read. *)
Theorem last_read_completes_discovery (status : Z) (pdu : bytes)
  (current : query_data) (p : primary) (chr : characteristic)
  (m : DBusMessage) (w : world) :
  get_prim w (q_prim current) = Some p ->
  discovery_msg p = Some m ->
  nth_error (chars p) (q_chr current) = Some chr ->
  q_last current = true ->
  is_security_error status = false \/ io_set_ok w = false ->
  filter is_reply (trace (update_char_value status pdu current w))
  = filter is_reply (trace w) ++
    [Ev_dbus_send (Method_return m (map chr_path (chars p)))] /\
  option_map discovery_msg
    (get_prim (update_char_value status pdu current w) (q_prim current))
  = Some None /\
  option_map discovery_timer
    (get_prim (update_char_value status pdu current w) (q_prim current))
  = Some 0 /\
  transport_refs (update_char_value status pdu current w)
  = Nat.pred (transport_refs w).
Proof.
  intros Hp Hd Hc Hl Hno. unfold update_char_value.
  rewrite (get_chr_some w _ _ p chr Hp Hc).
  assert (Hfin : forall w0 p0 c0,
            get_prim w0 (q_prim current) = Some p0 ->
            discovery_msg p0 = Some m ->
            nth_error (chars p0) (q_chr current) = Some c0 ->
            map chr_path (chars p0) = map chr_path (chars p) ->
            filter is_reply (trace w0) = filter is_reply (trace w) ->
            transport_refs w0 = transport_refs w ->
            filter is_reply (trace (update_char_value_done status current w0))
            = filter is_reply (trace w) ++
              [Ev_dbus_send (Method_return m (map chr_path (chars p)))] /\
            option_map discovery_msg
              (get_prim (update_char_value_done status current w0)
                 (q_prim current)) = Some None /\
            option_map discovery_timer
              (get_prim (update_char_value_done status current w0)
                 (q_prim current)) = Some 0 /\
            transport_refs (update_char_value_done status current w0)
            = Nat.pred (transport_refs w)).
  { intros w0 p0 c0 Hp0 Hd0 Hc0 Hpaths Htr Hrf.
    destruct (update_char_value_done_last status current w0 p0 c0 m Hp0 Hd0
                Hc0 Hl) as (F1 & F2 & F3).
    rewrite F1, F2, F3, Hpaths, Htr, Hrf. repeat split. }
  destruct (Z.eqb_spec status 0) as [E0 | E0].
  - set (c1 := fst (characteristic_set_value chr (tl pdu))).
    apply (Hfin _ (set_chars (list_set (chars p) (q_chr current) c1) p) c1).
    + apply get_prim_put_chr. exact Hp.
    + exact Hd.
    + cbn [chars set_chars]. apply nth_error_list_set_same.
      apply nth_error_Some. congruence.
    + cbn [chars set_chars].
      apply (map_list_set_same chr_path _ _ chr c1 Hc).
      apply set_value_paths.
    + now rewrite trace_put_chr.
    + apply refs_put_chr.
  - destruct (is_security_error status) eqn:Es.
    + destruct Hno as [Hno | Hno]; [discriminate |].
      unfold bt_io_set_sec_high. rewrite Hno.
      apply (Hfin _ p chr); try assumption; try reflexivity.
      cbn [trace emit]. rewrite filter_app. cbn. now rewrite app_nil_r.
    + apply (Hfin w p chr); try assumption; reflexivity.
Qed.

Lemma last_read_completes_discovery_witness :
  filter is_reply
    (trace (update_char_value 0x0A []
              {| q_prim := 0; q_chr := 0; q_handle := 0; q_last := true;
                 q_len := 0; q_value := [] |} discovery_described))
  = filter is_reply (trace discovery_described) ++
    [Ev_dbus_send
       (Method_return discover_msg
          ["/dev/service0010/characteristic0012"%string])].
Proof.
  apply (last_read_completes_discovery 0x0A []
           {| q_prim := 0; q_chr := 0; q_handle := 0; q_last := true;
              q_len := 0; q_value := [] |}
           {| prim_att := sample_att; discovery_msg := Some discover_msg;
              discovery_timer := 1; prim_path := "/dev/service0010";
              chars := discovered_chars sample_primary [entry_2A00];
              watchers := [] |}
           (set_chr_end 0x15
              (new_characteristic "/dev/service0010" entry_2A00))
           discover_msg discovery_described).
  - vm_compute. reflexivity.
  - reflexivity.
  - vm_compute. reflexivity.
  - reflexivity.
  - left. reflexivity.
Defined.

(** ** What the cache gives back *)

Lemma take_nonspace_no_space s : no_space (fst (take_nonspace s)) = true.
Proof.
  induction s as [| c s IH]; cbn; [reflexivity |].
  destruct (isspace c) eqn:E; [reflexivity |].
  destruct (take_nonspace s) as [t r]. cbn in *. now rewrite E, IH.
Qed.

Lemma scan_word_some s t r :
  scan_word s = Some (t, r) -> t <> [] /\ no_space t = true.
Proof.
  unfold scan_word. pose proof (take_nonspace_no_space (skip_ws s)) as H.
  destruct (take_nonspace (skip_ws s)) as [[| c t'] r']; [discriminate |].
  intros E. injection E as <- <-. split; [discriminate | exact H].
Qed.

(** What sscanf stored when it answered 4. *)
Lemma sscanf_chr_matched lib tok h p e t :
  sscanf_chr lib tok = Matched h p e t ->
  0 <= h < 65536 /\ 0 <= p < 256 /\ 0 <= e < 65536 /\
  t <> [] /\ no_space t = true /\
  (List.length t <= MAX_LEN_UUID_STR)%nat.
Proof.
  intros H. destruct (sscanf_chr_reaches lib tok)
    as [E | (s6 & t0 & r & h0 & p0 & e0 & _ & W & E)]; [congruence |].
  rewrite E in H.
  destruct (Nat.leb_spec (List.length t0) MAX_LEN_UUID_STR) as [Hl | _];
    [| discriminate].
  injection H as <- <- <- <-.
  destruct (scan_word_some _ _ _ W) as (Hne & Hs).
  repeat split; try assumption;
    try apply u16_range; try apply u8_range.
Qed.

Lemma scan_piece_length lib prim_path toks :
  (List.length (flat_map (scan_piece lib prim_path) toks)
   <= List.length toks)%nat.
Proof.
  induction toks as [| tok toks IH]; [cbn; lia |].
  cbn [flat_map]. rewrite length_app. unfold scan_piece at 1.
  destruct (sscanf_chr lib tok); cbn [List.length]; lia.
Qed.

(** X22.  What string_to_characteristic_list makes of a stored string,
    whichever way the C library reads a bare 0x prefix.  When every piece
    between spaces has at most MAX_LEN_UUID_STR characters after its third
    '#', chr->type is never overrun and the function returns a list: in
    the order of the pieces, one characteristic for each piece sscanf
    answers 4 for, and nothing for the other pieces.  Every characteristic
    in it has 16-bit handle and end handle, 8-bit properties, a type of 1
    to MAX_LEN_UUID_STR characters without white space, the path of the
    primary followed by "/characteristic" and the handle in four
    hexadecimal digits, and no value, descriptor or pending caller. *)
Theorem cached_characteristics_sound (lib : bare_prefix)
  (prim_path : string) (s : list ascii) :
  Forall (fun tok => type_fits tok = true) (g_strsplit_space s) ->
  exists l,
    string_to_characteristic_list lib prim_path (Some s) = Some l /\
    l = flat_map (scan_piece lib prim_path) (g_strsplit_space s) /\
    (List.length l <= List.length (g_strsplit_space s))%nat /\
    forall c, In c l ->
      0 <= chr_handle c < 65536 /\ 0 <= chr_perm c < 256 /\
      0 <= chr_end c < 65536 /\
      (1 <= String.length (chr_type c) <= MAX_LEN_UUID_STR)%nat /\
      no_space (list_ascii_of_string (chr_type c)) = true /\
      chr_path c = characteristic_path prim_path (chr_handle c) /\
      chr_value c = None /\ chr_vlen c = 0 /\ chr_msg c = None /\
      chr_desc c = empty_descriptor.
Proof.
  intros Hfit.
  exists (flat_map (scan_piece lib prim_path) (g_strsplit_space s)).
  split; [| split; [reflexivity | split]].
  - unfold string_to_characteristic_list. rewrite scan_pieces_acc.
    + reflexivity.
    + eapply Forall_impl; [| exact Hfit]. intros tok.
      apply type_fits_no_overrun.
  - apply scan_piece_length.
  - intros c H. apply in_flat_map in H. destruct H as (tok & _ & H).
    unfold scan_piece in H.
    destruct (sscanf_chr lib tok) as [h p e t | |] eqn:E;
      [| destruct H | destruct H].
    destruct H as [<- | []].
    destruct (sscanf_chr_matched _ _ _ _ _ _ E)
      as (Hh & Hp & He & Hne & Hs & Hl).
    cbn. rewrite list_ascii_of_string_of_list_ascii.
    rewrite <- length_list_ascii_of_string,
      list_ascii_of_string_of_list_ascii.
    repeat split; try assumption; try lia.
    destruct t; [congruence | cbn; lia].
Qed.

Lemma cached_characteristics_sound_witness :
  Forall (fun tok => type_fits tok = true)
    (g_strsplit_space
       (list_ascii_of_string "garbage 0012#0A#0015#2A00 12#zz")) /\
  exists l,
    string_to_characteristic_list Prefix_is_zero "/p"
      (Some (list_ascii_of_string "garbage 0012#0A#0015#2A00 12#zz"))
    = Some l /\
    (List.length l <= 3)%nat.
Proof.
  assert (H : Forall (fun tok => type_fits tok = true)
                (g_strsplit_space
                   (list_ascii_of_string
                      "garbage 0012#0A#0015#2A00 12#zz"))).
  { forall_computed. }
  split; [exact H |].
  destruct (cached_characteristics_sound Prefix_is_zero "/p"
              (list_ascii_of_string "garbage 0012#0A#0015#2A00 12#zz") H)
    as (l & E & _ & L & _).
  exists l. split; [exact E | exact L].
Defined.

(** The same string under both ways of reading a bare prefix, and a
    piece whose type has 38 characters. *)
Example scan_stored_sample :
  (forall lib,
     option_map (map cache_fields)
       (string_to_characteristic_list lib "/p"
          (Some (list_ascii_of_string "garbage 0012#0A#0015#2A00 12#zz")))
     = Some [(0x12, 0x0A, 0x15, "2A00"%string)]) /\
  (forall lib,
     string_to_characteristic_list lib "/p"
       (Some (list_ascii_of_string
                "0012#0A#0015#0123456789012345678901234567890123456X"))
     = None).
Proof. split; intros []; vm_compute; reflexivity. Qed.

(** X23.  What was stored is what is loaded.  When the storage holds,
    under the start handle of a primary without characteristics, the
    string characteristic_list_to_string makes of a non-empty list of
    well-formed characteristics, load_characteristics reads it, overruns
    nothing, gives the primary as many characteristics with the same
    value handle, properties, end handle and type in the same order, each
    with the path made of the path of the primary and its handle, and
    registers an object for each of them. *)
Theorem stored_list_is_loaded (lib : bare_prefix) (w : world) (pi : nat)
  (p : primary) (cs : list characteristic) :
  get_prim w pi = Some p ->
  chars p = [] ->
  cs <> [] ->
  Forall (fun c => well_formed c = true) cs ->
  stored w (gatt_sba (gatt w)) (gatt_dba (gatt w)) (att_start (prim_att p))
  = Some (characteristic_list_to_string cs) ->
  exists w' loaded_cs,
    load_characteristics lib pi w = Some w' /\
    get_prim w' pi = Some (set_chars loaded_cs p) /\
    map cache_fields loaded_cs = map cache_fields cs /\
    map chr_path loaded_cs
    = map (fun c => characteristic_path (prim_path p) (chr_handle c)) cs /\
    trace w'
    = trace w ++
      Ev_read_device_characteristics (gatt_sba (gatt w)) (gatt_dba (gatt w))
        (att_start (prim_att p))
      :: map (fun c =>
                Ev_register_interface
                  (characteristic_path (prim_path p) (chr_handle c))) cs.
Proof.
  intros Hp Hempty Hne Hwf Hst.
  unfold load_characteristics. rewrite Hp, Hempty, Hst.
  rewrite (scan_serialised lib (prim_path p) cs Hwf).
  remember (map (fun c =>
                   scanned_characteristic (prim_path p)
                     (chr_handle c, chr_perm c, chr_end c,
                      list_ascii_of_string (chr_type c))) cs) as l eqn:Hl.
  destruct l as [| a l'].
  { destruct cs; [congruence | discriminate]. }
  eexists _, (a :: l'). split; [reflexivity |].
  destruct (register_characteristics_spec (set_chars (a :: l') p)
              (put_prim pi (set_chars (a :: l') p)
                 (emit (Ev_read_device_characteristics (gatt_sba (gatt w))
                          (gatt_dba (gatt w)) (att_start (prim_att p))) w)))
    as (T & G & _ & _).
  split; [| split; [| split]].
  - unfold get_prim. rewrite G. cbn.
    apply nth_error_list_set_same. apply nth_error_Some.
    unfold get_prim in Hp. congruence.
  - rewrite Hl, map_map. apply map_ext. intros c.
    apply cache_fields_scanned.
  - rewrite Hl, map_map. reflexivity.
  - rewrite T. cbn [trace put_prim set_gatt emit chars set_chars].
    rewrite <- app_assoc. cbn [app]. rewrite Hl, map_map. reflexivity.
Qed.

Lemma stored_list_is_loaded_witness :
  exists w' loaded_cs,
    load_characteristics Prefix_fails 0
      {| gatt := sample_gatt; sec_high := false; io_set_ok := true;
         connect_ok := true;
         stored := fun _ _ _ =>
                     Some (characteristic_list_to_string [sample_chr]);
         next_id := 1; trace := [] |} = Some w' /\
    get_prim w' 0 = Some (set_chars loaded_cs sample_primary) /\
    map cache_fields loaded_cs = map cache_fields [sample_chr].
Proof.
  destruct (stored_list_is_loaded Prefix_fails
              {| gatt := sample_gatt; sec_high := false; io_set_ok := true;
                 connect_ok := true;
                 stored := fun _ _ _ =>
                             Some (characteristic_list_to_string
                                     [sample_chr]);
                 next_id := 1; trace := [] |} 0 sample_primary [sample_chr])
    as (w' & l & H0 & H1 & H2 & _).
  - reflexivity.
  - reflexivity.
  - discriminate.
  - repeat constructor.
  - reflexivity.
  - exists w', l. split; [exact H0 | split; [exact H1 | exact H2]].
Defined.

(** ** Registering a service *)

Lemma set_chars_empty p : chars p = [] -> set_chars [] p = p.
Proof. destruct p. cbn. intros ->. reflexivity. Qed.

(** load_characteristics on a primary without characteristics, in closed
    form, when no stored piece overruns. *)
Lemma load_characteristics_empty lib w pi p :
  get_prim w pi = Some p ->
  chars p = [] ->
  Forall (fun tok => type_fits tok = true) (stored_pieces w p) ->
  exists w',
    load_characteristics lib pi w = Some w' /\
    gatt_primary (gatt w')
    = list_set (gatt_primary (gatt w)) pi (loaded lib w p) /\
    trace w'
    = trace w ++
      Ev_read_device_characteristics (gatt_sba (gatt w)) (gatt_dba (gatt w))
        (att_start (prim_att p))
      :: map (fun c => Ev_register_interface (chr_path c))
           (chars (loaded lib w p)) /\
    gatt_attrib (gatt w') = gatt_attrib (gatt w) /\
    gatt_sba (gatt w') = gatt_sba (gatt w) /\
    gatt_dba (gatt w') = gatt_dba (gatt w) /\
    gatt_path (gatt w') = gatt_path (gatt w) /\
    gatt_listen (gatt w') = gatt_listen (gatt w) /\
    stored w' = stored w.
Proof.
  intros Hp He Hfit. unfold load_characteristics, loaded.
  unfold stored_pieces in *. rewrite Hp, He.
  assert (Hsame : list_set (gatt_primary (gatt w)) pi p
                  = gatt_primary (gatt w)).
  { apply list_set_same. exact Hp. }
  destruct (stored w _ _ _) as [str |].
  - rewrite (cached_scan lib (prim_path p) str Hfit).
    destruct (flat_map (scan_piece lib (prim_path p)) (g_strsplit_space str))
      as [| a l] eqn:El.
    + eexists. split; [reflexivity |].
      rewrite (set_chars_empty p He), Hsame, He. cbn. repeat split.
    + eexists. split; [reflexivity |].
      destruct (register_characteristics_spec (set_chars (a :: l) p)
                  (put_prim pi (set_chars (a :: l) p)
                     (emit (Ev_read_device_characteristics
                              (gatt_sba (gatt w)) (gatt_dba (gatt w))
                              (att_start (prim_att p))) w)))
        as (T & G & _ & S).
      rewrite T, G, S. cbn. rewrite <- app_assoc. repeat split.
  - eexists. split; [reflexivity |]. cbn [flat_map].
    rewrite (set_chars_empty p He), Hsame, He. cbn. repeat split.
Qed.

Lemma filter_requests_register (cs : list characteristic) :
  filter is_att_request
    (map (fun c => Ev_register_interface (chr_path c)) cs) = [].
Proof. induction cs as [| c cs IH]; [reflexivity | exact IH]. Qed.

(** The loop of register_primaries. *)
Lemma register_primaries_fold lib primaries : forall paths w,
  (forall att, In att primaries ->
     Forall (fun tok => type_fits tok = true)
       (stored_pieces w (new_primary (gatt_path (gatt w)) att))) ->
  exists paths' w',
    fold_left (register_primaries_step lib) primaries (Some (paths, w))
    = Some (paths', w') /\
    paths'
    = paths ++ map (fun att => service_path (gatt_path (gatt w))
                                 (att_start att)) primaries /\
    gatt_primary (gatt w')
    = gatt_primary (gatt w) ++
      map (fun att => loaded lib w (new_primary (gatt_path (gatt w)) att))
        primaries /\
    gatt_attrib (gatt w') = gatt_attrib (gatt w) /\
    gatt_listen (gatt w') = gatt_listen (gatt w) /\
    filter is_att_request (trace w') = filter is_att_request (trace w).
Proof.
  induction primaries as [| att atts IH]; intros paths w Hfit.
  - exists paths, w. cbn. rewrite !app_nil_r. repeat split.
  - cbn [fold_left]. unfold register_primaries_step at 2.
    set (prim := new_primary (gatt_path (gatt w)) att).
    set (w1 := emit (Ev_register_interface (prim_path prim)) w).
    set (w2 := set_gatt (set_primary (gatt_primary (gatt w1) ++ [prim])
                           (gatt w1)) w1).
    assert (Hp : get_prim w2 (List.length (gatt_primary (gatt w1)))
                 = Some prim).
    { unfold get_prim. subst w2. cbn. apply nth_error_last. }
    assert (Hfit2 : Forall (fun tok => type_fits tok = true)
                      (stored_pieces w2 prim)).
    { apply (Hfit att). now left. }
    destruct (load_characteristics_empty lib w2 _ prim Hp eq_refl Hfit2)
      as (w3 & L0 & L1 & L2 & L3 & L4 & L5 & L6 & L7 & L8).
    rewrite L0.
    assert (Hpieces : forall q, stored_pieces w3 q = stored_pieces w q).
    { intros q. unfold stored_pieces. rewrite L4, L5, L8. reflexivity. }
    assert (Hpath : gatt_path (gatt w3) = gatt_path (gatt w)).
    { rewrite L6. reflexivity. }
    destruct (IH (paths ++ [prim_path prim]) w3)
      as (paths' & w' & F0 & F1 & F2 & F3 & F4 & F5).
    { intros a Ha. rewrite Hpieces, Hpath. apply Hfit. now right. }
    exists paths', w'. split; [exact F0 |].
    rewrite F1, F2, F3, F4, F5, L1, L2, L3, L7, Hpath.
    assert (Hloaded : forall a,
              loaded lib w3 (new_primary (gatt_path (gatt w)) a)
              = loaded lib w (new_primary (gatt_path (gatt w)) a)).
    { intros a. unfold loaded. rewrite Hpieces. reflexivity. }
    assert (Hl2 : loaded lib w2 prim = loaded lib w prim) by reflexivity.
    rewrite Hl2. subst w2 w1. cbn [gatt set_gatt set_primary gatt_primary
      gatt_attrib gatt_listen gatt_path emit trace map].
    rewrite list_set_last, <- !app_assoc. cbn [app].
    repeat split.
    + f_equal. f_equal. apply map_ext. exact Hloaded.
    + rewrite filter_app. cbn [filter is_att_request].
      rewrite filter_requests_register. apply app_nil_r.
Qed.

(** X24.  Registering the service of a device, whichever way the C
    library reads a bare 0x prefix.  When no piece of the strings stored
    under the start handles of the primaries has more than
    MAX_LEN_UUID_STR characters after its third '#' (so that chr->type is
    not overrun), attrib_client_register returns one path per primary, in
    the order given, each the path of the device followed by "/service"
    and the start handle in four hexadecimal digits; the service then has
    exactly these primaries, with no discovery pending, no watcher, and
    the characteristics sscanf reads from the pieces of the string stored
    under their start handle (none when nothing is stored); the service
    holds one more reference on the transport it was given and none when
    it was given none, does not listen, and nothing is put on the
    transport. *)
Theorem service_registered (lib : bare_prefix) (sba dba path : string)
  (psm : Z) (attrib : option GAttrib) (primaries : list att_primary)
  (env : world) :
  (forall att s,
     In att primaries -> stored env sba dba (att_start att) = Some s ->
     Forall (fun tok => type_fits tok = true) (g_strsplit_space s)) ->
  exists paths w,
    attrib_client_register lib sba dba path psm attrib primaries env
    = Some (paths, w) /\
    paths = map (fun att => service_path path (att_start att)) primaries /\
    gatt_primary (gatt w)
    = map (fun att =>
             set_chars
               (flat_map
                  (scan_piece lib (service_path path (att_start att)))
                  (match stored env sba dba (att_start att) with
                   | Some s => g_strsplit_space s
                   | None => []
                   end))
               (new_primary path att)) primaries /\
    transport_refs w
    = match attrib with
      | Some a => S (attrib_refs a)
      | None => O
      end /\
    gatt_listen (gatt w) = false /\
    filter is_att_request (trace w) = filter is_att_request (trace env).
Proof.
  intros Hfit. unfold attrib_client_register, register_primaries.
  match goal with
  | |- context [fold_left _ _ (Some (_, ?w0))] =>
      destruct (register_primaries_fold lib primaries [] w0)
        as (paths & w & F0 & F1 & F2 & F3 & F4 & F5)
  end.
  { intros att Ha. unfold stored_pieces, g_attrib_ref.
    cbn [gatt set_gatt gatt_attrib].
    destruct attrib as [a |]; cbn;
      (destruct (stored env sba dba (att_start att)) as [s |] eqn:Es;
       [exact (Hfit att s Ha Es) | constructor]). }
  exists paths, w. split; [exact F0 |].
  rewrite F1, F2, F5. unfold transport_refs. rewrite F3, F4.
  unfold g_attrib_ref. cbn [gatt set_gatt gatt_attrib].
  destruct attrib as [a |]; cbn; repeat split.
Qed.

Lemma service_registered_witness :
  exists paths w,
    attrib_client_register Prefix_is_zero "00:11:22:33:44:55"
      "66:77:88:99:AA:BB" "/dev" (-1) None [sample_att]
      (sample_storing "0012#0A#0015#2A00 0x#zz")
    = Some (paths, w) /\
    paths = ["/dev/service0010"%string].
Proof.
  destruct (service_registered Prefix_is_zero "00:11:22:33:44:55"
              "66:77:88:99:AA:BB" "/dev" (-1) None [sample_att]
              (sample_storing "0012#0A#0015#2A00 0x#zz"))
    as (paths & w & E & P & _).
  - intros att s _ Es. injection Es as <-. forall_computed.
  - exists paths, w. split; [exact E | exact P].
Defined.

(** ** Descriptors *)

Lemma descriptor_step_spec format current w info :
  gatt_attrib (gatt w) <> None ->
  exists reqs,
    trace (descriptor_step format current w info) = trace w ++ reqs /\
    map read_handle reqs
    = (if read_descriptor format info then [att_get_u16 info] else []) /\
    forallb is_att_request reqs = true /\
    transport_refs (descriptor_step format current w info)
    = (transport_refs w + List.length reqs)%nat /\
    gatt_attrib (gatt (descriptor_step format current w info)) <> None.
Proof.
  intros Hlive. destruct (ref_live w Hlive) as (R & L).
  assert (Hnone : exists reqs,
            trace w = trace w ++ reqs /\
            map read_handle reqs = [] /\
            forallb is_att_request reqs = true /\
            transport_refs w = (transport_refs w + List.length reqs)%nat /\
            gatt_attrib (gatt w) <> None).
  { exists []. rewrite app_nil_r, Nat.add_0_r. repeat split. exact Hlive. }
  assert (Hone : forall e w2,
            is_att_request e = true ->
            trace w2 = trace w ->
            transport_refs w2 = S (transport_refs w) ->
            gatt_attrib (gatt w2) <> None ->
            exists reqs,
              trace (emit e w2) = trace w ++ reqs /\
              map read_handle reqs = [read_handle e] /\
              forallb is_att_request reqs = true /\
              transport_refs (emit e w2)
              = (transport_refs w + List.length reqs)%nat /\
              gatt_attrib (gatt (emit e w2)) <> None).
  { intros e w2 He Ht Hr Hl. exists [e]. cbn [trace emit]. rewrite Ht.
    change (transport_refs (emit e w2)) with (transport_refs w2).
    rewrite Hr. cbn [map forallb List.length]. rewrite He.
    repeat split; [lia | exact Hl]. }
  unfold descriptor_step, read_descriptor.
  destruct (format =? 1); [| exact Hnone]. cbn [andb].
  destruct (att_get_u16 (skipn 2 info) =? GATT_CLIENT_CHARAC_CFG_UUID).
  - cbn [orb]. apply Hone; [reflexivity | | |].
    + destruct (get_chr (g_attrib_ref w) (q_prim current) (q_chr current));
        rewrite ?trace_put_chr; apply trace_ref.
    + destruct (get_chr (g_attrib_ref w) (q_prim current) (q_chr current));
        rewrite ?refs_put_chr; exact R.
    + destruct (get_chr (g_attrib_ref w) (q_prim current) (q_chr current));
        rewrite ?gatt_attrib_put_chr; exact L.
  - destruct (att_get_u16 (skipn 2 info) =? GATT_CHARAC_USER_DESC_UUID).
    + cbn [orb]. apply Hone; [reflexivity | apply trace_ref | exact R
                             | exact L].
    + destruct (att_get_u16 (skipn 2 info) =? GATT_CHARAC_FMT_UUID);
        [| exact Hnone].
      cbn [orb]. apply Hone; [reflexivity | apply trace_ref | exact R
                             | exact L].
Qed.

Lemma descriptor_fold_spec format current list : forall w,
  gatt_attrib (gatt w) <> None ->
  exists reqs,
    trace (fold_left (descriptor_step format current) list w)
    = trace w ++ reqs /\
    map read_handle reqs
    = map att_get_u16 (filter (read_descriptor format) list) /\
    forallb is_att_request reqs = true /\
    transport_refs (fold_left (descriptor_step format current) list w)
    = (transport_refs w + List.length reqs)%nat.
Proof.
  induction list as [| info list IH]; intros w Hlive.
  - exists []. cbn. rewrite app_nil_r, Nat.add_0_r. repeat split.
  - cbn [fold_left filter].
    destruct (descriptor_step_spec format current w info Hlive)
      as (r1 & T1 & M1 & A1 & R1 & L1).
    destruct (IH _ L1) as (r2 & T2 & M2 & A2 & R2).
    exists (r1 ++ r2).
    rewrite T2, T1, R2, R1, map_app, M1, M2, forallb_app, A1, A2, length_app,
      <- app_assoc.
    destruct (read_descriptor format info); repeat split; lia.
Qed.

(** X25.  What descriptor_cb reads.  On a live transport: when the Find
    Information request failed or its response does not decode, the
    callback only gives its reference back; otherwise it puts on the
    transport one read for every entry of format 0x01 whose UUID is
    0x2902, 0x2901 or 0x2904, of the handle of that entry and in the
    order of the response, takes one reference for each read and gives
    its own back.  Entries of any other format or UUID are passed over,
    so a response of format 0x02 causes no read. *)
Theorem descriptor_cb_reads (status : Z) (pdu : bytes)
  (current : query_data) (w : world) :
  gatt_attrib (gatt w) <> None ->
  (status <> 0 \/ dec_find_info_resp pdu = None ->
   descriptor_cb status pdu current w = g_attrib_unref w) /\
  (forall format list,
      status = 0 ->
      dec_find_info_resp pdu = Some (format, list) ->
      exists reqs,
        trace (descriptor_cb status pdu current w) = trace w ++ reqs /\
        map read_handle reqs
        = map att_get_u16 (filter (read_descriptor format) list) /\
        forallb is_att_request reqs = true /\
        (format <> 1 -> reqs = []) /\
        transport_refs (descriptor_cb status pdu current w)
        = Nat.pred (transport_refs w + List.length reqs)).
Proof.
  intros Hlive. split.
  - intros [H | H]; unfold descriptor_cb.
    + apply Z.eqb_neq in H. now rewrite H.
    + rewrite H. destruct (negb (status =? 0)); reflexivity.
  - intros format list -> Hdec. unfold descriptor_cb. rewrite Hdec.
    cbn [Z.eqb negb].
    destruct (descriptor_fold_spec format current list w Hlive)
      as (reqs & T & M & A & R).
    exists reqs. rewrite trace_unref, refs_unref, T, R.
    repeat split; try assumption.
    intros Hf. assert (E : filter (read_descriptor format) list = []).
    { clear - Hf. apply Z.eqb_neq in Hf. unfold read_descriptor.
      rewrite Hf. induction list as [| a l IH]; [reflexivity | exact IH]. }
    rewrite E in M. destruct reqs; [reflexivity | discriminate].
Qed.

Lemma descriptor_cb_reads_witness :
  exists reqs,
    trace (descriptor_cb 0
             [0x05; 0x01; 0x13; 0x00; 0x01; 0x29; 0x14; 0x00; 0x00; 0x28;
              0x15; 0x00; 0x02; 0x29]
             (new_query 0 0) sample_listening)
    = trace sample_listening ++ reqs /\
    map read_handle reqs = [0x13; 0x15].
Proof.
  destruct (descriptor_cb_reads 0
              [0x05; 0x01; 0x13; 0x00; 0x01; 0x29; 0x14; 0x00; 0x00; 0x28;
               0x15; 0x00; 0x02; 0x29]
              (new_query 0 0) sample_listening) as (_ & H).
  - discriminate.
  - destruct (H 1 [[0x13; 0x00; 0x01; 0x29]; [0x14; 0x00; 0x00; 0x28];
                   [0x15; 0x00; 0x02; 0x29]] eq_refl eq_refl)
      as (reqs & T & M & _).
    exists reqs. split; [exact T | exact M].
Defined.

(** ** The watchdog during a discovery *)

(** The end of update_char_value while a discovery is pending and the
    read is not the one marked last. *)
Lemma update_char_value_done_rearm status current w p chr m :
  get_prim w (q_prim current) = Some p ->
  discovery_msg p = Some m ->
  nth_error (chars p) (q_chr current) = Some chr ->
  q_last current = false ->
  trace (update_char_value_done status current w)
  = trace w ++
    (if 0 <? discovery_timer p
     then [Ev_source_remove (discovery_timer p)] else []) ++
    [Ev_timeout_add (Z.max 1 (next_id w)) (q_prim current)] /\
  get_prim (update_char_value_done status current w) (q_prim current)
  = Some (set_discovery_timer (Z.max 1 (next_id w)) p) /\
  transport_refs (update_char_value_done status current w)
  = Nat.pred (transport_refs w).
Proof.
  intros Hp Hd Hc Hl. unfold update_char_value_done.
  rewrite Hp, (get_chr_some w _ _ p chr Hp Hc), Hd, Hl.
  unfold g_timeout_add_seconds.
  rewrite trace_unref, get_prim_unref, refs_unref, refs_put_prim.
  destruct (0 <? discovery_timer p); cbn [trace put_prim set_gatt
    set_next_id emit next_id app]; rewrite <- ?app_assoc;
    (split; [reflexivity | split; [| reflexivity]]);
    (eapply get_put_prim; exact Hp).
Qed.

(** X26.  A read that is not the last one keeps the discovery waiting.
    While a DiscoverCharacteristics is pending, the completion of a read
    that is not marked last (a success, or an error that is not retried)
    sends no reply, leaves the pending message in place, removes the
    running watchdog and arms a new one whose identifier the primary
    remembers, and gives one reference back. *)
Theorem read_rearms_watchdog (status : Z) (pdu : bytes)
  (current : query_data) (p : primary) (chr : characteristic)
  (m : DBusMessage) (w : world) :
  get_prim w (q_prim current) = Some p ->
  discovery_msg p = Some m ->
  nth_error (chars p) (q_chr current) = Some chr ->
  q_last current = false ->
  is_security_error status = false \/ io_set_ok w = false ->
  trace (update_char_value status pdu current w)
  = trace w ++
    (if (negb (status =? 0)) && is_security_error status
     then [Ev_bt_io_set_sec_high] else []) ++
    (if 0 <? discovery_timer p
     then [Ev_source_remove (discovery_timer p)] else []) ++
    [Ev_timeout_add (Z.max 1 (next_id w)) (q_prim current)] /\
  option_map discovery_msg
    (get_prim (update_char_value status pdu current w) (q_prim current))
  = Some (Some m) /\
  option_map discovery_timer
    (get_prim (update_char_value status pdu current w) (q_prim current))
  = Some (Z.max 1 (next_id w)) /\
  transport_refs (update_char_value status pdu current w)
  = Nat.pred (transport_refs w).
Proof.
  intros Hp Hd Hc Hl Hno. unfold update_char_value.
  rewrite (get_chr_some w _ _ p chr Hp Hc).
  destruct (Z.eqb_spec status 0) as [E0 | E0]; cbn [negb andb].
  - set (c1 := fst (characteristic_set_value chr (tl pdu))).
    set (p1 := set_chars (list_set (chars p) (q_chr current) c1) p).
    assert (Hp1 : get_prim (put_chr (q_prim current) (q_chr current) c1 w)
                    (q_prim current) = Some p1).
    { apply get_prim_put_chr. exact Hp. }
    assert (Hc1 : nth_error (chars p1) (q_chr current) = Some c1).
    { cbn [chars p1 set_chars]. apply nth_error_list_set_same.
      apply nth_error_Some. congruence. }
    destruct (update_char_value_done_rearm status current _ p1 c1 m Hp1 Hd
                Hc1 Hl) as (F1 & F2 & F3).
    rewrite F1, F2, F3, trace_put_chr, refs_put_chr.
    replace (next_id (put_chr (q_prim current) (q_chr current) c1 w))
      with (next_id w)
      by (unfold put_chr; destruct (get_prim w (q_prim current));
          reflexivity).
    cbn [app discovery_timer p1 set_chars option_map discovery_msg
         set_discovery_timer]. rewrite Hd. repeat split.
  - destruct (is_security_error status) eqn:Es.
    + destruct Hno as [Hno | Hno]; [discriminate |].
      unfold bt_io_set_sec_high. rewrite Hno.
      destruct (update_char_value_done_rearm status current
                  (emit Ev_bt_io_set_sec_high w) p chr m Hp Hd Hc Hl)
        as (F1 & F2 & F3).
      rewrite F1, F2, F3. cbn [trace emit next_id option_map discovery_msg
        discovery_timer set_discovery_timer]. rewrite Hd, <- !app_assoc.
      repeat split.
    + destruct (update_char_value_done_rearm status current w p chr m Hp Hd
                  Hc Hl) as (F1 & F2 & F3).
      rewrite F1, F2, F3. cbn [app option_map discovery_msg discovery_timer
        set_discovery_timer]. rewrite Hd. repeat split.
Qed.

Lemma read_rearms_watchdog_witness :
  option_map discovery_timer
    (get_prim (update_char_value 0 [0x0B; 0x41] (new_query 0 0)
                 discovery_listed) 0)
  = Some (Z.max 1 (next_id discovery_listed)).
Proof.
  apply (read_rearms_watchdog 0 [0x0B; 0x41] (new_query 0 0)
           {| prim_att := sample_att; discovery_msg := Some discover_msg;
              discovery_timer := 1; prim_path := "/dev/service0010";
              chars := discovered_chars sample_primary [entry_2A00];
              watchers := [] |}
           (set_chr_end 0x15
              (new_characteristic "/dev/service0010" entry_2A00))
           discover_msg discovery_listed).
  - vm_compute. reflexivity.
  - reflexivity.
  - vm_compute. reflexivity.
  - reflexivity.
  - left. reflexivity.
Defined.

(** ** A watcher that leaves, a service that is disconnected *)

Lemma remove_watcher_filter ws id :
  NoDup (map watcher_id ws) ->
  remove_watcher ws id = filter (fun x => negb (watcher_id x =? id)) ws.
Proof.
  induction ws as [| x ws IH]; intros Hnd; cbn; [reflexivity |].
  inversion Hnd as [| ? ? Hx Hws]; subst.
  destruct (Z.eqb_spec (watcher_id x) id) as [E | E]; cbn.
  - symmetry. apply forallb_filter_id. apply forallb_forall.
    intros y Hy. apply negb_true_iff. apply Z.eqb_neq. intros Ey.
    apply Hx. rewrite E, <- Ey. apply in_map. exact Hy.
  - f_equal. apply IH. exact Hws.
Qed.

Lemma remove_watcher_length ws id :
  In id (map watcher_id ws) ->
  List.length (remove_watcher ws id) = Nat.pred (List.length ws).
Proof.
  induction ws as [| x ws IH]; intros Hin; cbn in *; [destruct Hin |].
  destruct (Z.eqb_spec (watcher_id x) id) as [E | E]; [reflexivity |].
  destruct Hin as [Hin | Hin]; [contradiction |].
  cbn. rewrite (IH Hin). destruct ws; [destruct Hin | reflexivity].
Qed.

(** X27.  A watcher whose subscriber left the bus.  When the disconnect
    watches of the watchers of a primary have different identifiers,
    watcher_exit removes the watcher it is called for and no other, keeps
    the order of the rest, gives one transport reference back, and sends
    nothing. *)
Theorem watcher_exit_removes (pi : nat) (p : primary) (wt : watcher)
  (w : world) :
  get_prim w pi = Some p ->
  In wt (watchers p) ->
  NoDup (map watcher_id (watchers p)) ->
  option_map watchers (get_prim (watcher_exit pi wt w) pi)
  = Some (filter (fun x => negb (watcher_id x =? watcher_id wt))
            (watchers p)) /\
  option_map (fun q => List.length (watchers q))
    (get_prim (watcher_exit pi wt w) pi)
  = Some (Nat.pred (List.length (watchers p))) /\
  transport_refs (watcher_exit pi wt w) = Nat.pred (transport_refs w) /\
  trace (watcher_exit pi wt w) = trace w.
Proof.
  intros Hp Hin Hnd. unfold watcher_exit. rewrite Hp.
  rewrite get_prim_unref, refs_unref, trace_unref, refs_put_prim.
  rewrite (get_put_prim w pi _ p Hp). cbn [option_map watchers set_watchers].
  rewrite (remove_watcher_length (watchers p) (watcher_id wt))
    by (apply in_map; exact Hin).
  rewrite (remove_watcher_filter (watchers p) (watcher_id wt) Hnd).
  repeat split.
Qed.

Lemma watcher_exit_removes_witness :
  option_map watchers (get_prim (watcher_exit 0 sample_watcher
                                   sample_listening) 0)
  = Some [].
Proof.
  apply (watcher_exit_removes 0
           {| prim_att := sample_att; discovery_msg := None;
              discovery_timer := 0; prim_path := "/dev/service0010";
              chars := [sample_chr]; watchers := [sample_watcher] |}
           sample_watcher sample_listening).
  - reflexivity.
  - left. reflexivity.
  - repeat constructor. intros [].
Defined.

(** X28.  The Disconnect method of a primary always returns the method
    return.  It stops the discovery of that primary: a pending
    DiscoverCharacteristics gets the failure "Discover characteristic
    values timed out" and the primary has no pending discovery and no
    timer afterwards; the transport loses one reference, and one more when
    a discovery was pending. *)
Theorem disconnect_service_effects (msg : DBusMessage) (pi : nat)
  (p : primary) (w : world) :
  get_prim w pi = Some p ->
  fst (disconnect_service msg pi w) = Some (Method_return msg []) /\
  trace (snd (disconnect_service msg pi w)) = trace w ++ timeout_reply p /\
  get_prim (snd (disconnect_service msg pi w)) pi = Some (stopped p) /\
  transport_refs (snd (disconnect_service msg pi w))
  = (transport_refs w - S (List.length (timeout_reply p)))%nat.
Proof.
  intros Hp. unfold disconnect_service. cbn [fst snd].
  destruct (stop_discovery_spec pi p w Hp) as (H1 & H2 & H3).
  rewrite trace_unref, get_prim_unref, refs_unref, H2, H3.
  repeat split; [| lia].
  unfold get_prim. rewrite H1. apply nth_error_list_set_same.
  apply nth_error_Some. unfold get_prim in Hp. congruence.
Qed.

Lemma disconnect_service_effects_witness :
  trace (snd (disconnect_service update_value_msg 0 discovery_started))
  = trace discovery_started ++
    [Ev_dbus_send
       (Error_failed discover_msg
          (Text "Discover characteristic values timed out"))].
Proof.
  apply (disconnect_service_effects update_value_msg 0
           (set_discovery_msg (Some discover_msg) sample_primary)
           discovery_started).
  reflexivity.
Defined.

(** ** More on the cache string *)

(** X29.  The cache string tells lists apart.  Two lists of well-formed
    characteristics that characteristic_list_to_string gives the same
    string have the same value handles, properties, end handles and
    types, in the same order. *)
Theorem cache_string_injective (cs1 cs2 : list characteristic) :
  Forall (fun c => well_formed c = true) cs1 ->
  Forall (fun c => well_formed c = true) cs2 ->
  characteristic_list_to_string cs1 = characteristic_list_to_string cs2 ->
  map cache_fields cs1 = map cache_fields cs2.
Proof.
  intros H1 H2 E.
  assert (F : forall cs, Forall (fun c => well_formed c = true) cs ->
            option_map (map cache_fields)
              (string_to_characteristic_list Prefix_fails ""
                 (Some (characteristic_list_to_string cs)))
            = Some (map cache_fields cs)).
  { intros cs H. rewrite (scan_serialised Prefix_fails "" cs H).
    cbn [option_map]. f_equal. rewrite map_map.
    apply map_ext. intros c. apply cache_fields_scanned. }
  pose proof (F cs1 H1) as F1. pose proof (F cs2 H2) as F2.
  rewrite E, F2 in F1. injection F1 as F1. symmetry. exact F1.
Qed.

Lemma cache_string_injective_witness :
  map cache_fields [sample_chr]
  = map cache_fields [set_chr_msg (Some update_value_msg) sample_chr].
Proof.
  apply (cache_string_injective [sample_chr]
           [set_chr_msg (Some update_value_msg) sample_chr]).
  - repeat constructor.
  - repeat constructor.
  - reflexivity.
Defined.

Lemma substring_all s n :
  (String.length s <= n)%nat -> substring 0 n s = s.
Proof.
  revert n. induction s as [| c s IH]; intros [| n] H; cbn in *;
    try reflexivity; try lia.
  f_equal. apply IH. lia.
Qed.

Lemma created_chars_well_formed p es :
  Forall (fun e => uuid_string e = true) es ->
  Forall (fun c => well_formed c = true) (created_chars p es).
Proof.
  induction 1 as [| e es He _ IH]; cbn [created_chars]; constructor;
    [| exact IH].
  unfold uuid_string in He. rewrite !andb_true_iff in He.
  destruct He as ((Hl1 & Hl2) & Hs).
  assert (Ht : strncpy_type (ac_uuid e) = ac_uuid e).
  { unfold strncpy_type. apply substring_all. apply Nat.leb_le in Hl2.
    unfold MAX_LEN_UUID_STR in *. lia. }
  unfold well_formed.
  cbn [chr_handle chr_perm chr_end chr_type set_chr_end new_characteristic].
  rewrite Ht, Hl1, Hl2, Hs.
  pose proof (u16_range (ac_value_handle e)) as R1.
  pose proof (u8_range (ac_properties e)) as R2.
  assert (R3 : 0 <= match es with
                    | [] => u16 (att_end (prim_att p))
                    | e' :: _ => u16 (ac_handle e')
                    end < 65536).
  { destruct es; apply u16_range. }
  rewrite !andb_true_r. rewrite !andb_true_iff.
  repeat split; try apply Z.leb_le; try apply Z.ltb_lt; lia.
Qed.

Lemma created_entries_sub seen l e :
  In e (created_entries seen l) -> In e l.
Proof.
  revert seen. induction l as [| a l IH]; intros seen H; cbn in H;
    [destruct H |].
  destruct (existsb _ seen).
  - right. exact (IH _ H).
  - destruct H as [<- | H]; [now left | right; exact (IH _ H)].
Qed.

(** X30.  Discovery keeps the list of a primary fit for the cache.  When
    the characteristics of the primary are well formed and the discovered
    entries carry UUID strings (not empty, no white space, at most 37
    characters), all characteristics are well formed after
    char_discovered_cb has processed the entries; the string it then
    writes to the storage scans back, without an overrun and whichever
    way the C library reads a bare 0x prefix, to the same value handles,
    properties, end handles and types. *)
Theorem discovery_keeps_well_formed (lib : bare_prefix) (p : primary)
  (l : list att_char) :
  Forall (fun c => well_formed c = true) (chars p) ->
  Forall (fun e => uuid_string e = true) l ->
  Forall (fun c => well_formed c = true) (discovered_chars p l) /\
  option_map (map cache_fields)
    (string_to_characteristic_list lib (prim_path p)
       (Some (characteristic_list_to_string (discovered_chars p l))))
  = Some (map cache_fields (discovered_chars p l)).
Proof.
  intros Hc Hl.
  assert (Hwf : Forall (fun c => well_formed c = true)
                  (discovered_chars p l)).
  { rewrite discovered_chars_closed. apply Forall_app. split; [exact Hc |].
    apply created_chars_well_formed. apply Forall_forall. intros e He.
    apply (proj1 (Forall_forall _ _) Hl). eapply created_entries_sub.
    exact He. }
  split; [exact Hwf |].
  rewrite (scan_serialised lib (prim_path p) _ Hwf).
  cbn [option_map]. f_equal. rewrite map_map.
  apply map_ext. intros c. apply cache_fields_scanned.
Qed.

Lemma discovery_keeps_well_formed_witness :
  Forall (fun c => well_formed c = true)
    (discovered_chars sample_primary [entry_2A00; entry_2A01]).
Proof.
  apply (discovery_keeps_well_formed Prefix_fails sample_primary
           [entry_2A00; entry_2A01]).
  - constructor.
  - repeat constructor.
Defined.
